(** * Tilck's read-only FAT16/FAT32 layer (common/fat32_base.c)

    A shallow embedding of the directory walker, the long-name
    reassembler, the path resolver, the FAT-entry reader and the file
    reader, together with the properties the specification states about
    them.

    Conventions of the embedding.
    - C integers are [Z]; every operation that can wrap in C is wrapped
      explicitly with [u8], [u32], [s16] or [size_t].
    - [struct fat_header *hdr] is the record [fat_header]: the BPB fields
      the code reads through [hdr->...], the two FAT32 fields that live in
      the [fat32_header2] right after it, and [image], the bytes of the
      mapped volume indexed by their offset from [hdr].
    - A pointer into the image is its byte offset from [hdr]; a pointer
      that may be NULL is an [option Z].
    - [ASSERT], [NOT_REACHED], a division by zero and a store past the end
      of a fixed-size buffer end the run with a [fault]; loops that follow
      a cluster chain take fuel.

    The file also covers the parser of the kernel command line
    (kernel/main.c) and the search for a free file handle
    (kernel/fs/fs_syscalls.c). *)

From Stdlib Require Import ZArith List Bool Lia Sorted.
Import ListNotations.
Local Open Scope Z_scope.

(** ** Fixed-width integers *)

Definition u8 (x : Z) : Z := x mod 256.
Definition u32 (x : Z) : Z := x mod 4294967296.
Definition s16 (x : Z) : Z := (x + 32768) mod 65536 - 32768.

(** ** Outcomes of a run *)

Inductive fault : Type :=
| AssertFailed      (* ASSERT(...) did not hold *)
| NotReached        (* NOT_REACHED() *)
| DivisionByZero    (* an integer division whose divisor is 0 *)
| OutOfBounds       (* a store past the end of a fixed-size array *)
| OutOfFuel.        (* the model's loop bound was hit *)

Inductive outcome (A : Type) : Type :=
| Ok (a : A)
| Fault (f : fault).

Arguments Ok {A} a.
Arguments Fault {A} f.

Definition bind {A B : Type} (m : outcome A) (k : A -> outcome B) : outcome B :=
  match m with
  | Ok a => k a
  | Fault f => Fault f
  end.

Notation "x <- m ;; k" := (bind m (fun x => k))
  (at level 61, m at next level, right associativity).
Notation "' p <- m ;; k" := (bind m (fun p => k))
  (at level 61, p pattern, m at next level, right associativity).

Definition ASSERT (b : bool) : outcome unit :=
  if b then Ok tt else Fault AssertFailed.

Definition udiv (a b : Z) : outcome Z :=
  if b =? 0 then Fault DivisionByZero else Ok (a / b).

Definition umod (a b : Z) : outcome Z :=
  if b =? 0 then Fault DivisionByZero else Ok (a mod b).

(** ** The mapped volume *)

Inductive fat_type : Type :=
| fat12_type
| fat16_type
| fat32_type
| fat_unknown.

Definition fat_type_eqb (a b : fat_type) : bool :=
  match a, b with
  | fat12_type, fat12_type => true
  | fat16_type, fat16_type => true
  | fat32_type, fat32_type => true
  | fat_unknown, fat_unknown => true
  | _, _ => false
  end.

Record fat_header : Type := mk_fat_header {
  BPB_BytsPerSec : Z;   (* u16 *)
  BPB_SecPerClus : Z;   (* u8  *)
  BPB_RsvdSecCnt : Z;   (* u16 *)
  BPB_NumFATs    : Z;   (* u8  *)
  BPB_RootEntCnt : Z;   (* u16 *)
  BPB_TotSec16   : Z;   (* u16 *)
  BPB_FATSz16    : Z;   (* u16 *)
  BPB_TotSec32   : Z;   (* u32 *)
  BPB_FATSz32    : Z;   (* u32, in the fat32_header2 at hdr+1 *)
  BPB_RootClus   : Z;   (* u32, in the fat32_header2 at hdr+1 *)
  image : Z -> Z        (* the bytes of the volume, by offset from hdr *)
}.

(** Little-endian loads from the image; a cell is read as a byte. *)
Definition load8 (hdr : fat_header) (a : Z) : Z := u8 (image hdr a).

Definition load16 (hdr : fat_header) (a : Z) : Z :=
  load8 hdr a + 256 * load8 hdr (a + 1).

Definition load32 (hdr : fat_header) (a : Z) : Z :=
  load16 hdr a + 65536 * load16 hdr (a + 2).

Fixpoint load_bytes (hdr : fat_header) (a : Z) (n : nat) : list Z :=
  match n with
  | O => []
  | S n' => load8 hdr a :: load_bytes hdr (a + 1) n'
  end.

(** ** Geometry helpers declared in fat32_base.h *)

(** Modelled from the spec: [fat_get_FATSz] is an inline helper of
    fat32_base.h; "fat_size_sectors is BPB_FATSz16 when nonzero, otherwise
    BPB_FATSz32" (the same choice [fat_get_first_data_sector] makes). *)
Definition fat_get_FATSz (hdr : fat_header) : Z :=
  if negb (BPB_FATSz16 hdr =? 0) then BPB_FATSz16 hdr else BPB_FATSz32 hdr.

(** Modelled from the spec: [fat_get_TotSec] is an inline helper of
    fat32_base.h; "total sectors (16- or 32-bit variant)", the 16-bit
    field when nonzero and the 32-bit field otherwise. *)
Definition fat_get_TotSec (hdr : fat_header) : Z :=
  if negb (BPB_TotSec16 hdr =? 0) then BPB_TotSec16 hdr else BPB_TotSec32 hdr.

(** Modelled from the spec: [fat_get_RootDirSectors] is an inline helper
    of fat32_base.h; "root_dir_sectors = ceil(root_ent_cnt * 32 /
    bytes_per_sector)". *)
Definition fat_get_RootDirSectors (hdr : fat_header) : outcome Z :=
  udiv (u32 (BPB_RootEntCnt hdr * 32 + (BPB_BytsPerSec hdr - 1)))
       (BPB_BytsPerSec hdr).

(** Modelled from the spec: the sentinels tested by
    [fat_is_end_of_clusterchain] and [fat_is_bad_cluster] of fat32_base.h;
    "FAT16: end-of-chain iff value >= 0xFFF8; bad iff value = 0xFFF7.
    FAT32: end-of-chain iff (value & 0x0FFFFFFF) >= 0x0FFFFFF8; bad iff
    masked value = 0x0FFFFFF7". *)
Definition fat_is_end_of_clusterchain (ft : fat_type) (val : Z) : bool :=
  if fat_type_eqb ft fat16_type
  then 0xFFF8 <=? val
  else 0x0FFFFFF8 <=? Z.land val 0x0FFFFFFF.

(** Modelled from the spec: [fat_is_bad_cluster], see above. *)
Definition fat_is_bad_cluster (ft : fat_type) (val : Z) : bool :=
  if fat_type_eqb ft fat16_type
  then val =? 0xFFF7
  else Z.land val 0x0FFFFFFF =? 0x0FFFFFF7.

(** ** fat_get_type *)

(** The local [CountofClusters] of [fat_get_type], as a function of the
    header. *)
Definition fat_CountofClusters (hdr : fat_header) : outcome Z :=
  let FATSz := fat_get_FATSz hdr in
  let TotSec := fat_get_TotSec hdr in
  RootDirSectors <- fat_get_RootDirSectors hdr ;;
  let FatAreaSize := u32 (BPB_NumFATs hdr * FATSz) in
  let DataSec :=
    u32 (TotSec - u32 (BPB_RsvdSecCnt hdr + FatAreaSize + RootDirSectors)) in
  udiv DataSec (BPB_SecPerClus hdr).

Definition fat_get_type (hdr : fat_header) : outcome fat_type :=
  CountofClusters <- fat_CountofClusters hdr ;;
  if CountofClusters <? 4085 then
    (* Volume is FAT12 *)
    Ok fat12_type
  else if CountofClusters <? 65525 then
    (* Volume is FAT16 *)
    Ok fat16_type
  else
    (* Volume is FAT32 *)
    Ok fat32_type.

(** ** fat_read_fat_entry *)

Definition fat_read_fat_entry (hdr : fat_header) (ft : fat_type)
    (clusterN fatNum : Z) : outcome Z :=
  ft <- (if fat_type_eqb ft fat_unknown then fat_get_type hdr else Ok ft) ;;
  if fat_type_eqb ft fat12_type then
    (* FAT12 is NOT supported. *)
    Fault NotReached
  else
    _ <- ASSERT (fatNum <? BPB_NumFATs hdr) ;;
    let FATSz := fat_get_FATSz hdr in
    let FATOffset :=
      if fat_type_eqb ft fat16_type then u32 (clusterN * 2)
      else u32 (clusterN * 4) in
    q <- udiv FATOffset (BPB_BytsPerSec hdr) ;;
    let ThisFATSecNum := u32 (u32 (fatNum * FATSz) + BPB_RsvdSecCnt hdr + q) in
    ThisFATEntOffset <- umod FATOffset (BPB_BytsPerSec hdr) ;;
    let SecBuf := u32 (ThisFATSecNum * BPB_BytsPerSec hdr) in
    if fat_type_eqb ft fat16_type then
      Ok (load16 hdr (SecBuf + ThisFATEntOffset))
    else
      (* FAT32 entries are 28-bit. The 4 higher bits are reserved. *)
      Ok (Z.land (load32 hdr (SecBuf + ThisFATEntOffset)) 0x0FFFFFFF).

(** ** Cluster addressing *)

Definition fat_get_first_data_sector (hdr : fat_header) : outcome Z :=
  RootDirSectors <- fat_get_RootDirSectors hdr ;;
  let FATSz :=
    if negb (BPB_FATSz16 hdr =? 0) then BPB_FATSz16 hdr
    else BPB_FATSz32 hdr in
  let FirstDataSector :=
    u32 (BPB_RsvdSecCnt hdr + u32 (BPB_NumFATs hdr * FATSz) + RootDirSectors) in
  Ok FirstDataSector.

Definition fat_get_sector_for_cluster (hdr : fat_header) (N : Z) : outcome Z :=
  FirstDataSector <- fat_get_first_data_sector hdr ;;
  Ok (u32 (u32 (u32 (N - 2) * BPB_SecPerClus hdr) + FirstDataSector)).

(** Modelled from the spec: [fat_get_pointer_to_cluster_data] is an
    inline helper of fat32_base.h; "pointer_to_cluster(N) = base +
    sector_for_cluster(N) * bytes_per_sector". *)
Definition fat_get_pointer_to_cluster_data (hdr : fat_header) (N : Z)
    : outcome Z :=
  sector <- fat_get_sector_for_cluster hdr N ;;
  Ok (u32 (sector * BPB_BytsPerSec hdr)).

Definition fat_get_rootdir (hdr : fat_header) (ft : fat_type)
    : outcome (Z * Z) :=
  _ <- ASSERT (negb (fat_type_eqb ft fat12_type)) ;;
  _ <- ASSERT (negb (fat_type_eqb ft fat_unknown)) ;;
  '(sector, cluster) <-
    (if fat_type_eqb ft fat16_type then
       let FirstDataSector :=
         u32 (BPB_RsvdSecCnt hdr + u32 (BPB_NumFATs hdr * BPB_FATSz16 hdr)) in
       (* On FAT16 the root dir entry is NOT a cluster chain! *)
       Ok (FirstDataSector, 0)
     else
       let cluster := BPB_RootClus hdr in
       sector <- fat_get_sector_for_cluster hdr cluster ;;
       Ok (sector, cluster)) ;;
  Ok (u32 (BPB_BytsPerSec hdr * sector), cluster).

(** ** shortname_checksum *)

Fixpoint shortname_checksum_loop (n : nat) (shortname : list Z) (sum : Z) : Z :=
  match n with
  | O => sum
  | S n' =>
      let sum' :=
        u8 ((if negb (Z.land sum 1 =? 0) then 0x80 else 0)
            + Z.shiftr sum 1 + hd 0 shortname) in
      shortname_checksum_loop n' (tl shortname) sum'
  end.

Definition shortname_checksum (shortname : list Z) : Z :=
  shortname_checksum_loop 11 shortname 0.

(** ** Fixed-size arrays

    A C array is a list whose missing cells read as 0 (a zeroed buffer is
    the empty list); the size of the array is checked at every store. *)

Fixpoint upd (l : list Z) (n : nat) (v : Z) : list Z :=
  match n, l with
  | O, [] => [v]
  | O, _ :: t => v :: t
  | S n', [] => 0 :: upd [] n' v
  | S n', x :: t => x :: upd t n' v
  end.

Definition arr_set (cap : Z) (l : list Z) (i v : Z) : outcome (list Z) :=
  if (0 <=? i) && (i <? cap) then Ok (upd l (Z.to_nat i) v)
  else Fault OutOfBounds.

(** The first [n] cells of an array. *)
Definition arr_prefix (l : list Z) (n : nat) : list Z :=
  map (fun i => nth i l 0) (seq 0 n).

Definition bzero (l : list Z) (n : nat) : list Z :=
  repeat 0 n ++ skipn n l.

(** The C string that starts at the beginning of a buffer: the bytes
    before the first NUL. *)
Fixpoint c_str (l : list Z) : list Z :=
  match l with
  | [] => []
  | c :: t => if c =? 0 then [] else c :: c_str t
  end.

(** Modelled from the spec: [str_reverse] lives in string_util.c; the
    walker uses it to "reverse the whole buffer", that is its first [len]
    bytes, in place. *)
Definition str_reverse (str : list Z) (len : Z) : list Z :=
  rev (arr_prefix str (Z.to_nat len)) ++ skipn (Z.to_nat len) str.

(** Modelled from the spec: [tolower], [strcmp] and [stricmp] come from
    string_util; a "case-sensitive" and a "case-insensitive string
    comparison", each 0 exactly on a match. [tolower] maps A-Z to a-z. *)
Definition tolower (c : Z) : Z :=
  if (65 <=? c) && (c <=? 90) then c + 32 else c.

(** Modelled from the spec: [strcmp], the "case-sensitive" comparison;
    the sign of a nonzero result is not used by this file. *)
Fixpoint strcmp (s1 s2 : list Z) : Z :=
  match s1, s2 with
  | [], [] => 0
  | [], c2 :: _ => 0 - c2
  | c1 :: _, [] => c1
  | c1 :: t1, c2 :: t2 => if c1 =? c2 then strcmp t1 t2 else c1 - c2
  end.

(** Modelled from the spec: [stricmp], the "case-insensitive"
    comparison. *)
Definition stricmp (s1 s2 : list Z) : Z :=
  strcmp (map tolower s1) (map tolower s2).

(** ** Directory entries

    Modelled from the spec: [fat_entry] and [fat_long_entry] are declared
    in fat32_base.h; both are 32-byte slots with the fields of the on-disk
    format the spec lists ("DIR_Name[11]", "DIR_Attr (bitfield: read-only,
    hidden, system, volume-id, directory, archive)", "DIR_NTRes",
    "DIR_FstClusHI", "DIR_FstClusLO", "DIR_FileSize"; "LDIR_Name1[10]",
    "LDIR_Name2[12]", "LDIR_Name3[4]", "LDIR_Chksum"). An entry is named by
    its address, and a field is read from the image at its offset. *)

Definition sizeof_fat_entry : Z := 32.

Definition DIR_Name (hdr : fat_header) (e : Z) : list Z := load_bytes hdr e 11.
Definition DIR_Name0 (hdr : fat_header) (e : Z) : Z := load8 hdr e.
Definition DIR_Attr (hdr : fat_header) (e : Z) : Z := load8 hdr (e + 11).
Definition volume_id (hdr : fat_header) (e : Z) : bool :=
  Z.testbit (DIR_Attr hdr e) 3.
Definition directory (hdr : fat_header) (e : Z) : bool :=
  Z.testbit (DIR_Attr hdr e) 4.
Definition DIR_NTRes (hdr : fat_header) (e : Z) : Z := load8 hdr (e + 12).
Definition DIR_FstClusHI (hdr : fat_header) (e : Z) : Z := load16 hdr (e + 20).
Definition DIR_FstClusLO (hdr : fat_header) (e : Z) : Z := load16 hdr (e + 26).
Definition DIR_FileSize (hdr : fat_header) (e : Z) : Z := load32 hdr (e + 28).

Definition LDIR_Name1 (hdr : fat_header) (le : Z) : list Z :=
  load_bytes hdr (le + 1) 10.
Definition LDIR_Chksum (hdr : fat_header) (le : Z) : Z := load8 hdr (le + 13).
Definition LDIR_Name2 (hdr : fat_header) (le : Z) : list Z :=
  load_bytes hdr (le + 14) 12.
Definition LDIR_Name3 (hdr : fat_header) (le : Z) : list Z :=
  load_bytes hdr (le + 28) 4.

(** Modelled from the spec: [is_long_name_entry] is an inline helper of
    fat32_base.h; a long-name slot is "identified by DIR_Attr ==
    long-name", with "long-name = read-only|hidden|system|volume-id". *)
Definition is_long_name_entry (hdr : fat_header) (e : Z) : bool :=
  DIR_Attr hdr e =? 0x0F.

(** Modelled from the spec: [fat_get_first_cluster] is an inline helper
    of fat32_base.h; "first_cluster_of(entry) = (DIR_FstClusHI << 16) |
    DIR_FstClusLO". *)
Definition fat_get_first_cluster (hdr : fat_header) (e : Z) : Z :=
  Z.lor (Z.shiftl (DIR_FstClusHI hdr e) 16) (DIR_FstClusLO hdr e).

(** Modelled from the spec: the two flags of fat32_base.h tested on
    [DIR_NTRes]; "bit 3 = basename lowercase, bit 4 = extension
    lowercase". *)
Definition FAT_ENTRY_NTRES_BASE_LOW_CASE : Z := 0x08.
Definition FAT_ENTRY_NTRES_EXT_LOW_CASE : Z := 0x10.

Definition FAT_ENTRY_DIRNAME_NO_MORE_ENTRIES : Z := 0.
Definition FAT_ENTRY_DIRNAME_EMPTY_DIR : Z := 0xE5.

(** ** The filename whitelist *)

Definition fat32_valid_chars : list bool :=
  repeat false 33 ++
  [ false (* ! *); false (* dquote *); true (* # *); true (* $ *);
    true (* % *); true (* & *); true (* ' *); true (* lparen *);
    true (* rparen *); false (* * *); true (* + *); true (* , *);
    true (* - *); true (* . *); false (* / *);
    true; true; true; true; true; true; true; true; true; true (* 0-9 *);
    false (* : *); true (* ; *); false (* < *); true (* = *);
    false (* > *); false (* ? *); true (* @ *);
    true; true; true; true; true; true; true; true; true; true; true;
    true; true; true; true; true; true; true; true; true; true; true;
    true; true; true; true (* A-Z *);
    true (* [ *); false (* backslash *); true (* ] *); true (* ^ *);
    true (* _ *); true (* ` *);
    true; true; true; true; true; true; true; true; true; true; true;
    true; true; true; true; true; true; true; true; true; true; true;
    true; true; true; true (* a-z *);
    true (* { *); false (* | *); true (* } *); true (* ~ *) ] ++
  repeat false 129.

Definition fat32_is_valid_filename_character (c : Z) : bool :=
  nth (Z.to_nat (u8 c)) fat32_valid_chars false.

(** ** fat_handle_long_dir_entry *)

(** Modelled from the spec: [fat_walk_dir_ctx] is declared in
    fat32_base.h; "the partial long-name buffer (up to ~256 bytes ...),
    its current length, the checksum expected across the current
    long-name run, and a validity flag". The buffer is [u8 lname_buf[256]],
    and the length and the checksum are [s16] (the walker stores -1 in the
    checksum). *)
Record fat_walk_dir_ctx : Type := mk_walk_ctx {
  lname_buf : list Z;
  lname_sz : Z;
  lname_chksum : Z;
  is_valid : bool
}.

Definition sizeof_lname_buf : Z := 256.
Definition sizeof_lname_chksum : nat := 2.

Definition set_invalid (ctx : fat_walk_dir_ctx) : fat_walk_dir_ctx :=
  mk_walk_ctx (lname_buf ctx) (lname_sz ctx) (lname_chksum ctx) false.

(** One of the three loops over the UTF-16 units of a name field:
    [entrybuf] holds the [ebuf_size] characters collected so far. *)
Inductive units_scan : Type :=
| UnitsInvalid                    (* is_valid = false; return *)
| UnitsEnd (entrybuf : list Z)    (* goto end *)
| UnitsMore (entrybuf : list Z).  (* the loop ran to its bound *)

Fixpoint scan_units (name entrybuf : list Z) : units_scan :=
  match name with
  | c :: hi :: rest =>
      (* NON-ASCII characters are NOT supported *)
      if negb (hi =? 0) then UnitsInvalid
      else if (c =? 0) || (c =? 0xFF) then UnitsEnd entrybuf
      else scan_units rest (entrybuf ++ [c])
  | _ => UnitsMore entrybuf
  end.

Definition scan_next (s : units_scan) (name : list Z) : units_scan :=
  match s with
  | UnitsMore entrybuf => scan_units name entrybuf
  | _ => s
  end.

Definition scan_slot (hdr : fat_header) (le : Z) : units_scan :=
  scan_next (scan_next (scan_units (LDIR_Name1 hdr le) [])
                       (LDIR_Name2 hdr le))
            (LDIR_Name3 hdr le).

(** The loop after [end:], over the characters of [entrybuf] from the
    last one to the first. *)
Fixpoint append_chars (cs : list Z) (ctx : fat_walk_dir_ctx)
    : outcome fat_walk_dir_ctx :=
  match cs with
  | [] => Ok ctx
  | c :: cs' =>
      if negb (fat32_is_valid_filename_character c) then Ok (set_invalid ctx)
      else
        buf <- arr_set sizeof_lname_buf (lname_buf ctx) (lname_sz ctx) c ;;
        append_chars cs'
          (mk_walk_ctx buf (s16 (lname_sz ctx + 1)) (lname_chksum ctx)
                       (is_valid ctx))
  end.

Definition fat_handle_long_dir_entry (hdr : fat_header)
    (ctx : fat_walk_dir_ctx) (le : Z) : outcome fat_walk_dir_ctx :=
  let ctx :=
    if negb (lname_chksum ctx =? LDIR_Chksum hdr le) then
      mk_walk_ctx (bzero (lname_buf ctx) sizeof_lname_chksum) 0
                  (LDIR_Chksum hdr le) true
    else ctx in
  if negb (is_valid ctx) then Ok ctx
  else
    match scan_slot hdr le with
    | UnitsInvalid => Ok (set_invalid ctx)
    | UnitsEnd entrybuf => append_chars (rev entrybuf) ctx
    | UnitsMore entrybuf => append_chars (rev entrybuf) ctx
    end.

(** ** fat_walk_directory *)

(** How the loop over the slots of one cluster ends. *)
Inductive slots_exit : Type :=
| Returned (r : Z)   (* a return statement inside the loop *)
| Exhausted.         (* i reached entries_per_cluster *)

Definition reset_lname (ctx : fat_walk_dir_ctx) : fat_walk_dir_ctx :=
  mk_walk_ctx (lname_buf ctx) 0 (-1) (is_valid ctx).

(** The long name handed to the callback for the short entry [e]: the
    block between [long_name_ptr = NULL] and the call of [cb]. The pointer
    is modelled by the C string it points to. *)
Definition long_name_for (hdr : fat_header) (ctx : fat_walk_dir_ctx) (e : Z)
    : outcome (fat_walk_dir_ctx * option (list Z)) :=
  if (0 <? lname_sz ctx) && is_valid ctx then
    let entry_checksum := s16 (shortname_checksum (DIR_Name hdr e)) in
    if lname_chksum ctx =? entry_checksum then
      buf <- arr_set sizeof_lname_buf (lname_buf ctx) (lname_sz ctx) 0 ;;
      let buf := str_reverse buf (lname_sz ctx) in
      Ok (mk_walk_ctx buf (lname_sz ctx) (lname_chksum ctx) (is_valid ctx),
          Some (c_str buf))
    else Ok (ctx, None)
  else Ok (ctx, None).

Section Walker.

(** The callback's [void *arg] is a state of type [A]; the callback
    returns the new state and its [int]. *)
Variable A : Type.

Definition fat_dentry_cb : Type :=
  fat_header -> fat_type -> Z -> option (list Z) -> A -> outcome (A * Z).

Variable cb : fat_dentry_cb.

(** The [for] loop over the slots [i, i + n) of the chunk at [entry]. *)
Fixpoint walk_slots (n : nat) (hdr : fat_header) (ft : fat_type)
    (entry i : Z) (ctx : fat_walk_dir_ctx) (arg : A)
    : outcome (fat_walk_dir_ctx * A * slots_exit) :=
  match n with
  | O => Ok (ctx, arg, Exhausted)
  | S n' =>
      let e := entry + sizeof_fat_entry * i in
      if is_long_name_entry hdr e then
        ctx' <- fat_handle_long_dir_entry hdr ctx e ;;
        walk_slots n' hdr ft entry (i + 1) ctx' arg
      else if volume_id hdr e then
        (* the first "file" is the volume ID. Skip it. *)
        walk_slots n' hdr ft entry (i + 1) ctx arg
      else if DIR_Name0 hdr e =? FAT_ENTRY_DIRNAME_NO_MORE_ENTRIES then
        (* that means all the rest of the entries are free. *)
        Ok (ctx, arg, Returned 0)
      else if DIR_Name0 hdr e =? FAT_ENTRY_DIRNAME_EMPTY_DIR then
        (* that means that the directory is empty *)
        Ok (ctx, arg, Returned 0)
      else
        '(ctx1, long_name_ptr) <- long_name_for hdr ctx e ;;
        '(arg', ret) <- cb hdr ft e long_name_ptr arg ;;
        let ctx2 := reset_lname ctx1 in
        if negb (ret =? 0) then
          (* the callback returns a value != 0 to request a walk STOP. *)
          Ok (ctx2, arg', Returned 0)
        else walk_slots n' hdr ft entry (i + 1) ctx2 arg'
  end.

(** The [while (true)] loop over the clusters of the chain. *)
Fixpoint walk_clusters (fuel : nat) (entries_per_cluster : Z)
    (hdr : fat_header) (ft : fat_type) (entry : option Z) (cluster : Z)
    (ctx : fat_walk_dir_ctx) (arg : A)
    : outcome (fat_walk_dir_ctx * A * Z) :=
  match fuel with
  | O => Fault OutOfFuel
  | S fuel' =>
      entry <- (if negb (cluster =? 0) then
                  p <- fat_get_pointer_to_cluster_data hdr cluster ;;
                  Ok (Some p)
                else Ok entry) ;;
      match entry with
      | None => Fault AssertFailed   (* ASSERT(entry != NULL) *)
      | Some e =>
          '(ctx', arg', ex) <-
            walk_slots (Z.to_nat entries_per_cluster) hdr ft e 0 ctx arg ;;
          match ex with
          | Returned r => Ok (ctx', arg', r)
          | Exhausted =>
              if cluster =? 0 then Ok (ctx', arg', 0)
              else
                val <- fat_read_fat_entry hdr ft cluster 0 ;;
                if fat_is_end_of_clusterchain ft val then
                  (* that's it: we hit an exactly full cluster. *)
                  Ok (ctx', arg', 0)
                else
                  (* we do not expect BAD CLUSTERS *)
                  _ <- ASSERT (negb (fat_is_bad_cluster ft val)) ;;
                  walk_clusters fuel' entries_per_cluster hdr ft
                                (Some e) val ctx' arg'
          end
      end
  end.

Definition fat_walk_directory (fuel : nat) (ctx : fat_walk_dir_ctx)
    (hdr : fat_header) (ft : fat_type) (entry : option Z) (cluster : Z)
    (arg : A) : outcome (fat_walk_dir_ctx * A * Z) :=
  let entries_per_cluster :=
    u32 (u32 (BPB_BytsPerSec hdr) * BPB_SecPerClus hdr) / sizeof_fat_entry in
  _ <- ASSERT (fat_type_eqb ft fat16_type || fat_type_eqb ft fat32_type) ;;
  _ <- (if fat_type_eqb ft fat16_type then
          ASSERT ((cluster =? 0) ||
                  match entry with None => true | Some _ => false end)
        else Ok tt) ;;
  let ctx :=
    mk_walk_ctx (bzero (lname_buf ctx) (Z.to_nat sizeof_lname_buf)) 0 (-1)
                (is_valid ctx) in
  walk_clusters fuel entries_per_cluster hdr ft entry cluster ctx arg.

End Walker.

Arguments walk_slots {A} cb n hdr ft entry i ctx arg.
Arguments walk_clusters {A} cb fuel entries_per_cluster hdr ft entry cluster ctx arg.
Arguments fat_walk_directory {A} cb fuel ctx hdr ft entry cluster arg.

(** ** fat_get_short_name *)

(** The two copy loops: the bytes of [name] up to the first space, each
    lowered when [low] is set. *)
Fixpoint copy_name_part (name : list Z) (low : bool) : list Z :=
  match name with
  | [] => []
  | c :: rest =>
      if c =? 32 then []
      else (if low then u8 (tolower c) else c) :: copy_name_part rest low
  end.

(** The bytes stored in [destbuf] before its terminating NUL. *)
Definition fat_get_short_name (hdr : fat_header) (entry : Z) : list Z :=
  let name := DIR_Name hdr entry in
  let base :=
    copy_name_part (firstn 8 name)
      (negb (Z.land (DIR_NTRes hdr entry) FAT_ENTRY_NTRES_BASE_LOW_CASE =? 0)) in
  if negb (nth 8 name 0 =? 32) then
    base ++ [46] ++
    copy_name_part (skipn 8 name)
      (negb (Z.land (DIR_NTRes hdr entry) FAT_ENTRY_NTRES_EXT_LOW_CASE =? 0))
  else base.

(** ** The path resolver *)

(** Modelled from the spec: [fat_search_ctx] is declared in fat32_base.h;
    it "owns the path cursor, the current component buffer, a flag
    single_comp, a pending sub-directory cluster to descend into next, a
    not_dir flag, and the resulting entry pointer". The component buffer
    is a [char] array of [sizeof_pc] bytes (256, as the long-name buffer)
    with its length [size_t pcl], 32 bits wide on this kernel's target;
    the embedded [fat_walk_dir_ctx], which the callback never touches, is
    threaded by the walker. *)
Record fat_search_ctx : Type := mk_search_ctx {
  path : list Z;
  single_comp : bool;
  pc : list Z;
  pcl : Z;
  shortname : list Z;
  result : option Z;
  subdir_cluster : Z;
  not_dir : bool
}.

Definition sizeof_pc : Z := 256.
Definition size_t (x : Z) : Z := u32 x.

(** [*p] and [p + 1] for a pointer into a C string: the end of the list
    is the terminating NUL. *)
Definition deref (p : list Z) : Z := hd 0 p.
Definition next (p : list Z) : list Z := tl p.

Fixpoint fetch_loop (p : list Z) (pc : list Z) (pcl : Z)
    : outcome (list Z * list Z * Z) :=
  match p with
  | [] => Ok (p, pc, pcl)
  | c :: rest =>
      if negb (c =? 0) && negb (c =? 47) then
        pc' <- arr_set sizeof_pc pc pcl c ;;
        fetch_loop rest pc' (size_t (pcl + 1))
      else Ok (p, pc, pcl)
  end.

Definition fat_fetch_next_component (ctx : fat_search_ctx)
    : outcome (fat_search_ctx * bool) :=
  _ <- ASSERT (pcl ctx =? 0) ;;
  '(p, pc1, pcl1) <- fetch_loop (path ctx) (pc ctx) (pcl ctx) ;;
  pc2 <- arr_set sizeof_pc pc1 pcl1 0 ;;
  let pcl2 := size_t (pcl1 + 1) in
  Ok (mk_search_ctx p (single_comp ctx) pc2 pcl2 (shortname ctx)
                    (result ctx) (subdir_cluster ctx) (not_dir ctx),
      negb (pcl2 =? 0)).

(** [fat_search_entry_cb] from the name comparison to its end. *)
Definition fat_search_entry_cb_compare (hdr : fat_header) (ft : fat_type)
    (entry : Z) (long_name : option (list Z)) (ctx : fat_search_ctx)
    : outcome (fat_search_ctx * Z) :=
  let '(ctx, differs) :=
    match long_name with
    | Some ln => (ctx, negb (strcmp ln (c_str (pc ctx)) =? 0))
    | None =>
        let sn := fat_get_short_name hdr entry in
        (mk_search_ctx (path ctx) (single_comp ctx) (pc ctx) (pcl ctx) sn
                       (result ctx) (subdir_cluster ctx) (not_dir ctx),
         negb (stricmp (c_str sn) (c_str (pc ctx)) =? 0))
    end in
  if differs then
    (* no match, continue. *)
    Ok (ctx, 0)
  else if single_comp ctx || (deref (path ctx) =? 0) then
    (* if the path ended, that's it. Just return. *)
    Ok (mk_search_ctx (path ctx) (single_comp ctx) (pc ctx) (pcl ctx)
                      (shortname ctx) (Some entry) (subdir_cluster ctx)
                      (not_dir ctx), -1)
  else
    _ <- ASSERT (deref (path ctx) =? 47) ;;
    let p := next (path ctx) in
    if deref p =? 0 then
      (* The path just ended with '/'. *)
      if directory hdr entry then
        Ok (mk_search_ctx p (single_comp ctx) (pc ctx) (pcl ctx)
                          (shortname ctx) (Some entry) (subdir_cluster ctx)
                          (not_dir ctx), -1)
      else
        Ok (mk_search_ctx p (single_comp ctx) (pc ctx) (pcl ctx)
                          (shortname ctx) (result ctx) (subdir_cluster ctx)
                          true, -1)
    else if negb (directory hdr entry) then
      (* if the entry is not a directory, we failed. *)
      Ok (mk_search_ctx p (single_comp ctx) (pc ctx) (pcl ctx)
                        (shortname ctx) (result ctx) (subdir_cluster ctx)
                        (not_dir ctx), -1)
    else
      (* The path did not end: we have to do a walk in the sub-dir. *)
      Ok (mk_search_ctx p (single_comp ctx) (pc ctx) 0 (shortname ctx)
                        (result ctx) (fat_get_first_cluster hdr entry)
                        (not_dir ctx), -1).

Definition fat_search_entry_cb (hdr : fat_header) (ft : fat_type)
    (entry : Z) (long_name : option (list Z)) (ctx : fat_search_ctx)
    : outcome (fat_search_ctx * Z) :=
  if pcl ctx =? 0 then
    '(ctx', fetched) <- fat_fetch_next_component ctx ;;
    if negb fetched then
      (* The path was empty, so no path component has been fetched. *)
      Ok (ctx', -1)
    else fat_search_entry_cb_compare hdr ft entry long_name ctx'
  else fat_search_entry_cb_compare hdr ft entry long_name ctx.

(** [bzero(ctx, sizeof(fat_search_ctx))], then the two stores. *)
Definition fat_init_search_ctx (p : list Z) (single_comp : bool)
    : fat_search_ctx * fat_walk_dir_ctx :=
  (mk_search_ctx p single_comp [] 0 [] None 0 false,
   mk_walk_ctx [] 0 0 false).

(** The [while (ctx.subdir_cluster)] loop. *)
Fixpoint search_subdirs (n fuel : nat) (hdr : fat_header) (ft : fat_type)
    (wctx : fat_walk_dir_ctx) (ctx : fat_search_ctx)
    : outcome (fat_walk_dir_ctx * fat_search_ctx) :=
  if subdir_cluster ctx =? 0 then Ok (wctx, ctx)
  else
    match n with
    | O => Fault OutOfFuel
    | S n' =>
        let cluster := subdir_cluster ctx in
        let ctx := mk_search_ctx (path ctx) (single_comp ctx) (pc ctx)
                     (pcl ctx) (shortname ctx) (result ctx) 0 (not_dir ctx) in
        '(wctx', ctx', _) <-
          fat_walk_directory fat_search_entry_cb fuel wctx hdr ft None
                             cluster ctx ;;
        search_subdirs n' fuel hdr ft wctx' ctx'
    end.

(** The search proper: everything between [fat_init_search_ctx] and the
    store to [*err]. *)
Definition fat_search_run (fuel : nat) (hdr : fat_header) (ft : fat_type)
    (root : Z) (root_dir_cluster : Z) (p : list Z)
    : outcome fat_search_ctx :=
  let '(ctx, wctx) := fat_init_search_ctx p false in
  '(wctx', ctx', _) <-
    fat_walk_directory fat_search_entry_cb fuel wctx hdr ft (Some root)
                       root_dir_cluster ctx ;;
  '(_, ctx'') <- search_subdirs fuel fuel hdr ft wctx' ctx' ;;
  Ok ctx''.

(** [err] is [None] for a NULL pointer and [Some v] for a pointer to an
    [int] that holds [v]; the function returns the entry (or NULL) and
    what [err] points to afterwards. *)
Definition fat_search_entry (fuel : nat) (hdr : fat_header) (ft : fat_type)
    (abspath : list Z) (err : option Z) : outcome (option Z * option Z) :=
  ft <- (if fat_type_eqb ft fat_unknown then fat_get_type hdr else Ok ft) ;;
  _ <- ASSERT (deref abspath =? 47) ;;
  let abspath := next abspath in
  '(root, root_dir_cluster) <- fat_get_rootdir hdr ft ;;
  if deref abspath =? 0 then
    (* the whole abspath was just '/' *)
    Ok (Some root, err)
  else
    ctx <- fat_search_run fuel hdr ft root root_dir_cluster abspath ;;
    let err :=
      match err with
      | None => None
      | Some _ =>
          if not_dir ctx then Some (-20) (* -ENOTDIR *)
          else match result ctx with
               | None => Some (-2) (* ENOENT *)
               | Some _ => Some 0
               end
      end in
    Ok (result ctx, err).

(** ** fat_read_whole_file *)

Definition fat_get_file_size (hdr : fat_header) (entry : Z) : Z :=
  DIR_FileSize hdr entry.

(** [memmove(dest + off, src, n)] with [src] the [n] bytes copied. *)
Definition memmove (dest : list Z) (off : Z) (src : list Z) : list Z :=
  firstn (Z.to_nat off) dest ++ src ++
  skipn (Z.to_nat off + length src) dest.

(** The [do ... while (written < fsize)] loop. *)
Fixpoint read_clusters (fuel : nat) (hdr : fat_header) (ft : fat_type)
    (cs fsize cluster written : Z) (dest_buf : list Z)
    : outcome (list Z) :=
  match fuel with
  | O => Fault OutOfFuel
  | S fuel' =>
      data <- fat_get_pointer_to_cluster_data hdr cluster ;;
      let rem := size_t (fsize - written) in
      if rem <=? cs then
        (* read what is needed *)
        Ok (memmove dest_buf written (load_bytes hdr data (Z.to_nat rem)))
      else
        (* read the whole cluster *)
        let dest_buf :=
          memmove dest_buf written (load_bytes hdr data (Z.to_nat cs)) in
        let written := size_t (written + cs) in
        _ <- ASSERT (0 <? size_t (fsize - written)) ;;
        (* find the next cluster *)
        fatval <- fat_read_fat_entry hdr ft cluster 0 ;;
        if fat_is_end_of_clusterchain ft fatval then
          (* rem is still > 0, this should NOT be the last cluster *)
          Fault NotReached
        else
          (* we do not expect BAD CLUSTERS *)
          _ <- ASSERT (negb (fat_is_bad_cluster ft fatval)) ;;
          if written <? fsize then
            read_clusters fuel' hdr ft cs fsize fatval written dest_buf
          else Ok dest_buf
  end.

Definition fat_read_whole_file (fuel : nat) (hdr : fat_header) (entry : Z)
    (dest_buf : list Z) (dest_buf_size : Z) : outcome (list Z) :=
  _ <- ASSERT (DIR_FileSize hdr entry <=? dest_buf_size) ;;
  (* cluster size in bytes *)
  let cs := u32 (u32 (BPB_SecPerClus hdr) * u32 (BPB_BytsPerSec hdr)) in
  let fsize := DIR_FileSize hdr entry in
  ft <- fat_get_type hdr ;;
  let cluster := fat_get_first_cluster hdr entry in
  read_clusters fuel hdr ft cs fsize cluster 0 dest_buf.

(** ** The specification's reading of the classification *)

(** "<4085 -> fat12, <65525 -> fat16, else fat32". *)
Definition classify (n : Z) : fat_type :=
  if n <? 4085 then fat12_type
  else if n <? 65525 then fat16_type
  else fat32_type.

(** ** The specification's reading of a FAT entry's place *)

(** "w=2 for FAT16, w=4 for FAT32". *)
Definition fat_entry_width (ft : fat_type) : Z :=
  if fat_type_eqb ft fat16_type then 2 else 4.

(** The first byte of FAT number [f]: it starts at sector
    [f * fat_size + reserved]. *)
Definition fat_start (hdr : fat_header) (f : Z) : Z :=
  (f * fat_get_FATSz hdr + BPB_RsvdSecCnt hdr) * BPB_BytsPerSec hdr.

(** ** The specification's reading of the file reader *)

(** "Walks the cluster chain ... For each cluster: if remaining bytes <=
    cluster size, copy remaining and stop; else copy a whole cluster,
    advance. After each full cluster, read the next FAT entry;
    end-of-chain while remaining > 0 is a corruption error. Bad cluster
    is a corruption error." The bytes to copy, in order, for the [rem]
    bytes that remain from [cluster] on; [n] bounds the clusters
    visited. *)
Fixpoint file_bytes_from (n : nat) (hdr : fat_header) (ft : fat_type)
    (cs cluster rem : Z) : outcome (list Z) :=
  match n with
  | O => Fault OutOfFuel
  | S n' =>
      data <- fat_get_pointer_to_cluster_data hdr cluster ;;
      if rem <=? cs then Ok (load_bytes hdr data (Z.to_nat rem))
      else
        next_cluster <- fat_read_fat_entry hdr ft cluster 0 ;;
        if fat_is_end_of_clusterchain ft next_cluster then Fault NotReached
        else if fat_is_bad_cluster ft next_cluster then Fault AssertFailed
        else
          rest <- file_bytes_from n' hdr ft cs next_cluster (rem - cs) ;;
          Ok (load_bytes hdr data (Z.to_nat cs) ++ rest)
  end.

(** The cluster size in bytes, as [fat_read_whole_file] computes it. *)
Definition cluster_size (hdr : fat_header) : Z :=
  u32 (u32 (BPB_SecPerClus hdr) * u32 (BPB_BytsPerSec hdr)).

(** ** Fuel for a walk

    Within [n] clusters from [cluster] the chain comes to a point where
    the walker leaves its loop: the cluster 0 of a FAT16 root, an
    end-of-chain or bad-cluster mark, or a FAT entry that cannot be
    read. *)
Fixpoint chain_stops (n : nat) (hdr : fat_header) (ft : fat_type)
    (cluster : Z) : bool :=
  match n with
  | O => false
  | S n' =>
      (cluster =? 0) ||
      match fat_read_fat_entry hdr ft cluster 0 with
      | Fault _ => true
      | Ok val =>
          fat_is_end_of_clusterchain ft val || fat_is_bad_cluster ft val ||
          chain_stops n' hdr ft val
      end
  end.

(** ** The specification's reading of the checksum *)

(** An 8-bit rotation to the right by one position. *)
Definition rotate_right_u8 (x : Z) : Z :=
  Z.lor (Z.shiftr x 1) (Z.land (Z.shiftl x 7) 0xFF).

(** "each step sum = rotate_right_u8(sum) + byte", truncated to 8 bits. *)
Definition checksum_step (sum byte : Z) : Z :=
  u8 (rotate_right_u8 sum + byte).

Definition short_name_checksum_spec (name : list Z) : Z :=
  fold_left checksum_step name 0.

(** ** A sample FAT16 volume

    512-byte sectors, one sector per cluster, one reserved sector, one FAT
    of 32 sectors, a root directory of 16 slots at sector 33 and the data
    region from sector 34 on (cluster N at byte 17408 + 512 * (N - 2)). *)

Definition place (base : Z) (bytes : list Z) (rest : Z -> Z) : Z -> Z :=
  fun a =>
    if (base <=? a) && (a <? base + Z.of_nat (length bytes))
    then nth (Z.to_nat (a - base)) bytes 0
    else rest a.

Definition le16 (v : Z) : list Z := [v mod 256; (v / 256) mod 256].
Definition le32 (v : Z) : list Z := le16 (v mod 65536) ++ le16 (v / 65536).

(** A short (8.3) slot. *)
Definition short_slot (name : list Z) (attr ntres clus size : Z) : list Z :=
  firstn 11 name ++ [attr; ntres] ++ repeat 0 7 ++ le16 (clus / 65536) ++
  repeat 0 4 ++ le16 (clus mod 65536) ++ le32 size.

(** A long-name slot: up to 13 characters as UTF-16 units, a 0x0000
    terminator and 0xFFFF padding when there are fewer. *)
Definition long_units (chars : list Z) : list Z :=
  firstn 26 (flat_map (fun c => [c; 0]) chars ++ [0; 0] ++ repeat 0xFF 24).

Definition long_slot (ord : Z) (chars : list Z) (chksum : Z) : list Z :=
  let u := long_units chars in
  [ord] ++ firstn 10 u ++ [0x0F; 0; chksum] ++ firstn 12 (skipn 10 u) ++
  [0; 0] ++ skipn 22 u.

Definition end_slot : list Z := repeat 0 32.

(** "LONGFI~1TXT", "LongFileNameE" and "xample.txt". *)
Definition name_LONGFI : list Z := [76; 79; 78; 71; 70; 73; 126; 49; 84; 88; 84].
Definition lfn_part1 : list Z :=
  [76; 111; 110; 103; 70; 105; 108; 101; 78; 97; 109; 101; 69].
Definition lfn_part2 : list Z := [120; 97; 109; 112; 108; 101; 46; 116; 120; 116].
(** "HELLO   TXT", "A          ", "B          ", "C       BIN",
    "D          ", "X       TXT", "Y       TXT" and the label. *)
Definition name_HELLO : list Z := [72; 69; 76; 76; 79; 32; 32; 32; 84; 88; 84].
Definition name_A : list Z := 65 :: repeat 32 10.
Definition name_B : list Z := 66 :: repeat 32 10.
Definition name_C_BIN : list Z := [67; 32; 32; 32; 32; 32; 32; 32; 66; 73; 78].
Definition name_D : list Z := 68 :: repeat 32 10.
Definition name_E : list Z := 69 :: repeat 32 10.
Definition name_X_TXT : list Z := [88; 32; 32; 32; 32; 32; 32; 32; 84; 88; 84].
Definition name_Y_TXT : list Z := [89; 32; 32; 32; 32; 32; 32; 32; 84; 88; 84].
Definition name_label : list Z := [84; 73; 76; 67; 75; 32; 32; 32; 32; 32; 32].

Definition sample_fat : list Z :=
  flat_map le16
    [0xFFF8; 0xFFFF; 0xFFFF; 0xFFFF; 0xFFFF; 6; 0xFFFF; 0xFFFF; 0xFFFF; 0xFFFF;
     0xFFF7].

(** "SHORT   TXT" and "BADCLUS TXT". *)
Definition name_SHORT : list Z := [83; 72; 79; 82; 84; 32; 32; 32; 84; 88; 84].
Definition name_BADCLUS : list Z := [66; 65; 68; 67; 76; 85; 83; 32; 84; 88; 84].

(** The root directory: the volume label, a file with a two-slot long
    name, the directories A, D and E, HELLO.TXT (700 bytes in the
    clusters 5 and 6), SHORT.TXT (1200 bytes claimed, on the same
    two-cluster chain) and BADCLUS.TXT (700 bytes claimed, from cluster 10
    whose FAT entry is the bad-cluster mark). *)
Definition sample_root : list Z :=
  short_slot name_label 0x08 0 0 0 ++
  long_slot 0x42 lfn_part2 (shortname_checksum name_LONGFI) ++
  long_slot 0x01 lfn_part1 (shortname_checksum name_LONGFI) ++
  short_slot name_LONGFI 0x20 0 4 5 ++
  short_slot name_A 0x10 0 2 0 ++
  short_slot name_HELLO 0x20 0 5 700 ++
  short_slot name_D 0x10 0 8 0 ++
  short_slot name_E 0x10 0 9 0 ++
  short_slot name_SHORT 0x20 0 5 1200 ++
  short_slot name_BADCLUS 0x20 0 10 700 ++
  end_slot.

(** /A holds the directory B, and /A/B holds C.BIN. *)
Definition sample_dir_A : list Z := short_slot name_B 0x10 0 3 0 ++ end_slot.
Definition sample_dir_B : list Z := short_slot name_C_BIN 0x20 0 7 4 ++ end_slot.

(** /D holds X.TXT, a deleted slot and Y.TXT. *)
Definition sample_dir_D : list Z :=
  short_slot name_X_TXT 0x20 0 0 0 ++
  short_slot (0xE5 :: repeat 32 10) 0x20 0 0 0 ++
  short_slot name_Y_TXT 0x20 0 0 0 ++
  end_slot.

(** /E holds a file whose long-name chain has a corrupted checksum in its
    first slot. *)
Definition sample_dir_E : list Z :=
  long_slot 0x42 lfn_part2 (u8 (shortname_checksum name_LONGFI + 1)) ++
  long_slot 0x01 lfn_part1 (shortname_checksum name_LONGFI) ++
  short_slot name_LONGFI 0x20 0 4 5 ++
  end_slot.

Definition sample_file_bytes : list Z :=
  map (fun i => Z.of_nat i mod 251) (seq 0 700).

Definition sample_image : Z -> Z :=
  place 512 sample_fat
  (place 16896 sample_root
  (place 17408 sample_dir_A
  (place 17920 sample_dir_B
  (place 18432 [72; 101; 108; 108; 111]
  (place 18944 sample_file_bytes
  (place 19968 [0xDE; 0xAD; 0xBE; 0xEF]
  (place 20480 sample_dir_D
  (place 20992 sample_dir_E
  (fun _ => 0))))))))).

Definition sample_hdr : fat_header :=
  mk_fat_header 512 1 1 1 16 8000 32 0 0 0 sample_image.

(** A second volume with the same geometry whose root directory, and
    whose directory in cluster 2, are exactly full: 16 live slots and no
    end marker. *)
Definition full_dir : list Z :=
  flat_map (fun _ => short_slot name_X_TXT 0x20 0 0 0) (seq 0 16).

Definition full_image : Z -> Z :=
  place 512 (flat_map le16 [0xFFF8; 0xFFFF; 0xFFFF])
  (place 16896 full_dir
  (place 17408 full_dir
  (fun _ => 0))).

Definition full_hdr : fat_header :=
  mk_fat_header 512 1 1 1 16 8000 32 0 0 0 full_image.

(** A callback that records what it is handed and never stops the walk. *)
Definition record_cb : fat_dentry_cb (list (Z * option (list Z))) :=
  fun _ _ entry long_name log => Ok (log ++ [(entry, long_name)], 0).

(** A callback that stops the walk at the first entry. *)
Definition stop_cb : fat_dentry_cb (list (Z * option (list Z))) :=
  fun _ _ entry long_name log => Ok (log ++ [(entry, long_name)], 1).

Definition empty_walk_ctx : fat_walk_dir_ctx := mk_walk_ctx [] 0 0 false.

(** "/", "/LONGFI~1.TXT", "/longfi~1.txt", "/LongFileNameExample.txt",
    "/longfilenameexample.txt", "/hello.txt", "/A/B/C.BIN" and "/D/Y.TXT"
    as C strings. *)
Definition path_root : list Z := [47].
Definition path_alias : list Z :=
  [47; 76; 79; 78; 71; 70; 73; 126; 49; 46; 84; 88; 84].
Definition path_long : list Z := 47 :: lfn_part1 ++ lfn_part2.
Definition path_long_lower : list Z := 47 :: map tolower (lfn_part1 ++ lfn_part2).
Definition path_hello : list Z :=
  [47; 104; 101; 108; 108; 111; 46; 116; 120; 116].
Definition path_a_b_c : list Z := [47; 65; 47; 66; 47; 67; 46; 66; 73; 78].
Definition path_d_y : list Z := [47; 68; 47; 89; 46; 84; 88; 84].

(** What a walk handed to a recording callback, and what it returned. *)
Definition callbacks_of (r : outcome (fat_walk_dir_ctx *
                                        list (Z * option (list Z)) * Z))
    : option (list (Z * option (list Z)) * Z) :=
  match r with
  | Ok (_, log, v) => Some (log, v)
  | Fault _ => None
  end.

(** The path component at the cursor [p] (the bytes before the next '/'
    or NUL) and the cursor after it. *)
Fixpoint component (p : list Z) : list Z :=
  match p with
  | [] => []
  | c :: rest =>
      if negb (c =? 0) && negb (c =? 47) then c :: component rest else []
  end.

Fixpoint after_component (p : list Z) : list Z :=
  match p with
  | [] => []
  | c :: rest =>
      if negb (c =? 0) && negb (c =? 47) then after_component rest else p
  end.

(** The search context with which [fat_search_entry_cb] reaches its
    name comparison: the context it was called with, after the fetch of
    the next component when none was pending. *)
Definition at_comparison (ctx : fat_search_ctx) : outcome fat_search_ctx :=
  if pcl ctx =? 0 then
    '(ctx', _) <- fat_fetch_next_component ctx ;; Ok ctx'
  else Ok ctx.

(** The search context at the start of a lookup of "/LONGFI~1.TXT". *)
Definition alias_ctx : fat_search_ctx :=
  fst (fat_init_search_ctx (tl path_alias) false).

Definition alias_ctx_fetched : fat_search_ctx :=
  match at_comparison alias_ctx with
  | Ok c => c
  | Fault _ => alias_ctx
  end.

(** ** Long-name runs

    The long-name slots the reassembler has accumulated since it last
    restarted, in the order it met them. *)

(** The characters read from one slot: the low bytes of its units up to
    the first 0x0000 or 0x00FF unit, when every unit read has a zero high
    byte. *)
Definition slot_chars (hdr : fat_header) (le : Z) : option (list Z) :=
  match scan_slot hdr le with
  | UnitsInvalid => None
  | UnitsEnd entrybuf => Some entrybuf
  | UnitsMore entrybuf => Some entrybuf
  end.

(** The name a run spells: the characters of its slots, last slot first. *)
Definition run_name (hdr : fat_header) (run : list Z) : list Z :=
  flat_map (fun le => match slot_chars hdr le with
                      | Some cs => cs
                      | None => []
                      end) (rev run).

(** A slot of a run with checksum [chk]: a long-name slot that carries
    [chk], whose units read have a zero high byte and whose characters
    are in the whitelist. *)
Definition slot_ok (hdr : fat_header) (chk : Z) (le : Z) : Prop :=
  is_long_name_entry hdr le = true /\
  LDIR_Chksum hdr le = chk /\
  exists cs, slot_chars hdr le = Some cs /\
             Forall (fun c => fat32_is_valid_filename_character c = true) cs.

Definition valid_run (hdr : fat_header) (chk : Z) (run : list Z)
    (name : list Z) : Prop :=
  run <> [] /\ Forall (slot_ok hdr chk) run /\ name = run_name hdr run /\
  name <> [] /\
  Forall (fun c => fat32_is_valid_filename_character c = true) name.

(** The walk context holds the run [run]. *)
Definition holds_run (hdr : fat_header) (ctx : fat_walk_dir_ctx)
    (run : list Z) : Prop :=
  Forall (slot_ok hdr (lname_chksum ctx)) run /\
  0 <= lname_sz ctx /\
  arr_prefix (lname_buf ctx) (Z.to_nat (lname_sz ctx))
  = rev (run_name hdr run).

(** A callback that behaves as [cb] and keeps the list of the entries
    and long names it was called with. *)
Definition logging_cb {A : Type} (cb : fat_dentry_cb A)
    : fat_dentry_cb (A * list (Z * option (list Z))) :=
  fun hdr ft entry long_name st =>
    '(a', r) <- cb hdr ft entry long_name (fst st) ;;
    Ok ((a', snd st ++ [(entry, long_name)]), r).

(** ** Two searches side by side

    The relations used to compare the search of a path with the search of
    the same path followed by a '/'. *)

(** Two runs end the same way, with results related by [P]. *)
Definition outcome_rel {X : Type} (P : X -> X -> Prop) (o1 o2 : outcome X)
    : Prop :=
  match o1, o2 with
  | Ok a, Ok b => P a b
  | Fault f, Fault g => f = g
  | _, _ => False
  end.

Definition with_path (c : fat_search_ctx) (p : list Z) : fat_search_ctx :=
  mk_search_ctx p (single_comp c) (pc c) (pcl c) (shortname c) (result c)
                (subdir_cluster c) (not_dir c).

(** Two walks that went through the same slots: the walk contexts and
    the exits agree, and the callback states are related by [R] while the
    walks may go on and by [R] or [S] once they have returned. *)
Definition slots_post {A : Type} (R S : A -> A -> Prop)
    (x1 x2 : fat_walk_dir_ctx * A * slots_exit) : Prop :=
  fst (fst x1) = fst (fst x2) /\ snd x1 = snd x2 /\
  match snd x1 with
  | Exhausted => R (snd (fst x1)) (snd (fst x2))
  | Returned _ =>
      R (snd (fst x1)) (snd (fst x2)) \/ S (snd (fst x1)) (snd (fst x2))
  end.

Definition walk_post {A : Type} (R S : A -> A -> Prop)
    (x1 x2 : fat_walk_dir_ctx * A * Z) : Prop :=
  fst (fst x1) = fst (fst x2) /\ snd x1 = snd x2 /\
  (R (snd (fst x1)) (snd (fst x2)) \/ S (snd (fst x1)) (snd (fst x2))).

(** A path cursor with no NUL inside that does not end with '/'. *)
Definition good_path (q : list Z) : Prop := ~ In 0 q /\ last q 0 <> 47.

(** The second search is where the first one is, one '/' further from
    the end of its path, and nothing has been found yet. *)
Definition sync (c1 c2 : fat_search_ctx) : Prop :=
  good_path (path c1) /\ c2 = with_path c1 (path c1 ++ [47]) /\
  single_comp c1 = false /\ result c1 = None /\ not_dir c1 = false.

(** The first search has found [e] as the last component; the second
    one took it when it is a directory and set [not_dir] otherwise. *)
Definition fin (hdr : fat_header) (c1 c2 : fat_search_ctx) : Prop :=
  subdir_cluster c1 = 0 /\ subdir_cluster c2 = 0 /\
  exists e,
    result c1 = Some e /\ not_dir c1 = false /\
    if directory hdr e then result c2 = Some e /\ not_dir c2 = false
    else result c2 = None /\ not_dir c2 = true.

(** [sync] between two walks of one directory, and what relates the two
    searches once a walk has stopped. *)
Definition sync_walking (c1 c2 : fat_search_ctx) : Prop :=
  sync c1 c2 /\ subdir_cluster c1 = 0.

Definition sync_or_fin (hdr : fat_header) (c1 c2 : fat_search_ctx) : Prop :=
  sync c1 c2 \/ fin hdr c1 c2.

(** The two things the name comparison of [fat_search_entry_cb] computes:
    whether the names differ, and the new content of [shortname]. *)
Definition compare_differs (hdr : fat_header) (e : Z)
    (ln : option (list Z)) (pc0 : list Z) : bool :=
  match ln with
  | Some l => negb (strcmp l (c_str pc0) =? 0)
  | None => negb (stricmp (c_str (fat_get_short_name hdr e)) (c_str pc0) =? 0)
  end.

Definition compare_shortname (hdr : fat_header) (e : Z)
    (ln : option (list Z)) (sn : list Z) : list Z :=
  match ln with
  | Some _ => sn
  | None => fat_get_short_name hdr e
  end.

(** ** fat_get_used_bytes *)

(** The [for] loop: [n] rounds are left and [clusterN] is the loop
    variable; the result is its value when the loop is left. *)
Fixpoint used_bytes_loop (n : nat) (hdr : fat_header) (clusterN : Z)
    : outcome Z :=
  match n with
  | O => Ok clusterN
  | S n' =>
      val <- fat_read_fat_entry hdr fat_unknown clusterN 0 ;;
      if val =? 0 then Ok clusterN
      else used_bytes_loop n' hdr (u32 (clusterN + 1))
  end.

Definition fat_get_used_bytes (hdr : fat_header) : outcome Z :=
  cluster_count <- udiv (fat_get_TotSec hdr) (BPB_SecPerClus hdr) ;;
  clusterN <- used_bytes_loop (Z.to_nat cluster_count) hdr 0 ;;
  first_free_sector <- fat_get_sector_for_cluster hdr clusterN ;;
  Ok (u32 (first_free_sector * BPB_BytsPerSec hdr)).

(** ** A walk as an iteration over a listing *)

(** The callback run over a list of entries with their long names, in
    order, up to the end of the list or the first call that returns
    nonzero; the flag tells whether it stopped that way. *)
Fixpoint iter_cb {A : Type} (cb : fat_dentry_cb A) (hdr : fat_header)
    (ft : fat_type) (l : list (Z * option (list Z))) (a : A)
    : outcome (A * bool) :=
  match l with
  | [] => Ok (a, false)
  | (e, ln) :: rest =>
      '(a', ret) <- cb hdr ft e ln a ;;
      if negb (ret =? 0) then Ok (a', true) else iter_cb cb hdr ft rest a'
  end.

(** How a walk with [cb] from the state [a] relates to the iteration of
    [cb] over the entries [l] that the recording walk lists from the same
    place: [unstopped] builds the result of a walk that the callback did
    not stop, from the final callback state, and [stopped] the result of
    one that it stopped, from the walk context and the callback state at
    that point. *)
Definition follows_listing {A X : Type} (cb : fat_dentry_cb A)
    (hdr : fat_header) (ft : fat_type)
    (walk : outcome (fat_walk_dir_ctx * A * X))
    (l : list (Z * option (list Z))) (a : A)
    (unstopped : A -> outcome (fat_walk_dir_ctx * A * X))
    (stopped : fat_walk_dir_ctx -> A -> fat_walk_dir_ctx * A * X) : Prop :=
  match iter_cb cb hdr ft l a with
  | Ok (a', false) => walk = unstopped a'
  | Ok (a', true) => exists ctx'', walk = Ok (stopped ctx'' a')
  | Fault f => walk = Fault f
  end.

(** The number of entries [fat_walk_directory] examines per cluster. *)
Definition entries_per_cluster (hdr : fat_header) : Z :=
  u32 (u32 (BPB_BytsPerSec hdr) * BPB_SecPerClus hdr) / sizeof_fat_entry.

(** The listing of the sample volume's root directory. *)
Definition sample_root_listing : list (Z * option (list Z)) :=
  match fat_walk_directory record_cb 1 empty_walk_ctx sample_hdr fat16_type
          (Some 16896) 0 [] with
  | Ok (_, log, _) => log
  | Fault _ => []
  end.

(** An entry of a listing whose name is the component [comp]: its long
    name when it has one, its short name, whatever the case, when not. *)
Definition name_matches (hdr : fat_header) (comp : list Z)
    (x : Z * option (list Z)) : bool :=
  match snd x with
  | Some ln => strcmp ln comp =? 0
  | None => stricmp (c_str (fat_get_short_name hdr (fst x))) comp =? 0
  end.

(** The search context while the entries of one directory are compared
    with the last component [comp] of the path. *)
Definition searching (comp : list Z) (c : fat_search_ctx) : Prop :=
  pcl c <> 0 /\ c_str (pc c) = comp /\ path c = [] /\
  single_comp c = false /\ result c = None /\ subdir_cluster c = 0 /\
  not_dir c = false.

(** The search while a directory is walked: it has neither found its
    entry nor given up, and no sub-directory is pending. *)
Definition search_pending (c : fat_search_ctx) : Prop :=
  result c = None /\ not_dir c = false /\ subdir_cluster c = 0.

(** A search whose callback has asked the walker to stop: it goes on in
    a sub-directory only while nothing is decided, and [not_dir] is
    never set together with a result. *)
Definition search_settled (c : fat_search_ctx) : Prop :=
  (subdir_cluster c <> 0 -> result c = None /\ not_dir c = false) /\
  (not_dir c = true -> result c = None).

(** A slot the walker hands to its callback. *)
Definition live_entry (hdr : fat_header) (e : Z) : bool :=
  negb (is_long_name_entry hdr e) && negb (volume_id hdr e) &&
  negb (DIR_Name0 hdr e =? FAT_ENTRY_DIRNAME_NO_MORE_ENTRIES) &&
  negb (DIR_Name0 hdr e =? FAT_ENTRY_DIRNAME_EMPTY_DIR).

(** ** Short names in their 8.3 form *)

(** A name part padded with spaces to [n] bytes, and the 11 bytes of
    [DIR_Name] for a base name and an extension. *)
Definition pad_spaces (n : nat) (part : list Z) : list Z :=
  part ++ repeat 32 (n - length part).

Definition name83 (base ext : list Z) : list Z :=
  pad_spaces 8 base ++ pad_spaces 3 ext.

(** The case conversion [fat_get_short_name] applies to a part whose
    lower-case flag is [flag]. *)
Definition part_case (hdr : fat_header) (entry flag : Z) (c : Z) : Z :=
  if negb (Z.land (DIR_NTRes hdr entry) flag =? 0) then u8 (tolower c) else c.

(** The bytes the whitelist accepts. *)
Definition whitelisted (b : Z) : bool :=
  (35 <=? b) && (b <=? 126) &&
  negb (existsb (Z.eqb b) [42; 47; 58; 60; 62; 63; 92; 124]).

(** ** The chunks of a directory *)

(** The chunk the [while] loop of the walker scans: the data of
    [cluster] unless [cluster] is 0, [entry] otherwise. *)
Definition chunk_pointer (hdr : fat_header) (entry : option Z) (cluster : Z)
    : outcome (option Z) :=
  if negb (cluster =? 0) then
    p <- fat_get_pointer_to_cluster_data hdr cluster ;; Ok (Some p)
  else Ok entry.

(** A walk that starts with [entry] and [cluster] and is not ended by a
    slot or by the callback scans the chunks at [chunks], each followed in
    the FAT by the next, and then the chunk at [last], which belongs to
    the cluster [lastc]. *)
Fixpoint chain_chunks (hdr : fat_header) (ft : fat_type) (entry : option Z)
    (cluster : Z) (chunks : list Z) (last lastc : Z) : Prop :=
  match chunks with
  | [] => chunk_pointer hdr entry cluster = Ok (Some last) /\ lastc = cluster
  | q :: rest =>
      chunk_pointer hdr entry cluster = Ok (Some q) /\ cluster <> 0 /\
      exists val,
        fat_read_fat_entry hdr ft cluster 0 = Ok val /\
        fat_is_end_of_clusterchain ft val = false /\
        fat_is_bad_cluster ft val = false /\
        chain_chunks hdr ft (Some q) val rest last lastc
  end.

(** The slots of the chunks [chunks] scanned in full, one chunk after the
    other unless a slot or the callback ends the walk, and then the first
    [n] slots of the chunk at [last]; the value returned is 0. *)
Fixpoint walk_chunks_until {A : Type} (cb : fat_dentry_cb A)
    (entries_per_cluster : Z) (hdr : fat_header) (ft : fat_type)
    (chunks : list Z) (last : Z) (n : nat) (ctx : fat_walk_dir_ctx) (arg : A)
    : outcome (fat_walk_dir_ctx * A * Z) :=
  match chunks with
  | [] =>
      '(ctx', arg', _) <- walk_slots cb n hdr ft last 0 ctx arg ;;
      Ok (ctx', arg', 0)
  | q :: rest =>
      '(ctx', arg', ex) <-
        walk_slots cb (Z.to_nat entries_per_cluster) hdr ft q 0 ctx arg ;;
      match ex with
      | Returned _ => Ok (ctx', arg', 0)
      | Exhausted =>
          walk_chunks_until cb entries_per_cluster hdr ft rest last n ctx'
                            arg'
      end
  end.

(** A slot at which the loop over the slots returns without a call of the
    callback: neither a long-name slot nor a volume label, and its first
    name byte is 0x00 or 0xE5. *)
Definition free_slot (hdr : fat_header) (e : Z) : Prop :=
  is_long_name_entry hdr e = false /\ volume_id hdr e = false /\
  (DIR_Name0 hdr e = 0x00 \/ DIR_Name0 hdr e = 0xE5).

(** The context [fat_walk_directory] starts its loops with. *)
Definition walk_start (ctx : fat_walk_dir_ctx) : fat_walk_dir_ctx :=
  mk_walk_ctx (bzero (lname_buf ctx) (Z.to_nat sizeof_lname_buf)) 0 (-1)
              (is_valid ctx).

(** A third volume with the geometry of the sample volume: the directory
    in cluster 2 is full (16 live slots) and goes on in cluster 3, which
    holds X.TXT, a deleted slot and Y.TXT. *)
Definition chain_image : Z -> Z :=
  place 512 (flat_map le16 [0xFFF8; 0xFFFF; 3; 0xFFFF])
  (place 17408 full_dir
  (place 17920 sample_dir_D
  (fun _ => 0))).

Definition chain_hdr : fat_header :=
  mk_fat_header 512 1 1 1 16 8000 32 0 0 0 chain_image.

(** ** Path resolution, component by component *)

(** A callback that stops the walk at the first entry whose name is
    [comp] and keeps that entry. *)
Definition match_cb (comp : list Z) : fat_dentry_cb (option Z) :=
  fun hdr _ entry long_name found =>
    if name_matches hdr comp (entry, long_name) then Ok (Some entry, -1)
    else Ok (found, 0).

(** What a path resolves to: in the directory given by [entry] and
    [cluster], the first entry the walker delivers whose name is the
    first component; for the last component that entry is the result,
    for another component it must be a directory, and the resolution
    goes on in the cluster chain that starts at its first cluster. *)
Fixpoint fat_resolve (fuel : nat) (hdr : fat_header) (ft : fat_type)
    (wctx : fat_walk_dir_ctx) (entry : option Z) (cluster : Z)
    (comps : list (list Z)) : outcome (option Z) :=
  match comps with
  | [] => Ok None
  | comp :: rest =>
      '(wctx', found, _) <-
        fat_walk_directory (match_cb comp) fuel wctx hdr ft entry cluster
                           None ;;
      match found, rest with
      | None, _ => Ok None
      | Some e, [] => Ok (Some e)
      | Some e, _ :: _ =>
          if directory hdr e then
            if fat_get_first_cluster hdr e =? 0 then Ok None
            else fat_resolve fuel hdr ft wctx' None
                             (fat_get_first_cluster hdr e) rest
          else Ok None
      end
  end.

(** The components joined with '/'. *)
Fixpoint join_path (comps : list (list Z)) : list Z :=
  match comps with
  | [] => []
  | comp :: rest =>
      match rest with
      | [] => comp
      | _ :: _ => comp ++ 47 :: join_path rest
      end
  end.

(** What follows the first component in the joined path. *)
Definition rest_path (rest : list (list Z)) : list Z :=
  match rest with
  | [] => []
  | _ :: _ => 47 :: join_path rest
  end.

(** A path component: no NUL, no '/', and short enough for the [pc]
    buffer of the search context with its NUL. *)
Definition good_component (comp : list Z) : Prop :=
  ~ In 0 comp /\ ~ In 47 comp /\ Z.of_nat (length comp) < sizeof_pc.

(** The search and the resolution while a directory is walked for the
    component [comp], followed in the path by [rest]: nothing is found
    yet, and the search has the component still in its path or already
    in [pc]. *)
Definition looking_for (comp : list Z) (rest : list (list Z))
    (c : fat_search_ctx) (m : option Z) : Prop :=
  m = None /\ single_comp c = false /\ result c = None /\
  subdir_cluster c = 0 /\ not_dir c = false /\
  ((pcl c = 0 /\ path c = comp ++ rest_path rest) \/
   (pcl c <> 0 /\ c_str (pc c) = comp /\ path c = rest_path rest)).

(** The search and the resolution once an entry [e] with the name of the
    component was met. *)
Definition stopped_at (hdr : fat_header) (rest : list (list Z))
    (c : fat_search_ctx) (m : option Z) : Prop :=
  exists e,
    m = Some e /\ single_comp c = false /\
    match rest with
    | [] => result c = Some e /\ not_dir c = false /\ subdir_cluster c = 0
    | _ :: _ =>
        result c = None /\ not_dir c = false /\
        if directory hdr e then
          pcl c = 0 /\ path c = join_path rest /\
          subdir_cluster c = fat_get_first_cluster hdr e
        else subdir_cluster c = 0
    end.

(** Two runs with states of different types end the same way, with
    results related by [P]. *)
Definition outcome_sim {X Y : Type} (P : X -> Y -> Prop)
    (o1 : outcome X) (o2 : outcome Y) : Prop :=
  match o1, o2 with
  | Ok a, Ok b => P a b
  | Fault f, Fault g => f = g
  | _, _ => False
  end.

(** Two walks with different callbacks that went through the same
    slots. *)
Definition slots_sim {A B : Type} (R S : A -> B -> Prop)
    (x1 : fat_walk_dir_ctx * A * slots_exit)
    (x2 : fat_walk_dir_ctx * B * slots_exit) : Prop :=
  fst (fst x1) = fst (fst x2) /\ snd x1 = snd x2 /\
  match snd x1 with
  | Exhausted => R (snd (fst x1)) (snd (fst x2))
  | Returned _ =>
      R (snd (fst x1)) (snd (fst x2)) \/ S (snd (fst x1)) (snd (fst x2))
  end.

Definition walk_sim {A B : Type} (R S : A -> B -> Prop)
    (x1 : fat_walk_dir_ctx * A * Z) (x2 : fat_walk_dir_ctx * B * Z) : Prop :=
  fst (fst x1) = fst (fst x2) /\ snd x1 = snd x2 /\
  (R (snd (fst x1)) (snd (fst x2)) \/ S (snd (fst x1)) (snd (fst x2))).

(** ** The long names of a directory, slot by slot *)

(** The slots of a chunk from slot [i] on, and the slots of the chunks of
    a directory, in the order the walker scans them. *)
Definition slots_from (p i : Z) (n : nat) : list Z :=
  map (fun j => p + sizeof_fat_entry * (i + Z.of_nat j)) (seq 0 n).

Definition dir_slots (entries_per_cluster : Z) (chunks : list Z) : list Z :=
  flat_map (fun p => slots_from p 0 (Z.to_nat entries_per_cluster)) chunks.

(** The reassembler without its buffer: the long-name slots accumulated
    since it last restarted, in the order met, their checksum, and
    whether the accumulated name is still valid. *)
Record lname_run : Type := mk_lname_run {
  run_slots : list Z;
  run_chksum : Z;
  run_valid : bool
}.

(** A slot whose units read have a zero high byte and whose characters
    are in the whitelist. *)
Definition slot_good (hdr : fat_header) (le : Z) : bool :=
  match slot_chars hdr le with
  | Some cs => forallb fat32_is_valid_filename_character cs
  | None => false
  end.

(** The run a long-name slot is added to: a new one when the slot's
    checksum differs from the accumulated one. *)
Definition run_restart (hdr : fat_header) (st : lname_run) (le : Z)
    : lname_run :=
  if negb (run_chksum st =? LDIR_Chksum hdr le)
  then mk_lname_run [] (LDIR_Chksum hdr le) true
  else st.

Definition run_add (hdr : fat_header) (st : lname_run) (le : Z) : lname_run :=
  let st := run_restart hdr st le in
  if negb (run_valid st) then st
  else if slot_good hdr le
       then mk_lname_run (run_slots st ++ [le]) (run_chksum st) true
       else mk_lname_run (run_slots st) (run_chksum st) false.

(** After an entry was delivered. *)
Definition run_reset (st : lname_run) : lname_run :=
  mk_lname_run [] (-1) (run_valid st).

(** What one slot does to the run. *)
Definition run_step (hdr : fat_header) (st : lname_run) (s : Z) : lname_run :=
  if is_long_name_entry hdr s then run_add hdr st s
  else if volume_id hdr s then st
  else run_reset st.

(** The long name the entry [e] is delivered with. *)
Definition run_long_name (hdr : fat_header) (st : lname_run) (e : Z)
    : option (list Z) :=
  if run_valid st
     && negb (Nat.eqb (length (run_name hdr (run_slots st))) 0)
     && (run_chksum st =? shortname_checksum (DIR_Name hdr e))
  then Some (run_name hdr (run_slots st))
  else None.

Definition free_slotb (hdr : fat_header) (s : Z) : bool :=
  negb (is_long_name_entry hdr s) && negb (volume_id hdr s) &&
  ((DIR_Name0 hdr s =? 0x00) || (DIR_Name0 hdr s =? 0xE5)).

(** The entries of the slots and their long names, up to the first free
    slot. *)
Fixpoint slots_listing (hdr : fat_header) (slots : list Z) (st : lname_run)
    : list (Z * option (list Z)) :=
  match slots with
  | [] => []
  | s :: rest =>
      if free_slotb hdr s then []
      else if is_long_name_entry hdr s || volume_id hdr s
           then slots_listing hdr rest (run_step hdr st s)
           else (s, run_long_name hdr st s)
                :: slots_listing hdr rest (run_step hdr st s)
  end.

(** The slot can be added to the run without the name growing beyond
    255 characters, which with its NUL fill the 256 bytes of
    [lname_buf]. *)
Definition slot_fits (hdr : fat_header) (st : lname_run) (le : Z) : bool :=
  let st := run_restart hdr st le in
  if run_valid st then
    match slot_chars hdr le with
    | Some cs =>
        Nat.leb (length (run_name hdr (run_slots st)) + length cs) 255
    | None => true
    end
  else true.

(** Every long-name slot before the first free slot can be added. *)
Fixpoint names_fit (hdr : fat_header) (slots : list Z) (st : lname_run)
    : bool :=
  match slots with
  | [] => true
  | s :: rest =>
      if free_slotb hdr s then true
      else (if is_long_name_entry hdr s then slot_fits hdr st s else true)
           && names_fit hdr rest (run_step hdr st s)
  end.

(** The cluster chain ends with the cluster [lastc]. *)
Definition chain_ends (hdr : fat_header) (ft : fat_type) (lastc : Z) : Prop :=
  lastc = 0 \/
  exists val,
    fat_read_fat_entry hdr ft lastc 0 = Ok val /\
    fat_is_end_of_clusterchain ft val = true.

(** The walk context holds the run [st]. *)
Definition holds_lname (hdr : fat_header) (ctx : fat_walk_dir_ctx)
    (st : lname_run) : Prop :=
  lname_chksum ctx = run_chksum st /\ is_valid ctx = run_valid st /\
  (run_valid st = true ->
   holds_run hdr ctx (run_slots st) /\
   (length (run_name hdr (run_slots st)) <= 255)%nat).

(** The slots of a run that is marked valid are good slots with the
    run's checksum. *)
Definition run_inv (hdr : fat_header) (st : lname_run) : Prop :=
  run_valid st = true -> Forall (slot_ok hdr (run_chksum st)) (run_slots st).

(** A volume with the geometry of the sample volume whose directory in
    the clusters 2 and 3 holds one file with a long name of 20 slots: the
    first slot met carries the characters [cs], the other 19 slots carry
    13 characters each. *)
Definition lname_slots (cs : list Z) : list Z :=
  long_slot 0x54 cs (shortname_checksum name_LONGFI) ++
  flat_map (fun _ => long_slot 0x01 (repeat 97 13)
                       (shortname_checksum name_LONGFI)) (seq 0 19) ++
  short_slot name_LONGFI 0x20 0 4 5 ++
  end_slot.

Definition lname_hdr (cs : list Z) : fat_header :=
  mk_fat_header 512 1 1 1 16 8000 32 0 0 0
    (place 512 (flat_map le16 [0xFFF8; 0xFFFF; 3; 0xFFFF])
       (place 17408 (lname_slots cs) (fun _ => 0))).

(** * The kernel command line (kernel/main.c) *)

(** How a run of the boot code ends: it goes on, it calls [panic], which
    does not return, or it stores past the end of a local buffer. The
    output of [printk] is not modelled. *)
Inductive boot (A : Type) : Type :=
| Run (a : A)
| Panic
| Overrun.

Arguments Run {A} a.
Arguments Panic {A}.
Arguments Overrun {A}.

Definition boot_bind {A B : Type} (m : boot A) (k : A -> boot B) : boot B :=
  match m with
  | Run a => k a
  | Panic => Panic
  | Overrun => Overrun
  end.

Notation "x <~ m ;; k" := (boot_bind m (fun x => k))
  (at level 61, m at next level, right associativity).

(** [buf[i] = v] for a [char buf[cap]]. *)
Definition store (cap : Z) (buf : list Z) (i v : Z) : boot (list Z) :=
  match arr_set cap buf i v with
  | Ok buf' => Run buf'
  | Fault _ => Overrun
  end.

(** [memcpy(dest + off, src, n)] with [src] the [n] bytes copied and
    [dest] an array of [cap] bytes. *)
Definition memcpy (cap : Z) (dest : list Z) (off : Z) (src : list Z)
    : boot (list Z) :=
  if off + Z.of_nat (length src) <=? cap then Run (memmove dest off src)
  else Overrun.

(** The two variables the command line sets. *)
Record kernel_args : Type := mk_kernel_args {
  no_init : bool;
  self_test_to_run : Z    (* a function pointer, 0 when NULL *)
}.

(** "-noinit" and "selftest_". *)
Definition str_noinit : list Z := [45; 110; 111; 105; 110; 105; 116].
Definition str_selftest : list Z :=
  [115; 101; 108; 102; 116; 101; 115; 116; 95].

Definition sizeof_buf : Z := 256.

Section KernelArg.

(** The symbol table lookup of the kernel's ELF image. *)
Variable find_addr_of_symbol : list Z -> Z.

(** [arg] is the C string the pointer [arg] points to. *)
Definition use_kernel_arg (arg_num : Z) (arg : list Z) (st : kernel_args)
    : boot kernel_args :=
  let arg_len := Z.of_nat (length arg) in
  if strcmp arg str_noinit =? 0 then
    Run (mk_kernel_args true (self_test_to_run st))
  else if (3 <=? arg_len) &&
          ((nth 0 arg 0 =? 45) && (nth 1 arg 0 =? 115) &&
           (nth 2 arg 0 =? 61)) then
    let a2 := skipn 3 arg in
    let buf := str_selftest in
    buf <~ memcpy sizeof_buf buf (Z.of_nat (length (c_str buf)))
             (a2 ++ [0]) ;;
    let addr := find_addr_of_symbol (c_str buf) in
    if addr =? 0 then Panic
    else Run (mk_kernel_args (no_init st) addr)
  else Run st.

End KernelArg.

Section CmdLine.

Variable State : Type.
Variable use_arg : Z -> list Z -> State -> boot State.

(** The [while] loop over the characters: [ptr] is the command line
    from the cursor on, [dptr] the offset [dptr - buf]. A command line has far fewer
    than 2^31 words, so [args_count] is not wrapped. *)
Fixpoint parse_loop (ptr buf : list Z) (dptr args_count : Z) (st : State)
    : boot (list Z * Z * Z * State) :=
  match ptr with
  | [] => Run (buf, dptr, args_count, st)
  | c :: rest =>
      if c =? 0 then Run (buf, dptr, args_count, st)
      else if (c =? 32) || (sizeof_buf - 1 <=? dptr) then
        buf' <~ store sizeof_buf buf dptr 0 ;;
        st' <~ use_arg args_count (c_str buf') st ;;
        parse_loop rest buf' 0 (args_count + 1) st'
      else
        buf' <~ store sizeof_buf buf dptr c ;;
        parse_loop rest buf' (dptr + 1) args_count st
  end.

(** The [if (dptr != buf)] after the loop. *)
Definition parse_finish (x : list Z * Z * Z * State) : boot State :=
  let '(buf, dptr, args_count, st) := x in
  if negb (dptr =? 0) then
    buf' <~ store sizeof_buf buf dptr 0 ;;
    use_arg args_count (c_str buf') st
  else Run st.

(** [buf] is the content the uninitialised local array happens to
    have. *)
Definition parse_kernel_cmdline (cmdline buf : list Z) (st : State) : boot State :=
  x <~ parse_loop cmdline buf 0 0 st ;; parse_finish x.

(** [use_kernel_arg] called on the words [ws], numbered from [n]. *)
Fixpoint use_args (n : Z) (ws : list (list Z)) (st : State) : boot State :=
  match ws with
  | [] => Run st
  | w :: ws' => st' <~ use_arg n w st ;; use_args (n + 1) ws' st'
  end.

End CmdLine.

Arguments parse_loop {State} use_arg ptr buf dptr args_count st.
Arguments parse_finish {State} use_arg x.
Arguments parse_kernel_cmdline {State} use_arg cmdline buf st.
Arguments use_args {State} use_arg n ws st.

(** The words of a command line: the pieces between its spaces, a last
    empty piece left out; [cur] is the piece begun so far. *)
Fixpoint split_words (cur ptr : list Z) : list (list Z) :=
  match ptr with
  | [] => match cur with [] => [] | _ => [cur] end
  | c :: rest =>
      if c =? 32 then cur :: split_words [] rest
      else split_words (cur ++ [c]) rest
  end.

Definition cmdline_words (cmdline : list Z) : list (list Z) :=
  split_words [] cmdline.

(** A stand-in for [use_kernel_arg] that records its calls. *)
Definition record_arg : Z -> list Z -> list (Z * list Z)
                        -> boot (list (Z * list Z)) :=
  fun arg_num arg calls => Run (calls ++ [(arg_num, arg)]).

(** The numbers [n], [n + 1], ... of [k] consecutive calls. *)
Definition numbers_from (n : Z) (k : nat) : list Z :=
  map (fun i => n + Z.of_nat i) (seq 0 k).

(** The name after "-s=" when the word is a self-test argument. *)
Definition selftest_name (w : list Z) : option (list Z) :=
  match w with
  | a :: b :: c :: name =>
      if (a =? 45) && (b =? 115) && (c =? 61) then Some name else None
  | _ => None
  end.

(** [self_test_to_run] after the word [w], looking the test up with
    [find]. *)
Definition selftest_pick (find : list Z -> Z) (addr : Z) (w : list Z) : Z :=
  match selftest_name w with
  | Some name => find (str_selftest ++ name)
  | None => addr
  end.

(** * File handles (kernel/fs/fs_syscalls.c) *)

Definition s32 (x : Z) : Z := (x + 2147483648) mod 4294967296 - 2147483648.

(** The [for] loop of [get_free_handle_num] over the rest of
    [task->pi->handles]: a handle is a pointer, 0 when NULL; [free_fd]
    is a [u32] and is returned as an [int]. *)
Fixpoint free_handle_loop (handles : list Z) (free_fd : Z) : Z :=
  match handles with
  | [] => -1
  | h :: rest =>
      if h =? 0 then s32 free_fd
      else free_handle_loop rest (u32 (free_fd + 1))
  end.

Definition get_free_handle_num (handles : list Z) : Z :=
  free_handle_loop handles 0.

(** * Properties *)

(** ** Arithmetic of the fixed-width types *)

Lemma u8_range : forall x, 0 <= u8 x < 256.
Proof. intro x. unfold u8. apply Z.mod_pos_bound. lia. Qed.

Lemma u32_range : forall x, 0 <= u32 x < 4294967296.
Proof. intro x. unfold u32. apply Z.mod_pos_bound. lia. Qed.

Lemma u32_small : forall x, 0 <= x < 4294967296 -> u32 x = x.
Proof. intros x H. unfold u32. apply Z.mod_small. exact H. Qed.

Lemma s16_small : forall x, -32768 <= x < 32768 -> s16 x = x.
Proof. intros x H. unfold s16. rewrite Z.mod_small; lia. Qed.

Lemma load8_range : forall hdr a, 0 <= load8 hdr a < 256.
Proof. intros. apply u8_range. Qed.

Lemma load16_range : forall hdr a, 0 <= load16 hdr a < 65536.
Proof.
  intros hdr a. unfold load16.
  pose proof (load8_range hdr a). pose proof (load8_range hdr (a + 1)). lia.
Qed.

Lemma load32_range : forall hdr a, 0 <= load32 hdr a < 4294967296.
Proof.
  intros hdr a. unfold load32.
  pose proof (load16_range hdr a). pose proof (load16_range hdr (a + 2)). lia.
Qed.

(** ** C7: the short-name checksum *)

Lemma below_256_cases :
  forall (f : Z -> bool),
    forallb f (map Z.of_nat (seq 0 256)) = true ->
    forall s, 0 <= s < 256 -> f s = true.
Proof.
  intros f Hall s Hs.
  rewrite forallb_forall in Hall. apply Hall.
  apply in_map_iff. exists (Z.to_nat s). split.
  - lia.
  - apply in_seq. lia.
Qed.

(** On a byte, the expression of the source is the rotation of the spec. *)
Lemma rotate_right_u8_source :
  forall s, 0 <= s < 256 ->
    (if negb (Z.land s 1 =? 0) then 0x80 else 0) + Z.shiftr s 1
    = rotate_right_u8 s.
Proof.
  intros s Hs.
  apply Z.eqb_eq.
  apply (below_256_cases
           (fun s => (if negb (Z.land s 1 =? 0) then 0x80 else 0)
                       + Z.shiftr s 1 =? rotate_right_u8 s)).
  - vm_compute. reflexivity.
  - exact Hs.
Qed.

Lemma checksum_step_range : forall s b, 0 <= checksum_step s b < 256.
Proof. intros. unfold checksum_step. apply u8_range. Qed.

Lemma shortname_checksum_loop_fold :
  forall n name sum,
    0 <= sum < 256 -> length name = n ->
    shortname_checksum_loop n name sum = fold_left checksum_step name sum.
Proof.
  induction n as [|n IH]; intros name sum Hs Hlen.
  - destruct name; [reflexivity | discriminate].
  - destruct name as [|b name]; [discriminate|].
    simpl. injection Hlen as Hlen.
    rewrite <- Z.add_assoc, Z.add_assoc.
    rewrite (rotate_right_u8_source sum Hs).
    fold (checksum_step sum b).
    apply IH; [apply checksum_step_range | exact Hlen].
Qed.

(** C7. Over an 11-byte 8.3 name, [shortname_checksum] is the fold that
    starts from 0 and at each byte replaces the sum by the 8-bit right
    rotation of the sum plus the byte, truncated to 8 bits. *)
Theorem shortname_checksum_is_rotate_add_fold :
  forall name,
    length name = 11%nat ->
    shortname_checksum name = fold_left checksum_step name 0
    /\ shortname_checksum name = short_name_checksum_spec name
    /\ 0 <= shortname_checksum name < 256.
Proof.
  intros name Hlen.
  assert (E : shortname_checksum name = fold_left checksum_step name 0).
  { unfold shortname_checksum. apply shortname_checksum_loop_fold; [lia | exact Hlen]. }
  split; [exact E|]. split; [exact E|].
  rewrite E.
  assert (G : forall l s, 0 <= s < 256 -> 0 <= fold_left checksum_step l s < 256).
  { induction l as [|b l IH]; intros s Hs; simpl; [exact Hs|].
    apply IH. apply checksum_step_range. }
  apply G. lia.
Qed.

Lemma shortname_checksum_is_rotate_add_fold_witness :
  length name_LONGFI = 11%nat
  /\ shortname_checksum name_LONGFI = fold_left checksum_step name_LONGFI 0.
Proof.
  split; [reflexivity|].
  exact (proj1 (shortname_checksum_is_rotate_add_fold name_LONGFI eq_refl)).
Defined.

(** ** C4: the FAT type follows from the cluster count alone *)

Lemma fat_get_type_classify :
  forall hdr, fat_get_type hdr = (n <- fat_CountofClusters hdr ;; Ok (classify n)).
Proof.
  intro hdr. unfold fat_get_type, classify.
  destruct (fat_CountofClusters hdr) as [n|f]; simpl; [|reflexivity].
  destruct (n <? 4085); [reflexivity|]. destruct (n <? 65525); reflexivity.
Qed.

Lemma fat_CountofClusters_total :
  forall hdr,
    BPB_BytsPerSec hdr <> 0 -> BPB_SecPerClus hdr <> 0 ->
    exists n, fat_CountofClusters hdr = Ok n.
Proof.
  intros hdr Hb Hs. unfold fat_CountofClusters, fat_get_RootDirSectors, udiv.
  apply Z.eqb_neq in Hb. apply Z.eqb_neq in Hs.
  rewrite Hb. simpl. rewrite Hs. eexists. reflexivity.
Qed.

(** C4. On a header whose sector and cluster sizes are not zero,
    [fat_get_type] returns a type (never [fat_unknown], never a failure),
    and that type is fat12 exactly when the computed cluster count is
    below 4085, fat16 exactly when it is in [4085, 65525) and fat32
    exactly when it is at least 65525; any other header with the same
    cluster count gets the same type. *)
Theorem fat_get_type_by_cluster_count :
  forall hdr,
    BPB_BytsPerSec hdr <> 0 -> BPB_SecPerClus hdr <> 0 ->
    exists n t,
      fat_CountofClusters hdr = Ok n /\ fat_get_type hdr = Ok t /\
      (t = fat12_type <-> n < 4085) /\
      (t = fat16_type <-> 4085 <= n < 65525) /\
      (t = fat32_type <-> 65525 <= n) /\
      t <> fat_unknown /\
      (forall hdr', fat_CountofClusters hdr' = Ok n -> fat_get_type hdr' = Ok t).
Proof.
  intros hdr Hb Hs.
  destruct (fat_CountofClusters_total hdr Hb Hs) as [n Hn].
  exists n, (classify n).
  split; [exact Hn|].
  split; [rewrite fat_get_type_classify, Hn; reflexivity|].
  assert (Hsame : forall hdr',
             fat_CountofClusters hdr' = Ok n -> fat_get_type hdr' = Ok (classify n)).
  { intros hdr' H'. rewrite fat_get_type_classify, H'. reflexivity. }
  unfold classify in *.
  destruct (Z.ltb_spec n 4085) as [H1|H1];
    [|destruct (Z.ltb_spec n 65525) as [H2|H2]];
    (split; [split; intro; (reflexivity || discriminate || lia)|];
     split; [split; intro; (reflexivity || discriminate || lia)|];
     split; [split; intro; (reflexivity || discriminate || lia)|];
     split; [discriminate | exact Hsame]).
Qed.

Lemma fat_get_type_by_cluster_count_witness :
  exists n t,
    fat_CountofClusters sample_hdr = Ok n /\ fat_get_type sample_hdr = Ok t /\
    (t = fat12_type <-> n < 4085) /\
    (t = fat16_type <-> 4085 <= n < 65525) /\
    (t = fat32_type <-> 65525 <= n) /\
    t <> fat_unknown /\
    (forall hdr', fat_CountofClusters hdr' = Ok n -> fat_get_type hdr' = Ok t).
Proof.
  apply (fat_get_type_by_cluster_count sample_hdr); simpl; discriminate.
Defined.

(** ** C6: where the FAT-entry reader reads *)

Lemma land_28_bits : forall x, 0 <= Z.land x 0x0FFFFFFF < 268435456.
Proof.
  intro x. change 0x0FFFFFFF with (Z.ones 28).
  rewrite Z.land_ones by lia. apply Z.mod_pos_bound. reflexivity.
Qed.

Lemma fat_get_type_known :
  forall hdr t, fat_get_type hdr = Ok t -> fat_type_eqb t fat_unknown = false.
Proof.
  intros hdr t H. rewrite fat_get_type_classify in H.
  destruct (fat_CountofClusters hdr) as [n|]; [|discriminate].
  simpl in H. injection H as <-. unfold classify.
  destruct (n <? 4085); [reflexivity|]. destruct (n <? 65525); reflexivity.
Qed.

Lemma fat_read_fat_entry_unknown :
  forall hdr N f,
    fat_read_fat_entry hdr fat_unknown N f
    = (t <- fat_get_type hdr ;; fat_read_fat_entry hdr t N f).
Proof.
  intros hdr N f. unfold fat_read_fat_entry at 1. simpl.
  destruct (fat_get_type hdr) as [t|e] eqn:E; [|reflexivity].
  simpl. unfold fat_read_fat_entry.
  rewrite (fat_get_type_known hdr t E). reflexivity.
Qed.

Lemma fat_entry_address_no_wrap :
  forall bps FATSz rsvd f off,
    0 < bps -> 0 <= rsvd -> 0 <= FATSz -> 0 <= f -> 0 <= off ->
    (f * FATSz + rsvd + off / bps) * bps + off mod bps < 4294967296 ->
    u32 (u32 (u32 (f * FATSz) + rsvd + u32 off / bps) * bps) + u32 off mod bps
    = (f * FATSz + rsvd + off / bps) * bps + off mod bps
    /\ (f * FATSz + rsvd + off / bps) * bps + off mod bps
       = (f * FATSz + rsvd) * bps + off.
Proof.
  intros bps FATSz rsvd f off Hbps Hrsvd Hsz Hf Hoff Haddr.
  pose proof (Z.div_mod off bps ltac:(lia)) as Hdm.
  pose proof (Z.mod_pos_bound off bps Hbps) as Hmod.
  assert (Hq : 0 <= off / bps) by (apply Z.div_pos; lia).
  assert (HfF : 0 <= f * FATSz) by nia.
  set (sector := f * FATSz + rsvd + off / bps) in *.
  assert (Hsec : 0 <= sector) by (unfold sector; lia).
  assert (Hsecb : sector <= sector * bps) by nia.
  assert (Hoffle : off <= sector * bps + off mod bps) by (unfold sector; nia).
  split.
  - rewrite (u32_small off) by lia.
    rewrite (u32_small (f * FATSz)) by (unfold sector in *; lia).
    fold sector.
    rewrite (u32_small sector) by lia.
    rewrite (u32_small (sector * bps)) by lia.
    reflexivity.
  - unfold sector. nia.
Qed.

(** C6. For a FAT16 or FAT32 volume, a cluster [N >= 2] and a FAT index
    [f < BPB_NumFATs], the reader looks at byte offset [N * w] (w = 2 or 4)
    of FAT [f], in the sector [f * FATSz + reserved + offset / BytsPerSec]:
    it returns the 16-bit entry there zero-extended, or the 32-bit entry
    there masked with 0x0FFFFFFF (the address is taken to fit the 32-bit
    address space). A fat12 type ends in NOT_REACHED, and an unknown type
    is classified first. *)
Theorem fat_read_fat_entry_locates_entry :
  forall hdr ft N f,
    ft = fat16_type \/ ft = fat32_type ->
    0 < BPB_BytsPerSec hdr -> 0 <= BPB_RsvdSecCnt hdr ->
    0 <= fat_get_FATSz hdr ->
    2 <= N -> 0 <= f < BPB_NumFATs hdr ->
    let off := N * fat_entry_width ft in
    let sector :=
      f * fat_get_FATSz hdr + BPB_RsvdSecCnt hdr + off / BPB_BytsPerSec hdr in
    let addr := sector * BPB_BytsPerSec hdr + off mod BPB_BytsPerSec hdr in
    addr < 4294967296 ->
    addr = fat_start hdr f + N * fat_entry_width ft
    /\ (ft = fat16_type ->
        fat_read_fat_entry hdr ft N f = Ok (load16 hdr addr)
        /\ 0 <= load16 hdr addr < 65536)
    /\ (ft = fat32_type ->
        fat_read_fat_entry hdr ft N f = Ok (Z.land (load32 hdr addr) 0x0FFFFFFF)
        /\ 0 <= Z.land (load32 hdr addr) 0x0FFFFFFF < 268435456)
    /\ fat_read_fat_entry hdr fat12_type N f = Fault NotReached
    /\ fat_read_fat_entry hdr fat_unknown N f
       = (t <- fat_get_type hdr ;; fat_read_fat_entry hdr t N f).
Proof.
  intros hdr ft N f Hft Hbps Hrsvd Hsz HN Hf off sector addr Haddr.
  assert (Hw : 2 <= fat_entry_width ft <= 4)
    by (destruct Hft; subst ft; cbv; split; discriminate).
  assert (Hoff : 0 <= off) by (unfold off; nia).
  destruct (fat_entry_address_no_wrap (BPB_BytsPerSec hdr) (fat_get_FATSz hdr)
              (BPB_RsvdSecCnt hdr) f off Hbps Hrsvd Hsz (proj1 Hf) Hoff Haddr)
    as [Hcode Hplace].
  fold sector in Hcode, Hplace. fold addr in Hcode, Hplace.
  assert (HfN : (f <? BPB_NumFATs hdr) = true) by (apply Z.ltb_lt; lia).
  assert (Hb0 : (BPB_BytsPerSec hdr =? 0) = false) by (apply Z.eqb_neq; lia).
  split; [exact Hplace|].
  split; [|split; [|split]].
  - intro E. subst ft. split; [|apply load16_range].
    unfold fat_read_fat_entry, udiv, umod. simpl.
    rewrite HfN, Hb0. simpl.
    unfold off, fat_entry_width in Hcode. simpl in Hcode.
    rewrite Hcode. reflexivity.
  - intro E. subst ft. split; [|apply land_28_bits].
    unfold fat_read_fat_entry, udiv, umod. simpl.
    rewrite HfN, Hb0. simpl.
    unfold off, fat_entry_width in Hcode. simpl in Hcode.
    rewrite Hcode. reflexivity.
  - reflexivity.
  - apply fat_read_fat_entry_unknown.
Qed.

Lemma fat_read_fat_entry_locates_entry_witness :
  fat_read_fat_entry sample_hdr fat16_type 5 0 = Ok (load16 sample_hdr 522)
  /\ load16 sample_hdr 522 = 6.
Proof.
  split; [|reflexivity].
  refine (proj1 (proj1 (proj2
    (fat_read_fat_entry_locates_entry sample_hdr fat16_type 5 0
       (or_introl eq_refl) _ _ _ _ _ _)) eq_refl)); vm_compute;
    try reflexivity; try discriminate; split; (reflexivity || discriminate).
Defined.

(** ** Arrays and C strings *)

Lemma nth_upd_same : forall n l v, nth n (upd l n v) 0 = v.
Proof.
  induction n as [|n IH]; intros l v; destruct l; simpl; auto.
Qed.

Lemma nth_upd_other : forall n m l v, m <> n -> nth m (upd l n v) 0 = nth m l 0.
Proof.
  induction n as [|n IH]; intros m l v Hmn.
  - destruct m; [contradiction|]. destruct l; simpl; [destruct m|]; reflexivity.
  - destruct m; destruct l; simpl; try reflexivity.
    + rewrite IH by congruence. destruct m; reflexivity.
    + apply IH. congruence.
Qed.

Lemma arr_prefix_S :
  forall l n, arr_prefix l (S n) = arr_prefix l n ++ [nth n l 0].
Proof.
  intros l n. unfold arr_prefix. rewrite seq_S, map_app. reflexivity.
Qed.

Lemma arr_prefix_ext :
  forall l l' n,
    (forall i, (i < n)%nat -> nth i l 0 = nth i l' 0) ->
    arr_prefix l n = arr_prefix l' n.
Proof.
  intros l l' n H. unfold arr_prefix. apply map_ext_in.
  intros i Hi. apply in_seq in Hi. apply H. lia.
Qed.

Lemma arr_prefix_upd :
  forall l n k v, (n <= k)%nat -> arr_prefix (upd l k v) n = arr_prefix l n.
Proof.
  intros l n k v Hnk. apply arr_prefix_ext.
  intros i Hi. apply nth_upd_other. lia.
Qed.

Lemma arr_prefix_length : forall l n, length (arr_prefix l n) = n.
Proof. intros. unfold arr_prefix. rewrite length_map, length_seq. reflexivity. Qed.

Lemma arr_prefix_cons :
  forall x l n, arr_prefix (x :: l) (S n) = x :: arr_prefix l n.
Proof.
  intros x l n. unfold arr_prefix. simpl. f_equal.
  rewrite <- seq_shift, map_map. reflexivity.
Qed.

Lemma arr_prefix_nil : forall n, arr_prefix [] n = repeat 0 n.
Proof.
  intro n. unfold arr_prefix.
  generalize 0%nat as k. induction n as [|n IH]; intro k; simpl; [reflexivity|].
  rewrite IH. destruct k; reflexivity.
Qed.

(** A buffer whose first [n] cells are not NUL and whose cell [n] is NUL
    holds the C string made of those [n] cells. *)
Lemma c_str_prefix :
  forall n l,
    ~ In 0 (arr_prefix l n) -> nth n l 0 = 0 -> c_str l = arr_prefix l n.
Proof.
  induction n as [|n IH]; intros l Hnz Hnul.
  - destruct l as [|c t]; [reflexivity|]. simpl in *. subst c. reflexivity.
  - destruct l as [|c t].
    + exfalso. apply Hnz. rewrite arr_prefix_nil. left. reflexivity.
    + rewrite arr_prefix_cons in *. simpl.
      destruct (Z.eqb_spec c 0) as [->|Hc].
      * exfalso. apply Hnz. left. reflexivity.
      * f_equal. apply IH; [|exact Hnul].
        intro Hin. apply Hnz. right. exact Hin.
Qed.

Lemma c_str_no_nul : forall l, ~ In 0 (c_str l).
Proof.
  induction l as [|c t IH]; simpl; [tauto|].
  destruct (Z.eqb_spec c 0); simpl; [tauto|]. intros [H|H]; [lia | tauto].
Qed.

Lemma strcmp_eq :
  forall s1 s2, ~ In 0 s1 -> ~ In 0 s2 -> (strcmp s1 s2 = 0 <-> s1 = s2).
Proof.
  induction s1 as [|c1 t1 IH]; intros [|c2 t2] H1 H2; simpl in *.
  - tauto.
  - split; [intro; exfalso; apply H2; left; lia | discriminate].
  - split; [intro; exfalso; apply H1; left; lia | discriminate].
  - destruct (Z.eqb_spec c1 c2) as [->|Hne].
    + rewrite IH by tauto. split; [intros ->; reflexivity | intro E; injection E; auto].
    + split; [lia | intro E; injection E; intros; contradiction].
Qed.

Lemma tolower_nonzero : forall c, c <> 0 -> tolower c <> 0.
Proof.
  intros c Hc. unfold tolower.
  destruct ((65 <=? c) && (c <=? 90)) eqn:E; [|exact Hc].
  apply andb_true_iff in E. destruct E as [E _]. apply Z.leb_le in E. lia.
Qed.

Lemma map_tolower_no_nul : forall s, ~ In 0 s -> ~ In 0 (map tolower s).
Proof.
  intros s Hs Hin. apply in_map_iff in Hin. destruct Hin as [c [Hc Hin]].
  destruct (Z.eq_dec c 0) as [->|Hne]; [contradiction|].
  apply (tolower_nonzero c Hne). exact Hc.
Qed.

Lemma stricmp_eq :
  forall s1 s2,
    ~ In 0 s1 -> ~ In 0 s2 ->
    (stricmp s1 s2 = 0 <-> map tolower s1 = map tolower s2).
Proof.
  intros s1 s2 H1 H2. unfold stricmp.
  apply strcmp_eq; apply map_tolower_no_nul; assumption.
Qed.

(** ** The directory walker *)

Ltac bind_ok H :=
  match type of H with
  | bind ?m _ = Ok _ =>
      let E := fresh "E" in
      destruct m eqn:E; [cbn [bind] in H | discriminate H]
  end.

Section WalkerFacts.

Variable A : Type.
Variable cb : fat_dentry_cb A.

Lemma walk_slots_S :
  forall n hdr ft entry i ctx arg,
    walk_slots cb (S n) hdr ft entry i ctx arg =
    let e := entry + sizeof_fat_entry * i in
    if is_long_name_entry hdr e then
      ctx' <- fat_handle_long_dir_entry hdr ctx e ;;
      walk_slots cb n hdr ft entry (i + 1) ctx' arg
    else if volume_id hdr e then
      walk_slots cb n hdr ft entry (i + 1) ctx arg
    else if DIR_Name0 hdr e =? FAT_ENTRY_DIRNAME_NO_MORE_ENTRIES then
      Ok (ctx, arg, Returned 0)
    else if DIR_Name0 hdr e =? FAT_ENTRY_DIRNAME_EMPTY_DIR then
      Ok (ctx, arg, Returned 0)
    else
      '(ctx1, long_name_ptr) <- long_name_for hdr ctx e ;;
      '(arg', ret) <- cb hdr ft e long_name_ptr arg ;;
      let ctx2 := reset_lname ctx1 in
      if negb (ret =? 0) then Ok (ctx2, arg', Returned 0)
      else walk_slots cb n hdr ft entry (i + 1) ctx2 arg'.
Proof. reflexivity. Qed.

Lemma walk_slots_returns_zero :
  forall n hdr ft entry i ctx arg ctx' arg' r,
    walk_slots cb n hdr ft entry i ctx arg = Ok (ctx', arg', Returned r) ->
    r = 0.
Proof.
  induction n as [|n IH]; intros hdr ft entry i ctx arg ctx' arg' r H.
  - discriminate H.
  - rewrite walk_slots_S in H. cbv zeta in H.
    destruct (is_long_name_entry hdr _).
    { bind_ok H. eapply IH; eassumption. }
    destruct (volume_id hdr _).
    { eapply IH; eassumption. }
    destruct (DIR_Name0 hdr _ =? FAT_ENTRY_DIRNAME_NO_MORE_ENTRIES).
    { injection H as _ _ <-. reflexivity. }
    destruct (DIR_Name0 hdr _ =? FAT_ENTRY_DIRNAME_EMPTY_DIR).
    { injection H as _ _ <-. reflexivity. }
    bind_ok H. destruct a as [ctx1 ln].
    bind_ok H. destruct a as [arg1 ret].
    destruct (negb (ret =? 0)).
    + injection H as _ _ <-. reflexivity.
    + eapply IH; eassumption.
Qed.

Lemma walk_clusters_returns_zero :
  forall fuel epc hdr ft entry cluster ctx arg ctx' arg' r,
    walk_clusters cb fuel epc hdr ft entry cluster ctx arg
    = Ok (ctx', arg', r) ->
    r = 0.
Proof.
  induction fuel as [|fuel IH];
    intros epc hdr ft entry cluster ctx arg ctx' arg' r H.
  - discriminate H.
  - cbn [walk_clusters] in H.
    bind_ok H. destruct a as [e|]; [|discriminate H].
    bind_ok H. destruct a as [[ctx1 arg1] ex].
    destruct ex as [r1|].
    + injection H as _ _ <-. eapply walk_slots_returns_zero; eassumption.
    + destruct (cluster =? 0).
      { injection H as _ _ <-. reflexivity. }
      bind_ok H.
      destruct (fat_is_end_of_clusterchain ft a).
      { injection H as _ _ <-. reflexivity. }
      bind_ok H. eapply IH; eassumption.
Qed.

Lemma ASSERT_fault : forall b f, ASSERT b = Fault f -> f = AssertFailed.
Proof. intros [|] f H; [discriminate H | injection H as <-; reflexivity]. Qed.

Lemma append_chars_fault :
  forall cs ctx f, append_chars cs ctx = Fault f -> f = OutOfBounds.
Proof.
  induction cs as [|c cs IH]; intros ctx f H; [discriminate H|].
  cbn [append_chars] in H.
  destruct (negb (fat32_is_valid_filename_character c)); [discriminate H|].
  unfold arr_set in H.
  destruct ((0 <=? lname_sz ctx) && (lname_sz ctx <? sizeof_lname_buf));
    cbn [bind] in H; [eapply IH; exact H | congruence].
Qed.

Lemma fat_handle_long_dir_entry_fault :
  forall hdr ctx le f,
    fat_handle_long_dir_entry hdr ctx le = Fault f -> f = OutOfBounds.
Proof.
  intros hdr ctx le f H. unfold fat_handle_long_dir_entry in H.
  destruct (negb (is_valid _)); [discriminate H|].
  destruct (scan_slot hdr le); [discriminate H| |];
    eapply append_chars_fault; exact H.
Qed.

Lemma long_name_for_fault :
  forall hdr ctx e f, long_name_for hdr ctx e = Fault f -> f = OutOfBounds.
Proof.
  intros hdr ctx e f H. unfold long_name_for, arr_set in H.
  destruct ((0 <? lname_sz ctx) && is_valid ctx); [|discriminate H].
  destruct (lname_chksum ctx =? _); [|discriminate H].
  destruct ((0 <=? lname_sz ctx) && (lname_sz ctx <? sizeof_lname_buf));
    cbn [bind] in H; [discriminate H | congruence].
Qed.

Lemma fat_get_pointer_to_cluster_data_fault :
  forall hdr N f,
    fat_get_pointer_to_cluster_data hdr N = Fault f -> f = DivisionByZero.
Proof.
  intros hdr N f H.
  unfold fat_get_pointer_to_cluster_data, fat_get_sector_for_cluster,
    fat_get_first_data_sector, fat_get_RootDirSectors, udiv in H.
  destruct (BPB_BytsPerSec hdr =? 0); cbn [bind] in H;
    [congruence | discriminate H].
Qed.

Lemma walk_slots_fuel :
  (forall hdr ft e ln a, cb hdr ft e ln a <> Fault OutOfFuel) ->
  forall n hdr ft entry i ctx arg,
    walk_slots cb n hdr ft entry i ctx arg <> Fault OutOfFuel.
Proof.
  intro cb_fuel.
  induction n as [|n IH]; intros hdr ft entry i ctx arg; [discriminate|].
  rewrite walk_slots_S. cbv zeta.
  destruct (is_long_name_entry hdr _).
  { destruct (fat_handle_long_dir_entry hdr ctx _) as [ctx'|f] eqn:E;
      cbn [bind]; [apply IH|].
    apply fat_handle_long_dir_entry_fault in E. subst f. discriminate. }
  destruct (volume_id hdr _); [apply IH|].
  destruct (DIR_Name0 hdr _ =? FAT_ENTRY_DIRNAME_NO_MORE_ENTRIES); [discriminate|].
  destruct (DIR_Name0 hdr _ =? FAT_ENTRY_DIRNAME_EMPTY_DIR); [discriminate|].
  destruct (long_name_for hdr ctx _) as [[ctx1 ln]|f] eqn:E; cbn [bind].
  2:{ apply long_name_for_fault in E. subst f. discriminate. }
  pose proof (cb_fuel hdr ft (entry + sizeof_fat_entry * i) ln arg) as Hcb.
  destruct (cb hdr ft _ ln arg) as [[arg1 ret]|f]; cbn [bind];
    [|congruence].
  destruct (negb (ret =? 0)); [discriminate | apply IH].
Qed.

Lemma walk_clusters_fuel :
  (forall hdr ft e ln a, cb hdr ft e ln a <> Fault OutOfFuel) ->
  forall fuel epc hdr ft entry cluster ctx arg,
    chain_stops fuel hdr ft cluster = true ->
    walk_clusters cb fuel epc hdr ft entry cluster ctx arg <> Fault OutOfFuel.
Proof.
  intro cb_fuel.
  induction fuel as [|fuel IH];
    intros epc hdr ft entry cluster ctx arg Hstop; [discriminate Hstop|].
  cbn [walk_clusters chain_stops] in *.
  destruct (Z.eqb_spec cluster 0) as [Hc|Hc]; cbn [negb orb] in *.
  - cbn [bind]. destruct entry as [e|]; [|discriminate].
    pose proof (walk_slots_fuel cb_fuel (Z.to_nat epc) hdr ft e 0 ctx arg) as Hs.
    destruct (walk_slots cb (Z.to_nat epc) hdr ft e 0 ctx arg)
      as [[[c1 a1] ex]|f]; cbn [bind]; [|congruence].
    destruct ex; discriminate.
  - destruct (fat_get_pointer_to_cluster_data hdr cluster) as [p|f] eqn:Ep;
      cbn [bind].
    2:{ apply fat_get_pointer_to_cluster_data_fault in Ep. subst f.
        discriminate. }
    pose proof (walk_slots_fuel cb_fuel (Z.to_nat epc) hdr ft p 0 ctx arg) as Hs.
    destruct (walk_slots cb (Z.to_nat epc) hdr ft p 0 ctx arg)
      as [[[c1 a1] ex]|f]; cbn [bind]; [|congruence].
    destruct ex as [r|]; [discriminate|].
    destruct (fat_read_fat_entry hdr ft cluster 0) as [val|f] eqn:Ev;
      cbn [bind].
    2:{ intro H. injection H as ->.
        clear - Ev. unfold fat_read_fat_entry in Ev.
        destruct (if fat_type_eqb ft fat_unknown then fat_get_type hdr else Ok ft)
          as [t|g] eqn:Et; cbn [bind] in Ev.
        - destruct (fat_type_eqb t fat12_type); [discriminate Ev|].
          unfold ASSERT, udiv, umod in Ev.
          destruct (0 <? BPB_NumFATs hdr); cbn [bind] in Ev; [|discriminate Ev].
          destruct (BPB_BytsPerSec hdr =? 0); cbn [bind] in Ev;
            [discriminate Ev|].
          destruct (fat_type_eqb t fat16_type); discriminate Ev.
        - injection Ev as ->.
          destruct (fat_type_eqb ft fat_unknown); [|discriminate Et].
          rewrite fat_get_type_classify in Et.
          unfold fat_CountofClusters, fat_get_RootDirSectors, udiv in Et.
          destruct (BPB_BytsPerSec hdr =? 0); cbn [bind] in Et;
            [discriminate Et|].
          destruct (BPB_SecPerClus hdr =? 0); cbn [bind] in Et;
            discriminate Et. }
    destruct (fat_is_end_of_clusterchain ft val); [discriminate|].
    destruct (fat_is_bad_cluster ft val); cbn [negb ASSERT bind orb] in *;
      [discriminate|].
    apply IH. exact Hstop.
Qed.

(** C9. Whatever way [fat_walk_directory] comes to return, the value it
    returns is 0; and it does come to return or to a failed check, rather
    than walk on, when the cluster chain stops within the rounds allowed
    and the callback itself ends. *)
Theorem fat_walk_directory_returns_zero :
  forall fuel ctx hdr ft entry cluster arg,
    (forall ctx' arg' r,
        fat_walk_directory cb fuel ctx hdr ft entry cluster arg
        = Ok (ctx', arg', r) ->
        r = 0)
    /\ ((forall hdr ft e ln a, cb hdr ft e ln a <> Fault OutOfFuel) ->
        chain_stops fuel hdr ft cluster = true ->
        fat_walk_directory cb fuel ctx hdr ft entry cluster arg
        <> Fault OutOfFuel).
Proof.
  intros fuel ctx hdr ft entry cluster arg. split.
  - intros ctx' arg' r H.
    unfold fat_walk_directory in H.
    bind_ok H. bind_ok H.
    eapply walk_clusters_returns_zero; eassumption.
  - intros cb_fuel Hstop. unfold fat_walk_directory.
    destruct (ASSERT (fat_type_eqb ft fat16_type || fat_type_eqb ft fat32_type))
      eqn:E1; cbn [bind].
    2:{ apply ASSERT_fault in E1. subst f. discriminate. }
    destruct (if fat_type_eqb ft fat16_type
              then ASSERT ((cluster =? 0) ||
                           match entry with None => true | Some _ => false end)
              else Ok tt) eqn:E2; cbn [bind].
    2:{ destruct (fat_type_eqb ft fat16_type); [|discriminate E2].
        apply ASSERT_fault in E2. subst f. discriminate. }
    apply walk_clusters_fuel; assumption.
Qed.

End WalkerFacts.

(** The four ways out of the walker on the sample volumes: the
    end-of-entries marker, a stop requested by the callback, a FAT16 root
    chunk scanned to its end, and the end of the cluster chain. *)
Example walk_exit_end_marker :
  callbacks_of (fat_walk_directory record_cb 1 empty_walk_ctx sample_hdr
                  fat16_type None 2 [])
  = Some ([(17408, None)], 0).
Proof. vm_compute. reflexivity. Qed.

Example walk_exit_callback_stop :
  callbacks_of (fat_walk_directory stop_cb 1 empty_walk_ctx full_hdr
                  fat16_type (Some 16896) 0 [])
  = Some ([(16896, None)], 0).
Proof. vm_compute. reflexivity. Qed.

Example walk_exit_root_chunk_exhausted :
  callbacks_of (fat_walk_directory record_cb 1 empty_walk_ctx full_hdr
                  fat16_type (Some 16896) 0 [])
  = Some (map (fun i => (16896 + 32 * Z.of_nat i, None)) (seq 0 16), 0).
Proof. vm_compute. reflexivity. Qed.

Example walk_exit_end_of_chain :
  callbacks_of (fat_walk_directory record_cb 1 empty_walk_ctx full_hdr
                  fat16_type None 2 [])
  = Some (map (fun i => (17408 + 32 * Z.of_nat i, None)) (seq 0 16), 0).
Proof. vm_compute. reflexivity. Qed.

Lemma fat_walk_directory_returns_zero_witness :
  match fat_walk_directory stop_cb 1 empty_walk_ctx full_hdr fat16_type
          (Some 16896) 0 [] with
  | Ok (_, _, r) => r = 0
  | Fault _ => False
  end.
Proof.
  destruct (fat_walk_directory stop_cb 1 empty_walk_ctx full_hdr fat16_type
              (Some 16896) 0 []) as [[[ctx' log] r]|f] eqn:E.
  - exact (proj1 (fat_walk_directory_returns_zero _ stop_cb 1 empty_walk_ctx
                    full_hdr fat16_type (Some 16896) 0 []) ctx' log r E).
  - vm_compute in E. discriminate E.
Defined.

(** C1, as stated, fails: in the directory /D of the sample volume the
    slots 0 and 2 are live and slot 1 is deleted (0xE5); the walk calls
    the callback for the first live entry only and returns. *)
Lemma walk_deleted_slot_ends_iteration :
  DIR_Name0 sample_hdr 20480 = 88 /\
  DIR_Name0 sample_hdr 20512 = 0xE5 /\
  DIR_Name0 sample_hdr 20544 = 89 /\
  is_long_name_entry sample_hdr 20544 = false /\
  volume_id sample_hdr 20544 = false /\
  fat_get_pointer_to_cluster_data sample_hdr 8 = Ok 20480 /\
  callbacks_of (fat_walk_directory record_cb 5 empty_walk_ctx sample_hdr
                  fat16_type None 8 [])
  = Some ([(20480, None)], 0).
Proof. vm_compute. repeat split; reflexivity. Qed.

(** ** The path resolver's callback *)

Lemma fat_fetch_next_component_true :
  forall ctx ctx' fetched,
    fat_fetch_next_component ctx = Ok (ctx', fetched) ->
    fetched = true /\ 1 <= pcl ctx' <= sizeof_pc.
Proof.
  intros ctx ctx' fetched H. unfold fat_fetch_next_component in H.
  bind_ok H. bind_ok H. destruct a0 as [[p pc1] pcl1].
  bind_ok H. unfold arr_set in E1.
  destruct ((0 <=? pcl1) && (pcl1 <? sizeof_pc)) eqn:Hr; [|discriminate E1].
  apply andb_true_iff in Hr. destruct Hr as [H0 H1].
  apply Z.leb_le in H0. apply Z.ltb_lt in H1. unfold sizeof_pc in *.
  injection H as <- <-. cbn [pcl].
  unfold size_t. rewrite u32_small by lia.
  split; [|lia].
  destruct (Z.eqb_spec (pcl1 + 1) 0); [lia | reflexivity].
Qed.

Lemma fat_search_entry_cb_eq :
  forall hdr ft entry long_name ctx,
    fat_search_entry_cb hdr ft entry long_name ctx
    = (ctx1 <- at_comparison ctx ;;
       fat_search_entry_cb_compare hdr ft entry long_name ctx1).
Proof.
  intros hdr ft entry long_name ctx.
  unfold fat_search_entry_cb, at_comparison.
  destruct (pcl ctx =? 0); [|reflexivity].
  destruct (fat_fetch_next_component ctx) as [[ctx' fetched]|f] eqn:E;
    [|reflexivity].
  cbn [bind].
  destruct (fat_fetch_next_component_true _ _ _ E) as [-> _]. reflexivity.
Qed.

Lemma fetch_loop_spec :
  forall p pc0 pcl0,
    0 <= pcl0 ->
    pcl0 + Z.of_nat (length (component p)) < sizeof_pc ->
    exists pc1,
      fetch_loop p pc0 pcl0
      = Ok (after_component p, pc1, pcl0 + Z.of_nat (length (component p)))
      /\ arr_prefix pc1 (Z.to_nat pcl0 + length (component p))
         = arr_prefix pc0 (Z.to_nat pcl0) ++ component p.
Proof.
  induction p as [|c rest IH]; intros pc0 pcl0 H0 Hfit.
  - exists pc0. simpl. rewrite Z.add_0_r, Nat.add_0_r, app_nil_r. auto.
  - simpl in *. destruct (negb (c =? 0) && negb (c =? 47)) eqn:Hc.
    + simpl length in *. unfold sizeof_pc in *.
      unfold arr_set.
      assert (Hin : (0 <=? pcl0) && (pcl0 <? 256) = true)
        by (apply andb_true_iff; split;
            [apply Z.leb_le | apply Z.ltb_lt]; lia).
      rewrite Hin. cbn [bind]. unfold size_t. rewrite u32_small by lia.
      destruct (IH (upd pc0 (Z.to_nat pcl0) c) (pcl0 + 1)) as [pc1 [Hrun Hpre]];
        [lia | unfold sizeof_pc; lia |].
      exists pc1. split.
      * replace (pcl0 + Z.of_nat (S (length (component rest))))
          with (pcl0 + 1 + Z.of_nat (length (component rest))) by lia.
        exact Hrun.
      * replace (Z.to_nat pcl0 + S (length (component rest)))%nat
          with (Z.to_nat (pcl0 + 1) + length (component rest))%nat by lia.
        rewrite Hpre.
        replace (Z.to_nat (pcl0 + 1)) with (S (Z.to_nat pcl0)) by lia.
        rewrite arr_prefix_S, nth_upd_same, arr_prefix_upd by lia.
        rewrite <- app_assoc. reflexivity.
    + exists pc0. simpl. rewrite Z.add_0_r, Nat.add_0_r, app_nil_r. auto.
Qed.

Lemma component_no_nul : forall p, ~ In 0 (component p).
Proof.
  induction p as [|c rest IH]; simpl; [tauto|].
  destruct (Z.eqb_spec c 0); simpl; [tauto|].
  destruct (c =? 47); simpl; [tauto|]. intros [H|H]; [lia | tauto].
Qed.

(** What a fetch does when the component fits the buffer. *)
Lemma fat_fetch_next_component_spec :
  forall ctx,
    pcl ctx = 0 ->
    Z.of_nat (length (component (path ctx))) < sizeof_pc ->
    exists ctx',
      fat_fetch_next_component ctx = Ok (ctx', true)
      /\ pcl ctx' = Z.of_nat (length (component (path ctx))) + 1
      /\ c_str (pc ctx') = component (path ctx)
      /\ path ctx' = after_component (path ctx)
      /\ single_comp ctx' = single_comp ctx
      /\ result ctx' = result ctx
      /\ subdir_cluster ctx' = subdir_cluster ctx
      /\ not_dir ctx' = not_dir ctx.
Proof.
  intros ctx Hpcl Hfit. unfold fat_fetch_next_component.
  rewrite Hpcl. cbn [ASSERT Z.eqb bind].
  destruct (fetch_loop_spec (path ctx) (pc ctx) 0) as [pc1 [Hrun Hpre]];
    [lia | lia |].
  rewrite Hrun. cbn [bind]. simpl Z.add in *.
  set (n := length (component (path ctx))) in *.
  unfold arr_set, sizeof_pc in *.
  assert (Hin : (0 <=? Z.of_nat n) && (Z.of_nat n <? 256) = true)
    by (apply andb_true_iff; split;
        [apply Z.leb_le | apply Z.ltb_lt]; lia).
  rewrite Hin. cbn [bind]. unfold size_t. rewrite u32_small by lia.
  assert (Hnz : negb (Z.of_nat n + 1 =? 0) = true)
    by (apply negb_true_iff, Z.eqb_neq; lia).
  rewrite Hnz.
  eexists. split; [reflexivity|]. cbn [pcl pc path single_comp result
                                        subdir_cluster not_dir].
  repeat split.
  rewrite Nat2Z.id. simpl in Hpre.
  rewrite (c_str_prefix n).
  - rewrite arr_prefix_upd by lia. exact Hpre.
  - rewrite arr_prefix_upd by lia. rewrite Hpre. apply component_no_nul.
  - apply nth_upd_same.
Qed.

(** C10. [fat_fetch_next_component] never returns false: whenever it
    returns, [pcl] is at least 1 (and it does return, with the component
    in [pc], when the component fits the buffer); so the branch of
    [fat_search_entry_cb] for a failed fetch is dead, and the callback is
    its name comparison run on the context [at_comparison]. *)
Theorem fat_fetch_next_component_always_true :
  forall ctx,
    (forall ctx' fetched,
        fat_fetch_next_component ctx = Ok (ctx', fetched) ->
        fetched = true /\ 1 <= pcl ctx')
    /\ (pcl ctx = 0 ->
        Z.of_nat (length (component (path ctx))) < sizeof_pc ->
        exists ctx',
          fat_fetch_next_component ctx = Ok (ctx', true)
          /\ pcl ctx' = Z.of_nat (length (component (path ctx))) + 1
          /\ c_str (pc ctx') = component (path ctx)
          /\ path ctx' = after_component (path ctx))
    /\ (forall hdr ft entry long_name,
           fat_search_entry_cb hdr ft entry long_name ctx
           = (ctx1 <- at_comparison ctx ;;
              fat_search_entry_cb_compare hdr ft entry long_name ctx1)).
Proof.
  intro ctx. split; [|split].
  - intros ctx' fetched H.
    destruct (fat_fetch_next_component_true _ _ _ H) as [Ht Hp].
    split; [exact Ht | lia].
  - intros Hpcl Hfit.
    destruct (fat_fetch_next_component_spec ctx Hpcl Hfit)
      as [ctx' [H1 [H2 [H3 [H4 _]]]]].
    exists ctx'. auto.
  - intros. apply fat_search_entry_cb_eq.
Qed.

(** At the end of the path the fetched component is empty and [pcl] is 1. *)
Lemma fat_fetch_next_component_always_true_witness :
  exists ctx',
    fat_fetch_next_component (fst (fat_init_search_ctx [] false))
    = Ok (ctx', true)
    /\ pcl ctx' = 1
    /\ c_str (pc ctx') = []
    /\ path ctx' = [].
Proof.
  exact (proj1 (proj2 (fat_fetch_next_component_always_true
                         (fst (fat_init_search_ctx [] false))))
           eq_refl eq_refl).
Defined.

Lemma fat_search_entry_cb_compare_long :
  forall hdr ft entry ctx l,
    ~ In 0 l ->
    (fat_search_entry_cb_compare hdr ft entry (Some l) ctx = Ok (ctx, 0)
     <-> l <> c_str (pc ctx)).
Proof.
  intros hdr ft entry ctx l Hl.
  pose proof (strcmp_eq l (c_str (pc ctx)) Hl (c_str_no_nul _)) as Hcmp.
  unfold fat_search_entry_cb_compare.
  destruct (Z.eqb_spec (strcmp l (c_str (pc ctx))) 0) as [E|E]; cbn [negb].
  - split; [|intro Hne; exfalso; apply Hne, Hcmp, E].
    intro H. exfalso.
    destruct (single_comp ctx || (deref (path ctx) =? 0)); [discriminate H|].
    destruct (ASSERT (deref (path ctx) =? 47)); [cbn [bind] in H|discriminate H].
    destruct (deref (next (path ctx)) =? 0).
    + destruct (directory hdr entry); discriminate H.
    + destruct (negb (directory hdr entry)); discriminate H.
  - split; [|reflexivity]. intros _ Heq. apply E, Hcmp, Heq.
Qed.

Lemma fat_search_entry_cb_compare_short :
  forall hdr ft entry ctx,
    ((exists ctx', fat_search_entry_cb_compare hdr ft entry None ctx
                   = Ok (ctx', 0))
     <-> map tolower (c_str (fat_get_short_name hdr entry))
         <> map tolower (c_str (pc ctx))).
Proof.
  intros hdr ft entry ctx.
  pose proof (stricmp_eq (c_str (fat_get_short_name hdr entry))
                (c_str (pc ctx)) (c_str_no_nul _) (c_str_no_nul _)) as Hcmp.
  unfold fat_search_entry_cb_compare.
  destruct (Z.eqb_spec (stricmp (c_str (fat_get_short_name hdr entry))
                          (c_str (pc ctx))) 0) as [E|E]; cbn [negb].
  - split; [|intro Hne; exfalso; apply Hne, Hcmp, E].
    intros [ctx' H]. exfalso. cbn [single_comp path] in H.
    destruct (single_comp ctx || (deref (path ctx) =? 0)); [discriminate H|].
    destruct (ASSERT (deref (path ctx) =? 47)); [cbn [bind] in H|discriminate H].
    destruct (deref (next (path ctx)) =? 0).
    + destruct (directory hdr entry); discriminate H.
    + destruct (negb (directory hdr entry)); discriminate H.
  - split; [|intros _; eexists; reflexivity].
    intros _ Heq. apply E, Hcmp, Heq.
Qed.

(** Amended C3. At its name comparison, the callback compares the path
    component with the long name, case-sensitively, when the walker hands
    it one, and never looks at the short name then; it compares the
    component with the decoded short name, case-insensitively, only when
    there is no long name. It returns 0 (no match, go on) exactly when the
    compared names differ. *)
Theorem fat_search_entry_cb_compares_names :
  forall hdr ft entry ctx ctx1,
    at_comparison ctx = Ok ctx1 ->
    (forall l,
        ~ In 0 l ->
        (fat_search_entry_cb hdr ft entry (Some l) ctx = Ok (ctx1, 0)
         <-> l <> c_str (pc ctx1)))
    /\ ((exists ctx', fat_search_entry_cb hdr ft entry None ctx = Ok (ctx', 0))
        <-> map tolower (c_str (fat_get_short_name hdr entry))
            <> map tolower (c_str (pc ctx1))).
Proof.
  intros hdr ft entry ctx ctx1 Hat. split.
  - intros l Hl. rewrite fat_search_entry_cb_eq, Hat. cbn [bind].
    apply fat_search_entry_cb_compare_long. exact Hl.
  - rewrite fat_search_entry_cb_eq, Hat. cbn [bind].
    apply fat_search_entry_cb_compare_short.
Qed.

(** C3, as stated, fails for the short alias of a long-named file: on
    the sample volume the entry at 16992 has the long name
    "LongFileNameExample.txt" and the short name "LONGFI~1.TXT"; the
    lookup of the long name finds it, the lookup of the alias, which
    equals the short name, ends with -ENOENT. *)
Lemma short_alias_of_long_named_file_not_found :
  fat_get_short_name sample_hdr 16992 = tl path_alias
  /\ stricmp (c_str (fat_get_short_name sample_hdr 16992)) (tl path_alias) = 0
  /\ fat_search_entry 5 sample_hdr fat_unknown path_long (Some 0)
     = Ok (Some 16992, Some 0)
  /\ fat_search_entry 5 sample_hdr fat_unknown path_alias (Some 0)
     = Ok (None, Some (-2)).
Proof. vm_compute. repeat split; reflexivity. Qed.

Lemma fat_search_entry_cb_compares_names_witness :
  (fat_search_entry_cb sample_hdr fat16_type 16992
     (Some (lfn_part1 ++ lfn_part2)) alias_ctx = Ok (alias_ctx_fetched, 0)
   <-> lfn_part1 ++ lfn_part2 <> c_str (pc alias_ctx_fetched))
  /\ fat_search_entry_cb sample_hdr fat16_type 16992
       (Some (lfn_part1 ++ lfn_part2)) alias_ctx = Ok (alias_ctx_fetched, 0).
Proof.
  assert (Hat : at_comparison alias_ctx = Ok alias_ctx_fetched)
    by (vm_compute; reflexivity).
  assert (Hl : ~ In 0 (lfn_part1 ++ lfn_part2)).
  { intro H. vm_compute in H.
    repeat (destruct H as [H|H]; [discriminate H|]). exact H. }
  split.
  - exact (proj1 (fat_search_entry_cb_compares_names sample_hdr fat16_type
                    16992 alias_ctx alias_ctx_fetched Hat) _ Hl).
  - vm_compute. reflexivity.
Defined.

(** ** Two walks with related callback states *)

Section WalkerLockstep.

Variable A : Type.
Variable cb : fat_dentry_cb A.
Variable hdr : fat_header.
Variable ft : fat_type.

(** [R] relates the states while both walks go on, [S] relates them
    once the callback has asked to stop. *)
Variables R S : A -> A -> Prop.

Hypothesis cb_step :
  forall e ln a1 a2,
    R a1 a2 ->
    outcome_rel (fun x1 x2 =>
                   snd x1 = snd x2 /\
                   (snd x1 = 0 -> R (fst x1) (fst x2)) /\
                   (snd x1 <> 0 -> S (fst x1) (fst x2)))
                (cb hdr ft e ln a1) (cb hdr ft e ln a2).

Lemma walk_slots_lockstep :
  forall n entry i ctx a1 a2,
    R a1 a2 ->
    outcome_rel (slots_post R S)
      (walk_slots cb n hdr ft entry i ctx a1)
      (walk_slots cb n hdr ft entry i ctx a2).
Proof.
  induction n as [|n IH]; intros entry i ctx a1 a2 HR.
  - simpl. unfold slots_post. simpl. auto.
  - rewrite !walk_slots_S. cbv zeta.
    destruct (is_long_name_entry hdr _).
    { destruct (fat_handle_long_dir_entry hdr ctx _) as [ctx'|f];
        cbn [bind]; [apply IH; exact HR | reflexivity]. }
    destruct (volume_id hdr _); [apply IH; exact HR|].
    destruct (DIR_Name0 hdr _ =? FAT_ENTRY_DIRNAME_NO_MORE_ENTRIES).
    { simpl. unfold slots_post. simpl. auto. }
    destruct (DIR_Name0 hdr _ =? FAT_ENTRY_DIRNAME_EMPTY_DIR).
    { simpl. unfold slots_post. simpl. auto. }
    destruct (long_name_for hdr ctx _) as [[ctx1 ln]|f]; cbn [bind];
      [|reflexivity].
    pose proof (cb_step (entry + sizeof_fat_entry * i) ln a1 a2 HR) as Hcb.
    destruct (cb hdr ft _ ln a1) as [[a1' r1]|f1];
      destruct (cb hdr ft _ ln a2) as [[a2' r2]|f2];
      simpl in Hcb; try contradiction; cbn [bind]; [|exact Hcb].
    destruct Hcb as [<- [HR0 HS]].
    destruct (Z.eqb_spec r1 0) as [E|E]; cbn [negb].
    + apply IH. apply HR0. exact E.
    + simpl. unfold slots_post. simpl. auto.
Qed.

Lemma walk_clusters_lockstep :
  forall fuel epc entry cluster ctx a1 a2,
    R a1 a2 ->
    outcome_rel (walk_post R S)
      (walk_clusters cb fuel epc hdr ft entry cluster ctx a1)
      (walk_clusters cb fuel epc hdr ft entry cluster ctx a2).
Proof.
  induction fuel as [|fuel IH]; intros epc entry cluster ctx a1 a2 HR.
  - reflexivity.
  - cbn [walk_clusters].
    destruct (if negb (cluster =? 0)
              then p <- fat_get_pointer_to_cluster_data hdr cluster ;; Ok (Some p)
              else Ok entry) as [[e|]|f]; cbn [bind]; try reflexivity.
    pose proof (walk_slots_lockstep (Z.to_nat epc) e 0 ctx a1 a2 HR) as Hs.
    destruct (walk_slots cb (Z.to_nat epc) hdr ft e 0 ctx a1)
      as [[[c1 b1] x1]|f1];
      destruct (walk_slots cb (Z.to_nat epc) hdr ft e 0 ctx a2)
        as [[[c2 b2] x2]|f2];
      simpl in Hs; try contradiction; cbn [bind]; [|exact Hs].
    destruct Hs as [Hc [Hx Hrel]]. simpl in Hc, Hx, Hrel. subst c2 x2.
    destruct x1 as [r|].
    + simpl. unfold walk_post. simpl. auto.
    + destruct (cluster =? 0).
      { simpl. unfold walk_post. simpl. auto. }
      destruct (fat_read_fat_entry hdr ft cluster 0) as [val|f];
        cbn [bind]; [|reflexivity].
      destruct (fat_is_end_of_clusterchain ft val).
      { simpl. unfold walk_post. simpl. auto. }
      destruct (ASSERT (negb (fat_is_bad_cluster ft val))); cbn [bind];
        [|reflexivity].
      apply IH. exact Hrel.
Qed.

Lemma fat_walk_directory_lockstep :
  forall fuel ctx entry cluster a1 a2,
    R a1 a2 ->
    outcome_rel (walk_post R S)
      (fat_walk_directory cb fuel ctx hdr ft entry cluster a1)
      (fat_walk_directory cb fuel ctx hdr ft entry cluster a2).
Proof.
  intros fuel ctx entry cluster a1 a2 HR. unfold fat_walk_directory.
  destruct (ASSERT (fat_type_eqb ft fat16_type || fat_type_eqb ft fat32_type));
    cbn [bind]; [|reflexivity].
  destruct (if fat_type_eqb ft fat16_type
            then ASSERT ((cluster =? 0) ||
                         match entry with None => true | Some _ => false end)
            else Ok tt); cbn [bind]; [|reflexivity].
  apply walk_clusters_lockstep. exact HR.
Qed.

End WalkerLockstep.

(** ** A path and the same path followed by '/' *)

Lemma good_path_tl : forall c q, good_path (c :: q) -> good_path q.
Proof.
  intros c q [Hnz Hlast]. split.
  - intro H. apply Hnz. right. exact H.
  - destruct q as [|d q']; [simpl; lia | exact Hlast].
Qed.

Lemma fetch_loop_app :
  forall q pc0 pcl0,
    ~ In 0 q ->
    fetch_loop (q ++ [47]) pc0 pcl0
    = match fetch_loop q pc0 pcl0 with
      | Ok (q', pc1, pcl1) => Ok (q' ++ [47], pc1, pcl1)
      | Fault f => Fault f
      end.
Proof.
  induction q as [|c q IH]; intros pc0 pcl0 Hnz.
  - reflexivity.
  - simpl. destruct (negb (c =? 0) && negb (c =? 47)); [|reflexivity].
    destruct (arr_set sizeof_pc pc0 pcl0 c) as [pc1|f]; cbn [bind];
      [|reflexivity].
    apply IH. intro H. apply Hnz. right. exact H.
Qed.

Lemma fetch_loop_good :
  forall q pc0 pcl0 q' pc1 pcl1,
    fetch_loop q pc0 pcl0 = Ok (q', pc1, pcl1) ->
    good_path q -> good_path q'.
Proof.
  induction q as [|c q IH]; intros pc0 pcl0 q' pc1 pcl1 H Hg.
  - simpl in H. injection H as <- _ _. exact Hg.
  - simpl in H. destruct (negb (c =? 0) && negb (c =? 47)).
    + bind_ok H. eapply IH; [exact H | eapply good_path_tl; exact Hg].
    + injection H as <- _ _. exact Hg.
Qed.

Lemma fat_fetch_next_component_sync :
  forall c1 c2,
    sync c1 c2 ->
    outcome_rel (fun x1 x2 =>
                   sync (fst x1) (fst x2) /\
                   subdir_cluster (fst x1) = subdir_cluster c1)
                (fat_fetch_next_component c1) (fat_fetch_next_component c2).
Proof.
  intros c1 c2 [Hg [-> [Hsc [Hres Hnd]]]].
  unfold fat_fetch_next_component, with_path. cbn [pcl path pc].
  destruct (ASSERT (pcl c1 =? 0)); cbn [bind]; [|reflexivity].
  rewrite fetch_loop_app by apply Hg.
  destruct (fetch_loop (path c1) (pc c1) (pcl c1)) as [[[q' pc1] pcl1]|f] eqn:E;
    cbn [bind]; [|reflexivity].
  destruct (arr_set sizeof_pc pc1 pcl1 0) as [pc2|f]; cbn [bind];
    [|reflexivity].
  simpl. unfold sync, with_path. simpl.
  pose proof (fetch_loop_good _ _ _ _ _ _ E Hg) as [Hnz Hlast].
  repeat split; assumption.
Qed.

Lemma fat_search_entry_cb_compare_unfold :
  forall hdr ft e ln p sc pc0 pcl0 sn res sub nd,
    fat_search_entry_cb_compare hdr ft e ln
      (mk_search_ctx p sc pc0 pcl0 sn res sub nd)
    = let sn' := compare_shortname hdr e ln sn in
      if compare_differs hdr e ln pc0 then
        Ok (mk_search_ctx p sc pc0 pcl0 sn' res sub nd, 0)
      else if sc || (deref p =? 0) then
        Ok (mk_search_ctx p sc pc0 pcl0 sn' (Some e) sub nd, -1)
      else
        _ <- ASSERT (deref p =? 47) ;;
        if deref (next p) =? 0 then
          if directory hdr e then
            Ok (mk_search_ctx (next p) sc pc0 pcl0 sn' (Some e) sub nd, -1)
          else
            Ok (mk_search_ctx (next p) sc pc0 pcl0 sn' res sub true, -1)
        else if negb (directory hdr e) then
          Ok (mk_search_ctx (next p) sc pc0 pcl0 sn' res sub nd, -1)
        else
          Ok (mk_search_ctx (next p) sc pc0 0 sn' res
                (fat_get_first_cluster hdr e) nd, -1).
Proof.
  intros. destruct ln; reflexivity.
Qed.

Lemma fat_search_entry_cb_compare_sync :
  forall hdr ft e ln c1 c2,
    sync_walking c1 c2 ->
    outcome_rel (fun x1 x2 =>
                   snd x1 = snd x2 /\
                   (snd x1 = 0 -> sync_walking (fst x1) (fst x2)) /\
                   (snd x1 <> 0 -> sync_or_fin hdr (fst x1) (fst x2)))
                (fat_search_entry_cb_compare hdr ft e ln c1)
                (fat_search_entry_cb_compare hdr ft e ln c2).
Proof.
  intros hdr ft e ln c1 c2 [[Hg [-> [Hsc [Hres Hnd]]]] Hsub].
  destruct c1 as [p sc pc0 pcl0 sn res sub nd].
  cbn [path single_comp pc pcl shortname result subdir_cluster not_dir] in *.
  subst sc res nd sub. unfold with_path.
  cbn [path single_comp pc pcl shortname result subdir_cluster not_dir].
  rewrite !fat_search_entry_cb_compare_unfold. cbv zeta.
  destruct Hg as [Hnz Hlast].
  destruct (compare_differs hdr e ln pc0).
  { (* the names differ in both runs *)
    simpl. split; [reflexivity|]. split; [|intro H; contradiction H; reflexivity].
    intros _. unfold sync_walking, sync, with_path, good_path. simpl. tauto. }
  cbn [orb].
  destruct p as [|c r]; cbn [deref next hd tl app].
  - (* the first run is at the end of its path, the second at its last '/' *)
    destruct (directory hdr e) eqn:Hd; simpl;
      (split; [reflexivity|]); (split; [intro; discriminate|]);
      intros _; right; unfold fin; simpl;
      (split; [reflexivity|]); (split; [reflexivity|]);
      exists e; rewrite Hd; auto.
  - assert (Hc : c <> 0) by (intro; subst c; apply Hnz; left; reflexivity).
    destruct (Z.eqb_spec c 0) as [|_]; [contradiction|].
    destruct (Z.eqb_spec c 47) as [->|_]; cbn [ASSERT bind]; [|reflexivity].
    destruct r as [|c' r']; [simpl in Hlast; contradiction|].
    assert (Hc' : c' <> 0)
      by (intro; subst c'; apply Hnz; right; left; reflexivity).
    cbn [deref hd app].
    destruct (Z.eqb_spec c' 0) as [|_]; [contradiction|].
    assert (Hg' : good_path (c' :: r')).
    { split; [intro H; apply Hnz; right; exact H | exact Hlast]. }
    destruct (directory hdr e); cbn [negb]; simpl;
      (split; [reflexivity|]); (split; [intro; discriminate|]);
      intros _; left; unfold sync, with_path; simpl; tauto.
Qed.

Lemma fat_search_entry_cb_sync :
  forall hdr ft e ln c1 c2,
    sync_walking c1 c2 ->
    outcome_rel (fun x1 x2 =>
                   snd x1 = snd x2 /\
                   (snd x1 = 0 -> sync_walking (fst x1) (fst x2)) /\
                   (snd x1 <> 0 -> sync_or_fin hdr (fst x1) (fst x2)))
                (fat_search_entry_cb hdr ft e ln c1)
                (fat_search_entry_cb hdr ft e ln c2).
Proof.
  intros hdr ft e ln c1 c2 HR.
  rewrite !fat_search_entry_cb_eq. unfold at_comparison.
  assert (Hpcl : pcl c2 = pcl c1) by (destruct HR as [[_ [-> _]] _]; reflexivity).
  rewrite Hpcl.
  destruct (pcl c1 =? 0); cbn [bind].
  - destruct HR as [Hs Hsub].
    pose proof (fat_fetch_next_component_sync c1 c2 Hs) as Hf.
    destruct (fat_fetch_next_component c1) as [[c1' b1]|f1];
      destruct (fat_fetch_next_component c2) as [[c2' b2]|f2];
      simpl in Hf; try contradiction; cbn [bind]; [|exact Hf].
    apply fat_search_entry_cb_compare_sync.
    destruct Hf as [Hs' Hsub']. split; [exact Hs' | congruence].
  - apply fat_search_entry_cb_compare_sync. exact HR.
Qed.

Lemma search_subdirs_sync :
  forall n fuel hdr ft wctx c1 c2,
    sync_or_fin hdr c1 c2 ->
    outcome_rel (fun x1 x2 => sync_or_fin hdr (snd x1) (snd x2))
                (search_subdirs n fuel hdr ft wctx c1)
                (search_subdirs n fuel hdr ft wctx c2).
Proof.
  induction n as [|n IH]; intros fuel hdr ft wctx c1 c2 HT.
  - destruct HT as [Hs|Hf].
    + assert (Hsub : subdir_cluster c2 = subdir_cluster c1)
        by (destruct Hs as [_ [-> _]]; reflexivity).
      simpl. rewrite Hsub. destruct (subdir_cluster c1 =? 0); simpl; auto.
      left. exact Hs.
    + destruct Hf as [H1 [H2 He]]. simpl. rewrite H1, H2. simpl.
      right. split; [exact H1|]. split; [exact H2|]. exact He.
  - destruct HT as [Hs|Hf].
    + assert (Hsub : subdir_cluster c2 = subdir_cluster c1)
        by (destruct Hs as [_ [-> _]]; reflexivity).
      cbn [search_subdirs]. rewrite Hsub.
      destruct (subdir_cluster c1 =? 0); [simpl; left; exact Hs|].
      set (d1 := mk_search_ctx (path c1) (single_comp c1) (pc c1) (pcl c1)
                   (shortname c1) (result c1) 0 (not_dir c1)).
      set (d2 := mk_search_ctx (path c2) (single_comp c2) (pc c2) (pcl c2)
                   (shortname c2) (result c2) 0 (not_dir c2)).
      assert (HR : sync_walking d1 d2).
      { destruct Hs as [Hg [-> [Hsc [Hres Hnd]]]].
        unfold sync_walking, sync, with_path, d1, d2. simpl. tauto. }
      pose proof (fat_walk_directory_lockstep _ fat_search_entry_cb hdr ft
                    sync_walking (sync_or_fin hdr)
                    (fun e ln a1 a2 H => fat_search_entry_cb_sync hdr ft e ln a1 a2 H)
                    fuel wctx None (subdir_cluster c1) d1 d2 HR) as Hw.
      destruct (fat_walk_directory fat_search_entry_cb fuel wctx hdr ft None
                  (subdir_cluster c1) d1) as [[[w1 b1] r1]|f1];
        destruct (fat_walk_directory fat_search_entry_cb fuel wctx hdr ft None
                    (subdir_cluster c1) d2) as [[[w2 b2] r2]|f2];
        simpl in Hw; try contradiction; cbn [bind]; [|exact Hw].
      destruct Hw as [Hw [_ Hrel]]. simpl in Hw, Hrel. subst w2.
      apply IH. destruct Hrel as [[Hs' _]|HT']; [left; exact Hs' | exact HT'].
    + destruct Hf as [H1 [H2 He]]. cbn [search_subdirs]. rewrite H1, H2. simpl.
      right. split; [exact H1|]. split; [exact H2|]. exact He.
Qed.

Lemma fat_search_run_sync :
  forall fuel hdr ft root root_dir_cluster p,
    good_path p ->
    outcome_rel (sync_or_fin hdr)
                (fat_search_run fuel hdr ft root root_dir_cluster p)
                (fat_search_run fuel hdr ft root root_dir_cluster (p ++ [47])).
Proof.
  intros fuel hdr ft root rdc p Hg. unfold fat_search_run.
  cbn [fat_init_search_ctx].
  assert (HR : sync_walking (mk_search_ctx p false [] 0 [] None 0 false)
                 (mk_search_ctx (p ++ [47]) false [] 0 [] None 0 false)).
  { unfold sync_walking, sync, with_path. simpl. tauto. }
  pose proof (fat_walk_directory_lockstep _ fat_search_entry_cb hdr ft
                sync_walking (sync_or_fin hdr)
                (fun e ln a1 a2 H => fat_search_entry_cb_sync hdr ft e ln a1 a2 H)
                fuel (mk_walk_ctx [] 0 0 false) (Some root) rdc _ _ HR) as Hw.
  destruct (fat_walk_directory fat_search_entry_cb fuel _ hdr ft (Some root)
              rdc (mk_search_ctx p false [] 0 [] None 0 false))
    as [[[w1 b1] r1]|f1];
    destruct (fat_walk_directory fat_search_entry_cb fuel _ hdr ft (Some root)
                rdc (mk_search_ctx (p ++ [47]) false [] 0 [] None 0 false))
      as [[[w2 b2] r2]|f2];
    simpl in Hw; try contradiction; cbn [bind]; [|exact Hw].
  destruct Hw as [Hw [_ Hrel]]. simpl in Hw, Hrel. subst w2.
  assert (HT : sync_or_fin hdr b1 b2)
    by (destruct Hrel as [[Hs' _]|HT']; [left; exact Hs' | exact HT']).
  pose proof (search_subdirs_sync fuel fuel hdr ft w1 b1 b2 HT) as Hs.
  destruct (search_subdirs fuel fuel hdr ft w1 b1) as [[w1' c1]|g1];
    destruct (search_subdirs fuel fuel hdr ft w1 b2) as [[w2' c2]|g2];
    simpl in Hs; try contradiction; cbn [bind]; exact Hs.
Qed.

(** ** C2: what fat_search_entry returns *)

Lemma fat_search_entry_root :
  forall fuel hdr ft t root cluster err,
    (if fat_type_eqb ft fat_unknown then fat_get_type hdr else Ok ft) = Ok t ->
    fat_get_rootdir hdr t = Ok (root, cluster) ->
    fat_search_entry fuel hdr ft [47] err = Ok (Some root, err).
Proof.
  intros fuel hdr ft t root cluster err Ht Hroot.
  unfold fat_search_entry. rewrite Ht. cbn [bind].
  cbn [deref next hd tl Z.eqb Pos.eqb ASSERT bind].
  rewrite Hroot. reflexivity.
Qed.

Lemma fat_search_entry_errno :
  forall fuel hdr ft t root cluster p v ctx,
    (if fat_type_eqb ft fat_unknown then fat_get_type hdr else Ok ft) = Ok t ->
    fat_get_rootdir hdr t = Ok (root, cluster) ->
    deref p <> 0 ->
    fat_search_run fuel hdr t root cluster p = Ok ctx ->
    fat_search_entry fuel hdr ft (47 :: p) (Some v)
    = Ok (result ctx,
          Some (if not_dir ctx then -20
                else match result ctx with
                     | None => -2
                     | Some _ => 0
                     end)).
Proof.
  intros fuel hdr ft t root cluster p v ctx Ht Hroot Hp Hrun.
  unfold fat_search_entry. rewrite Ht. cbn [bind].
  cbn [deref next hd tl Z.eqb Pos.eqb ASSERT bind].
  rewrite Hroot. cbn [bind].
  fold (deref p). destruct (Z.eqb_spec (deref p) 0) as [E|_]; [contradiction|].
  rewrite Hrun. cbn [bind].
  destruct (not_dir ctx); [reflexivity|].
  destruct (result ctx); reflexivity.
Qed.

Lemma fat_search_entry_slash_sync :
  forall fuel hdr ft p e v1 v2 err1,
    good_path p -> p <> [] ->
    fat_search_entry fuel hdr ft (47 :: p) (Some v1) = Ok (Some e, err1) ->
    directory hdr e = false ->
    err1 = Some 0
    /\ fat_search_entry fuel hdr ft (47 :: p ++ [47]) (Some v2)
       = Ok (None, Some (-20)).
Proof.
  intros fuel hdr ft p e v1 v2 err1 Hg Hne H Hdir.
  unfold fat_search_entry in *.
  destruct (if fat_type_eqb ft fat_unknown then fat_get_type hdr else Ok ft)
    as [t|f]; cbn [bind] in *; [|discriminate H].
  cbn [deref next hd tl Z.eqb Pos.eqb ASSERT bind] in *.
  destruct (fat_get_rootdir hdr t) as [[root rdc]|f]; cbn [bind] in *;
    [|discriminate H].
  destruct p as [|c r]; [contradiction|].
  assert (Hc : c <> 0)
    by (intro; subst c; apply (proj1 Hg); left; reflexivity).
  cbn [app hd deref] in *.
  destruct (Z.eqb_spec c 0) as [|_]; [contradiction|].
  change (c :: r ++ [47]) with ((c :: r) ++ [47]).
  pose proof (fat_search_run_sync fuel hdr t root rdc (c :: r) Hg) as Hs.
  destruct (fat_search_run fuel hdr t root rdc (c :: r)) as [c1|f1];
    [|cbn [bind] in H; discriminate H].
  destruct (fat_search_run fuel hdr t root rdc ((c :: r) ++ [47])) as [c2|f2];
    simpl in Hs; [|contradiction].
  cbn [bind] in *.
  injection H as Hres Herr.
  destruct Hs as [Hs|Hf].
  - destruct Hs as [_ [_ [_ [Hnone _]]]]. congruence.
  - destruct Hf as [_ [_ [e' [Hres1 [Hnd1 Hcase]]]]].
    assert (e' = e) by congruence. subst e'.
    rewrite Hdir in Hcase. destruct Hcase as [Hres2 Hnd2].
    rewrite Hnd1, Hres1 in Herr. rewrite Hres2, Hnd2.
    split; [congruence | reflexivity].
Qed.

(** ** C5: the file reader *)

Lemma load_bytes_length : forall hdr n a, length (load_bytes hdr a n) = n.
Proof.
  induction n as [|n IH]; intro a; simpl; [reflexivity | rewrite IH; reflexivity].
Qed.

Lemma firstn_exact :
  forall (d1 d2 : list Z), firstn (length d1) (d1 ++ d2) = d1.
Proof. induction d1; intros; simpl; [reflexivity | f_equal; auto]. Qed.

Lemma skipn_exact_plus :
  forall (d1 d2 : list Z) n, skipn (length d1 + n) (d1 ++ d2) = skipn n d2.
Proof. induction d1; intros; simpl; auto. Qed.

Lemma memmove_app :
  forall d1 d2 a,
    memmove (d1 ++ d2) (Z.of_nat (length d1)) a = d1 ++ a ++ skipn (length a) d2.
Proof.
  intros. unfold memmove. rewrite Nat2Z.id, firstn_exact, skipn_exact_plus.
  reflexivity.
Qed.

Lemma memmove_memmove :
  forall dest w a b,
    (w <= length dest)%nat ->
    memmove (memmove dest (Z.of_nat w) a) (Z.of_nat (w + length a)) b
    = memmove dest (Z.of_nat w) (a ++ b).
Proof.
  intros dest w a b Hw.
  rewrite <- (firstn_skipn w dest).
  set (d1 := firstn w dest). set (d2 := skipn w dest).
  assert (Hd1 : length d1 = w) by (apply firstn_length_le; exact Hw).
  rewrite <- Hd1. rewrite !memmove_app.
  replace (length d1 + length a)%nat with (length (d1 ++ a)) by apply length_app.
  rewrite (app_assoc d1 a). rewrite memmove_app.
  rewrite skipn_skipn, length_app, <- !app_assoc.
  do 3 f_equal. f_equal. lia.
Qed.

Lemma file_bytes_from_length :
  forall n hdr ft cs cluster rem bytes,
    0 <= rem -> 0 <= cs ->
    file_bytes_from n hdr ft cs cluster rem = Ok bytes ->
    Z.of_nat (length bytes) = rem.
Proof.
  induction n as [|n IH]; intros hdr ft cs cluster rem bytes Hrem Hcs H.
  - discriminate H.
  - cbn [file_bytes_from] in H. bind_ok H.
    destruct (Z.leb_spec rem cs) as [Hle|Hgt].
    + injection H as <-. rewrite load_bytes_length. lia.
    + bind_ok H.
      destruct (fat_is_end_of_clusterchain ft a0); [discriminate H|].
      destruct (fat_is_bad_cluster ft a0); [discriminate H|].
      bind_ok H. injection H as <-.
      rewrite length_app, load_bytes_length.
      apply IH in E1; lia.
Qed.

Lemma file_bytes_from_enough_fuel :
  forall n hdr ft cs cluster rem,
    0 <= rem -> 0 < cs -> rem / cs < Z.of_nat n ->
    file_bytes_from n hdr ft cs cluster rem <> Fault OutOfFuel.
Proof.
  induction n as [|n IH]; intros hdr ft cs cluster rem Hrem Hcs Hfuel.
  - pose proof (Z.div_pos rem cs Hrem Hcs). lia.
  - cbn [file_bytes_from].
    destruct (fat_get_pointer_to_cluster_data hdr cluster) as [data|f] eqn:Ed;
      cbn [bind].
    2:{ unfold fat_get_pointer_to_cluster_data, fat_get_sector_for_cluster,
          fat_get_first_data_sector, fat_get_RootDirSectors, udiv in Ed.
        destruct (BPB_BytsPerSec hdr =? 0); cbn [bind] in Ed;
          [injection Ed as <-; discriminate | discriminate Ed]. }
    destruct (Z.leb_spec rem cs) as [Hle|Hgt]; [discriminate|].
    destruct (fat_read_fat_entry hdr ft cluster 0) as [v|f] eqn:Ev; cbn [bind].
    2:{ unfold fat_read_fat_entry in Ev.
        destruct (if fat_type_eqb ft fat_unknown then fat_get_type hdr else Ok ft)
          as [t|g] eqn:Et; cbn [bind] in Ev.
        - destruct (fat_type_eqb t fat12_type);
            [injection Ev as <-; discriminate|].
          destruct (ASSERT (0 <? BPB_NumFATs hdr)) eqn:Ea; cbn [bind] in Ev.
          + unfold udiv, umod in Ev.
            destruct (BPB_BytsPerSec hdr =? 0); cbn [bind] in Ev;
              [injection Ev as <-; discriminate|].
            destruct (fat_type_eqb t fat16_type); discriminate Ev.
          + unfold ASSERT in Ea. destruct (0 <? BPB_NumFATs hdr);
              [discriminate Ea|]. injection Ea as <-. injection Ev as <-.
            discriminate.
        - injection Ev as <-.
          destruct (fat_type_eqb ft fat_unknown); [|discriminate Et].
          rewrite fat_get_type_classify in Et.
          unfold fat_CountofClusters, fat_get_RootDirSectors, udiv in Et.
          destruct (BPB_BytsPerSec hdr =? 0); cbn [bind] in Et;
            [injection Et as <-; discriminate|].
          destruct (BPB_SecPerClus hdr =? 0); cbn [bind] in Et;
            [injection Et as <-; discriminate | discriminate Et]. }
    destruct (fat_is_end_of_clusterchain ft v); [discriminate|].
    destruct (fat_is_bad_cluster ft v); [discriminate|].
    assert (Hdiv : (rem - cs) / cs = rem / cs - 1).
    { replace (rem - cs) with (rem + (-1) * cs) by lia.
      rewrite Z.div_add by lia. lia. }
    specialize (IH hdr ft cs v (rem - cs) ltac:(lia) Hcs ltac:(lia)).
    destruct (file_bytes_from n hdr ft cs v (rem - cs)); cbn [bind];
      [discriminate | congruence].
Qed.

Lemma read_clusters_refines :
  forall fuel hdr ft cs fsize cluster written dest_buf,
    0 <= cs -> 0 <= written <= fsize -> fsize < 4294967296 ->
    fsize <= Z.of_nat (length dest_buf) ->
    read_clusters fuel hdr ft cs fsize cluster written dest_buf
    = (bytes <- file_bytes_from fuel hdr ft cs cluster (fsize - written) ;;
       Ok (memmove dest_buf written bytes)).
Proof.
  induction fuel as [|fuel IH];
    intros hdr ft cs fsize cluster written dest_buf Hcs Hw Hfs Hdest.
  - reflexivity.
  - cbn [read_clusters file_bytes_from].
    destruct (fat_get_pointer_to_cluster_data hdr cluster) as [data|f];
      cbn [bind]; [|reflexivity].
    unfold size_t. rewrite (u32_small (fsize - written)) by lia.
    destruct (Z.leb_spec (fsize - written) cs) as [Hle|Hgt]; [reflexivity|].
    rewrite (u32_small (written + cs)) by lia.
    rewrite (u32_small (fsize - (written + cs))) by lia.
    replace (0 <? fsize - (written + cs)) with true
      by (symmetry; apply Z.ltb_lt; lia).
    cbn [ASSERT bind].
    destruct (fat_read_fat_entry hdr ft cluster 0) as [v|f]; cbn [bind];
      [|reflexivity].
    destruct (fat_is_end_of_clusterchain ft v); [reflexivity|].
    destruct (fat_is_bad_cluster ft v); cbn [negb ASSERT bind]; [reflexivity|].
    replace (written + cs <? fsize) with true by (symmetry; apply Z.ltb_lt; lia).
    rewrite IH; try lia.
    2:{ unfold memmove. rewrite !length_app, length_firstn, length_skipn,
          load_bytes_length. lia. }
    replace (fsize - (written + cs)) with (fsize - written - cs) by lia.
    destruct (file_bytes_from fuel hdr ft cs v (fsize - written - cs))
      as [rest|f]; cbn [bind]; [|reflexivity].
    f_equal.
    pose proof (memmove_memmove dest_buf (Z.to_nat written)
                  (load_bytes hdr data (Z.to_nat cs)) rest ltac:(lia)) as Hm.
    rewrite load_bytes_length in Hm.
    replace (Z.of_nat (Z.to_nat written)) with written in Hm by lia.
    replace (Z.of_nat (Z.to_nat written + Z.to_nat cs)) with (written + cs)
      in Hm by lia.
    exact Hm.
Qed.

(** C5. When [DIR_FileSize] fits the destination buffer,
    [fat_read_whole_file] does what the specification's chain walk says:
    from the entry's first cluster it copies, cluster after cluster, the
    whole cluster while more than a cluster remains and the remainder at
    the end; the [DIR_FileSize] bytes gathered this way become the first
    [DIR_FileSize] bytes of the buffer and the rest of the buffer is left
    as it was. An end-of-chain mark met while bytes remain ends the run in
    NOT_REACHED and a bad-cluster mark in a failed ASSERT (both are the
    faults of [file_bytes_from]). With a cluster size that is not 0, one
    round per cluster of the file is enough for the loop to end. *)
Theorem fat_read_whole_file_copies_file :
  forall fuel hdr entry dest_buf dest_buf_size,
    DIR_FileSize hdr entry <= dest_buf_size ->
    dest_buf_size = Z.of_nat (length dest_buf) ->
    let fsize := DIR_FileSize hdr entry in
    let cs := cluster_size hdr in
    fat_read_whole_file fuel hdr entry dest_buf dest_buf_size
    = (ft <- fat_get_type hdr ;;
       bytes <- file_bytes_from fuel hdr ft cs
                  (fat_get_first_cluster hdr entry) fsize ;;
       Ok (bytes ++ skipn (Z.to_nat fsize) dest_buf))
    /\ (forall dest',
           fat_read_whole_file fuel hdr entry dest_buf dest_buf_size = Ok dest' ->
           length dest' = length dest_buf
           /\ skipn (Z.to_nat fsize) dest' = skipn (Z.to_nat fsize) dest_buf
           /\ exists ft,
               fat_get_type hdr = Ok ft
               /\ file_bytes_from fuel hdr ft cs
                    (fat_get_first_cluster hdr entry) fsize
                  = Ok (firstn (Z.to_nat fsize) dest'))
    /\ (0 < cs -> fsize / cs < Z.of_nat fuel ->
        fat_read_whole_file fuel hdr entry dest_buf dest_buf_size
        <> Fault OutOfFuel).
Proof.
  intros fuel hdr entry dest_buf dest_buf_size Hfit Hsize fsize cs.
  pose proof (load32_range hdr (entry + 28)) as Hfs.
  fold (DIR_FileSize hdr entry) in Hfs. fold fsize in Hfs, Hfit.
  assert (Hcs : 0 <= cs) by (unfold cs, cluster_size; apply u32_range).
  assert (Heq :
    fat_read_whole_file fuel hdr entry dest_buf dest_buf_size
    = (ft <- fat_get_type hdr ;;
       bytes <- file_bytes_from fuel hdr ft cs
                  (fat_get_first_cluster hdr entry) fsize ;;
       Ok (bytes ++ skipn (Z.to_nat fsize) dest_buf))).
  { unfold fat_read_whole_file. fold fsize.
    replace (fsize <=? dest_buf_size) with true
      by (symmetry; apply Z.leb_le; exact Hfit).
    cbn [ASSERT bind].
    destruct (fat_get_type hdr) as [ft|f]; cbn [bind]; [|reflexivity].
    fold (cluster_size hdr). fold cs.
    rewrite read_clusters_refines by lia.
    rewrite Z.sub_0_r.
    destruct (file_bytes_from fuel hdr ft cs (fat_get_first_cluster hdr entry)
                fsize) as [bytes|f] eqn:Eb; cbn [bind]; [|reflexivity].
    apply file_bytes_from_length in Eb; [|lia|lia].
    unfold memmove. simpl. do 3 f_equal. lia. }
  split; [exact Heq|]. split.
  - intros dest' Hok. rewrite Heq in Hok.
    destruct (fat_get_type hdr) as [ft|f]; cbn [bind] in Hok; [|discriminate Hok].
    destruct (file_bytes_from fuel hdr ft cs (fat_get_first_cluster hdr entry)
                fsize) as [bytes|f] eqn:Eb; cbn [bind] in Hok;
      [|discriminate Hok].
    injection Hok as <-.
    pose proof (file_bytes_from_length _ _ _ _ _ _ _ (proj1 Hfs) Hcs Eb) as Hlen.
    assert (Hn : length bytes = Z.to_nat fsize) by lia.
    split; [|split].
    + rewrite length_app, length_skipn. lia.
    + rewrite <- Hn. rewrite <- (Nat.add_0_r (length bytes)) at 1.
      rewrite skipn_exact_plus. reflexivity.
    + exists ft. split; [reflexivity|].
      rewrite <- Hn, firstn_exact. exact Eb.
  - intros Hcs0 Hfuel. rewrite Heq.
    destruct (fat_get_type hdr) as [ft|f] eqn:Et; cbn [bind].
    + pose proof (file_bytes_from_enough_fuel fuel hdr ft cs
                    (fat_get_first_cluster hdr entry) fsize
                    ltac:(lia) Hcs0 Hfuel) as Hne.
      destruct (file_bytes_from fuel hdr ft cs (fat_get_first_cluster hdr entry)
                  fsize); cbn [bind]; [discriminate | exact Hne].
    + rewrite fat_get_type_classify in Et.
      unfold fat_CountofClusters, fat_get_RootDirSectors, udiv in Et.
      destruct (BPB_BytsPerSec hdr =? 0); cbn [bind] in Et;
        [injection Et as <-; discriminate|].
      destruct (BPB_SecPerClus hdr =? 0); cbn [bind] in Et;
        [injection Et as <-; discriminate | discriminate Et].
Qed.

(** HELLO.TXT of the sample volume: 700 bytes over the clusters 5 and 6,
    read into a buffer of 702 bytes. *)
Lemma fat_read_whole_file_copies_file_witness :
  fat_read_whole_file 2 sample_hdr 17056 (repeat 9 702) 702
  = Ok (sample_file_bytes ++ [9; 9])
  /\ fat_read_whole_file 2 sample_hdr 17056 (repeat 9 702) 702
     <> Fault OutOfFuel.
Proof.
  destruct (fat_read_whole_file_copies_file 2 sample_hdr 17056 (repeat 9 702)
              702 ltac:(vm_compute; discriminate) eq_refl) as [Heq [_ Hfuel]].
  split.
  - rewrite Heq. vm_compute. reflexivity.
  - apply Hfuel; vm_compute; reflexivity.
Defined.

(** SHORT.TXT claims 1200 bytes on a chain of two clusters, and the FAT
    entry of BADCLUS.TXT's first cluster is the bad-cluster mark. *)
Example read_whole_file_end_of_chain_too_early :
  fat_read_whole_file 5 sample_hdr 17152 (repeat 0 1200) 1200
  = Fault NotReached.
Proof. vm_compute. reflexivity. Qed.

Example read_whole_file_bad_cluster :
  fat_read_whole_file 5 sample_hdr 17184 (repeat 0 700) 700
  = Fault AssertFailed.
Proof. vm_compute. reflexivity. Qed.

(** ** C8: the long names the walker hands out *)

Lemma shortname_checksum_loop_range :
  forall n l s, 0 <= s < 256 -> 0 <= shortname_checksum_loop n l s < 256.
Proof.
  induction n as [|n IH]; intros l s Hs; simpl; [exact Hs|].
  apply IH. apply u8_range.
Qed.

Lemma shortname_checksum_range :
  forall l, 0 <= shortname_checksum l < 256.
Proof. intro l. apply shortname_checksum_loop_range. lia. Qed.

Lemma valid_char_nonzero :
  forall c, fat32_is_valid_filename_character c = true -> c <> 0.
Proof. intros c H ->. vm_compute in H. discriminate H. Qed.

Lemma valid_chars_no_nul :
  forall cs,
    Forall (fun c => fat32_is_valid_filename_character c = true) cs ->
    ~ In 0 cs.
Proof.
  intros cs H Hin. rewrite Forall_forall in H.
  apply (valid_char_nonzero 0 (H 0 Hin)). reflexivity.
Qed.

Lemma append_chars_spec :
  forall cs ctx ctx',
    append_chars cs ctx = Ok ctx' ->
    lname_chksum ctx' = lname_chksum ctx
    /\ (is_valid ctx' = true ->
        is_valid ctx = true
        /\ Forall (fun c => fat32_is_valid_filename_character c = true) cs
        /\ lname_sz ctx' = lname_sz ctx + Z.of_nat (length cs)
        /\ (0 <= lname_sz ctx ->
            arr_prefix (lname_buf ctx') (Z.to_nat (lname_sz ctx'))
            = arr_prefix (lname_buf ctx) (Z.to_nat (lname_sz ctx)) ++ cs)).
Proof.
  induction cs as [|c cs IH]; intros ctx ctx' H.
  - simpl in H. injection H as <-. split; [reflexivity|]. intro Hv.
    repeat split; [exact Hv | constructor | simpl; lia |].
    intros _. rewrite app_nil_r. reflexivity.
  - cbn [append_chars] in H.
    destruct (fat32_is_valid_filename_character c) eqn:Hc; cbn [negb] in H.
    2:{ injection H as <-. split; [reflexivity|]. simpl. discriminate. }
    bind_ok H. unfold arr_set in E.
    destruct ((0 <=? lname_sz ctx) && (lname_sz ctx <? sizeof_lname_buf)) eqn:Hr;
      [|discriminate E].
    injection E as <-.
    apply andb_true_iff in Hr. destruct Hr as [H0 H1].
    apply Z.leb_le in H0. apply Z.ltb_lt in H1. unfold sizeof_lname_buf in H1.
    apply IH in H. cbn [lname_chksum is_valid lname_sz lname_buf] in H.
    rewrite s16_small in H by lia.
    destruct H as [Hchk Hrest]. split; [exact Hchk|].
    intro Hv. destruct (Hrest Hv) as [Hv0 [Hall [Hsz Hpre]]].
    repeat split; [exact Hv0 | constructor; assumption | simpl length; lia |].
    intros _. rewrite Hpre by lia.
    replace (Z.to_nat (lname_sz ctx + 1)) with (S (Z.to_nat (lname_sz ctx)))
      by lia.
    rewrite arr_prefix_S, nth_upd_same, arr_prefix_upd by lia.
    rewrite <- app_assoc. reflexivity.
Qed.

Lemma run_name_snoc :
  forall hdr run le cs,
    slot_chars hdr le = Some cs ->
    run_name hdr (run ++ [le]) = cs ++ run_name hdr run.
Proof.
  intros hdr run le cs H. unfold run_name.
  rewrite rev_app_distr. simpl. rewrite H. reflexivity.
Qed.

Lemma holds_run_extend :
  forall hdr ctx ctx' run le cs,
    holds_run hdr ctx run ->
    is_long_name_entry hdr le = true ->
    LDIR_Chksum hdr le = lname_chksum ctx ->
    slot_chars hdr le = Some cs ->
    append_chars (rev cs) ctx = Ok ctx' ->
    is_valid ctx' = true ->
    holds_run hdr ctx' (run ++ [le]).
Proof.
  intros hdr ctx ctx' run le cs [Hall [Hsz Hpre]] Hlong Hchk Hcs Happ Hv.
  destruct (append_chars_spec _ _ _ Happ) as [Hchk' Hrest].
  destruct (Hrest Hv) as [_ [Hvalid [Hsz' Hpre']]].
  unfold holds_run. rewrite Hchk'. split; [|split].
  - apply Forall_app. split; [exact Hall|].
    constructor; [|constructor].
    split; [exact Hlong|]. split; [exact Hchk|].
    exists cs. split; [exact Hcs|].
    apply Forall_rev in Hvalid. rewrite rev_involutive in Hvalid. exact Hvalid.
  - lia.
  - rewrite Hpre' by exact Hsz. rewrite Hpre.
    rewrite (run_name_snoc hdr run le cs Hcs).
    rewrite rev_app_distr. reflexivity.
Qed.

Lemma c_str_app :
  forall a l, ~ In 0 a -> c_str (a ++ l) = a ++ c_str l.
Proof.
  induction a as [|c a IH]; intros l Hnz; [reflexivity|].
  simpl. destruct (Z.eqb_spec c 0) as [->|_].
  - exfalso. apply Hnz. left. reflexivity.
  - f_equal. apply IH. intro H. apply Hnz. right. exact H.
Qed.

Lemma c_str_at_nul : forall l, hd 0 l = 0 -> c_str l = [].
Proof. intros [|c t] H; simpl in *; [reflexivity | subst c; reflexivity]. Qed.

Lemma hd_skipn : forall n (l : list Z), hd 0 (skipn n l) = nth n l 0.
Proof.
  induction n as [|n IH]; intros [|c t]; simpl; try reflexivity. apply IH.
Qed.

Lemma run_name_valid :
  forall hdr chk run,
    Forall (slot_ok hdr chk) run ->
    Forall (fun c => fat32_is_valid_filename_character c = true)
           (run_name hdr run).
Proof.
  intros hdr chk run H. unfold run_name.
  apply Forall_rev in H. induction H as [|le rest Hle _ IH]; simpl.
  - constructor.
  - apply Forall_app. split; [|exact IH].
    destruct Hle as [_ [_ [cs [-> Hcs]]]]. exact Hcs.
Qed.

(** C8, as stated, fails on two counts. In the directory /E of the sample
    volume the first long-name slot carries another checksum than the
    second one, and the entry is still delivered with a long name, the one
    of the second slot alone. In the root directory the first slot of the
    long name has 0xFFFF padding units after its terminator, that is units
    with a nonzero high byte, and the entry is delivered with its long
    name. *)
Lemma long_name_delivered_despite_violations :
  (is_long_name_entry sample_hdr 20992 = true
   /\ is_long_name_entry sample_hdr 21024 = true
   /\ LDIR_Chksum sample_hdr 20992 = 213
   /\ LDIR_Chksum sample_hdr 21024 = 212
   /\ shortname_checksum (DIR_Name sample_hdr 21056) = 212
   /\ callbacks_of (fat_walk_directory record_cb 5 empty_walk_ctx sample_hdr
                      fat16_type None 9 [])
      = Some ([(21056, Some lfn_part1)], 0))
  /\ (is_long_name_entry sample_hdr 16928 = true
      /\ LDIR_Name3 sample_hdr 16928 = [0xFF; 0xFF; 0xFF; 0xFF]
      /\ option_map (fun p => hd_error (fst p))
           (callbacks_of (fat_walk_directory record_cb 5 empty_walk_ctx
                            sample_hdr fat16_type (Some 16896) 0 []))
         = Some (Some (16992, Some (lfn_part1 ++ lfn_part2)))).
Proof. vm_compute. repeat split; reflexivity. Qed.

(** * Further properties of the code *)

(** ** The filename whitelist *)

(** X1. [fat32_is_valid_filename_character] looks only at the low 8 bits
    of its argument and accepts exactly the bytes 35..126 other than
    '*', '/', ':', '<', '>', '?', backslash and '|'; in particular it
    rejects NUL, space, '!', the double quote, the path separator and
    every byte from 127 on. *)
Theorem fat32_valid_chars_characterized :
  forall c,
    fat32_is_valid_filename_character c = whitelisted (u8 c)
    /\ fat32_is_valid_filename_character (c + 256)
       = fat32_is_valid_filename_character c
    /\ (fat32_is_valid_filename_character c = true ->
        35 <= u8 c <= 126 /\ u8 c <> 47 /\ u8 c <> 92).
Proof.
  intro c.
  assert (Hb : forall b, 0 <= b < 256 ->
                 fat32_is_valid_filename_character b = whitelisted b).
  { intros b Hb. apply Bool.eqb_prop.
    apply (below_256_cases
             (fun b => Bool.eqb (fat32_is_valid_filename_character b)
                         (whitelisted b))); [vm_compute; reflexivity | exact Hb]. }
  assert (Hu : fat32_is_valid_filename_character c
               = fat32_is_valid_filename_character (u8 c)).
  { unfold fat32_is_valid_filename_character, u8.
    rewrite Z.mod_mod by lia. reflexivity. }
  assert (E : fat32_is_valid_filename_character c = whitelisted (u8 c)).
  { rewrite Hu. apply Hb. apply u8_range. }
  split; [exact E|]. split.
  - unfold fat32_is_valid_filename_character, u8.
    replace (c + 256) with (c + 1 * 256) by lia.
    rewrite Z.mod_add by lia. reflexivity.
  - rewrite E. unfold whitelisted. intro H.
    apply andb_true_iff in H. destruct H as [H Hex].
    apply andb_true_iff in H. destruct H as [H1 H2].
    apply Z.leb_le in H1. apply Z.leb_le in H2.
    apply negb_true_iff in Hex.
    split; [lia|].
    split; intro Heq; rewrite Heq in Hex; discriminate Hex.
Qed.

(** ** fat_get_short_name *)

Lemma copy_name_part_length :
  forall name low, (length (copy_name_part name low) <= length name)%nat.
Proof.
  induction name as [|c rest IH]; intro low; simpl; [lia|].
  destruct (c =? 32); simpl; [lia|]. specialize (IH low). lia.
Qed.

Lemma load_bytes_range :
  forall hdr n a, Forall (fun b => 0 <= b < 256) (load_bytes hdr a n).
Proof.
  induction n as [|n IH]; intro a; simpl; constructor;
    [apply load8_range | apply IH].
Qed.

Lemma tolower_byte :
  forall c, 0 <= c < 256 -> c <> 32 ->
    0 <= u8 (tolower c) < 256 /\ u8 (tolower c) <> 32 /\ u8 (tolower c) <> 0 \/
    c = 0.
Proof.
  intros c Hc H32. destruct (Z.eq_dec c 0) as [->|H0]; [right; reflexivity|].
  left. unfold tolower.
  destruct ((65 <=? c) && (c <=? 90)) eqn:E.
  - apply andb_true_iff in E. destruct E as [E1 E2].
    apply Z.leb_le in E1. apply Z.leb_le in E2.
    unfold u8. rewrite Z.mod_small by lia. lia.
  - unfold u8. rewrite Z.mod_small by lia. lia.
Qed.

Lemma copy_name_part_no_space :
  forall name low,
    Forall (fun b => 0 <= b < 256) name ->
    ~ In 32 (copy_name_part name low).
Proof.
  induction name as [|c rest IH]; intros low Hr; simpl; [tauto|].
  inversion Hr as [|? ? Hc Hrest]; subst.
  destruct (Z.eqb_spec c 32) as [|Hne]; simpl; [tauto|].
  intros [H|H]; [|exact (IH low Hrest H)].
  destruct low; [|congruence].
  destruct (tolower_byte c Hc Hne) as [[_ [H32 _]] | ->];
    [congruence | vm_compute in H; discriminate H].
Qed.

Lemma firstn_Forall :
  forall (P : Z -> Prop) n l, Forall P l -> Forall P (firstn n l).
Proof.
  intros P n l H. revert n.
  induction H as [|x l Hx _ IH]; intros [|n]; simpl; constructor; auto.
Qed.

Lemma skipn_Forall :
  forall (P : Z -> Prop) n l, Forall P l -> Forall P (skipn n l).
Proof.
  intros P n l H. revert n.
  induction H as [|x l Hx Hl IH]; intros [|n]; simpl; auto.
Qed.

(** X2. The name [fat_get_short_name] stores has at most 12 bytes (8, a
    dot and 3), so with its NUL it fits the 16 bytes of [shortname], and
    it holds no space. *)
Theorem fat_get_short_name_bounded :
  forall hdr entry,
    (length (fat_get_short_name hdr entry) <= 12)%nat
    /\ ~ In 32 (fat_get_short_name hdr entry).
Proof.
  intros hdr entry. unfold fat_get_short_name.
  set (name := DIR_Name hdr entry).
  assert (Hlen : length name = 11%nat) by apply load_bytes_length.
  assert (Hr : Forall (fun b => 0 <= b < 256) name) by apply load_bytes_range.
  set (lb := negb (Z.land (DIR_NTRes hdr entry) FAT_ENTRY_NTRES_BASE_LOW_CASE =? 0)).
  set (le := negb (Z.land (DIR_NTRes hdr entry) FAT_ENTRY_NTRES_EXT_LOW_CASE =? 0)).
  pose proof (copy_name_part_length (firstn 8 name) lb) as H1.
  pose proof (copy_name_part_length (skipn 8 name) le) as H2.
  rewrite length_firstn in H1. rewrite length_skipn in H2.
  pose proof (copy_name_part_no_space (firstn 8 name) lb
                (firstn_Forall _ _ _ Hr)) as N1.
  pose proof (copy_name_part_no_space (skipn 8 name) le
                (skipn_Forall _ _ _ Hr)) as N2.
  destruct (negb (nth 8 name 0 =? 32)).
  - split.
    + rewrite length_app. cbn [app length]. lia.
    + intro H. apply in_app_or in H. destruct H as [H|H]; [exact (N1 H)|].
      cbn [app] in H. destruct H as [H|H]; [discriminate H | exact (N2 H)].
  - split; [lia | exact N1].
Qed.

Lemma copy_name_part_padded :
  forall part k low,
    ~ In 32 part ->
    copy_name_part (part ++ repeat 32 k) low
    = map (fun c => if low then u8 (tolower c) else c) part.
Proof.
  induction part as [|c rest IH]; intros k low Hns.
  - destruct k; reflexivity.
  - simpl. destruct (Z.eqb_spec c 32) as [->|_].
    + exfalso. apply Hns. left. reflexivity.
    + f_equal. apply IH. intro H. apply Hns. right. exact H.
Qed.

Lemma pad_spaces_length :
  forall n part, (length part <= n)%nat -> length (pad_spaces n part) = n.
Proof.
  intros n part H. unfold pad_spaces. rewrite length_app, repeat_length. lia.
Qed.

(** X3. Decoding undoes the 8.3 padding: for an entry whose [DIR_Name]
    is a base name of at most 8 bytes and an extension of at most 3
    bytes, neither with a space, each padded with spaces,
    [fat_get_short_name] gives the base name, then a dot and the
    extension when there is one, each part lowered when its [DIR_NTRes]
    flag is set. *)
Theorem fat_get_short_name_of_name83 :
  forall hdr entry base ext,
    DIR_Name hdr entry = name83 base ext ->
    ~ In 32 base -> ~ In 32 ext ->
    (length base <= 8)%nat -> (length ext <= 3)%nat ->
    fat_get_short_name hdr entry
    = map (part_case hdr entry FAT_ENTRY_NTRES_BASE_LOW_CASE) base ++
      match ext with
      | [] => []
      | _ :: _ => 46 :: map (part_case hdr entry FAT_ENTRY_NTRES_EXT_LOW_CASE) ext
      end.
Proof.
  intros hdr entry base ext Hname Hb He Lb Le.
  unfold fat_get_short_name. rewrite Hname. unfold name83.
  pose proof (pad_spaces_length 8 base Lb) as L8.
  assert (Hfirst : firstn 8 (pad_spaces 8 base ++ pad_spaces 3 ext)
                   = pad_spaces 8 base).
  { rewrite <- L8 at 1. apply firstn_exact. }
  assert (Hskip : skipn 8 (pad_spaces 8 base ++ pad_spaces 3 ext)
                  = pad_spaces 3 ext).
  { rewrite <- L8 at 1. rewrite <- (Nat.add_0_r (length (pad_spaces 8 base))).
    apply skipn_exact_plus. }
  assert (Hnth : nth 8 (pad_spaces 8 base ++ pad_spaces 3 ext) 0
                 = hd 0 (pad_spaces 3 ext)).
  { rewrite <- hd_skipn, Hskip. reflexivity. }
  rewrite Hfirst, Hskip, Hnth. unfold pad_spaces, part_case.
  rewrite !copy_name_part_padded by assumption.
  destruct ext as [|x ext'].
  - cbn [app length Nat.sub repeat hd Z.eqb Pos.eqb negb].
    rewrite app_nil_r. reflexivity.
  - cbn [app hd].
    destruct (Z.eqb_spec x 32) as [->|_].
    + exfalso. apply He. left. reflexivity.
    + reflexivity.
Qed.

(** HELLO.TXT of the sample volume. *)
Lemma fat_get_short_name_of_name83_witness :
  fat_get_short_name sample_hdr 17056
  = [72; 69; 76; 76; 79] ++ 46 :: [84; 88; 84].
Proof.
  refine (fat_get_short_name_of_name83 sample_hdr 17056 [72; 69; 76; 76; 79]
            [84; 88; 84] eq_refl _ _ _ _).
  - intro H. simpl in H. repeat (destruct H as [H|H]; [discriminate H|]). exact H.
  - intro H. simpl in H. repeat (destruct H as [H|H]; [discriminate H|]). exact H.
  - simpl. lia.
  - simpl. lia.
Defined.

(** ** The layout of the volume *)

(** X4. On FAT16 the root directory is not a cluster chain and the data
    region starts right behind it: [fat_get_rootdir] gives cluster 0 and
    the byte offset of sector [reserved + NumFATs * FATSz16], and
    cluster 2 starts [RootDirSectors] sectors further (for a header with
    a nonzero [BPB_FATSz16] whose offsets fit 32 bits). *)
Theorem fat16_root_precedes_data :
  forall hdr root cluster rds p2,
    BPB_FATSz16 hdr <> 0 ->
    0 <= BPB_BytsPerSec hdr -> 0 <= BPB_RsvdSecCnt hdr ->
    0 <= BPB_NumFATs hdr * BPB_FATSz16 hdr ->
    fat_get_rootdir hdr fat16_type = Ok (root, cluster) ->
    fat_get_RootDirSectors hdr = Ok rds ->
    fat_get_pointer_to_cluster_data hdr 2 = Ok p2 ->
    (BPB_RsvdSecCnt hdr + BPB_NumFATs hdr * BPB_FATSz16 hdr + rds)
      * BPB_BytsPerSec hdr < 4294967296 ->
    cluster = 0
    /\ root = (BPB_RsvdSecCnt hdr + BPB_NumFATs hdr * BPB_FATSz16 hdr)
              * BPB_BytsPerSec hdr
    /\ p2 = root + rds * BPB_BytsPerSec hdr.
Proof.
  intros hdr root cluster rds p2 Hsz Hbps Hrsvd Hfat Hroot Hrds Hp2 Hfit.
  assert (Hb0 : BPB_BytsPerSec hdr <> 0).
  { intro E. unfold fat_get_RootDirSectors, udiv in Hrds.
    rewrite E in Hrds. discriminate Hrds. }
  assert (Hrds0 : 0 <= rds).
  { unfold fat_get_RootDirSectors, udiv in Hrds.
    destruct (BPB_BytsPerSec hdr =? 0); [discriminate Hrds|].
    injection Hrds as <-. apply Z.div_pos; [apply u32_range | lia]. }
  set (bps := BPB_BytsPerSec hdr) in *.
  set (fat := BPB_NumFATs hdr * BPB_FATSz16 hdr) in *.
  set (rsvd := BPB_RsvdSecCnt hdr) in *.
  assert (Hsec : rsvd + fat + rds <= (rsvd + fat + rds) * bps) by nia.
  assert (Hsec1 : (rsvd + fat) * bps <= (rsvd + fat + rds) * bps) by nia.
  assert (Hsec2 : rsvd + fat <= (rsvd + fat) * bps) by nia.
  unfold fat_get_rootdir in Hroot. cbn [fat_type_eqb negb ASSERT bind] in Hroot.
  fold fat rsvd bps in Hroot.
  rewrite (u32_small fat) in Hroot by lia.
  rewrite (u32_small (rsvd + fat)) in Hroot by lia.
  rewrite (u32_small (bps * (rsvd + fat))) in Hroot by lia.
  injection Hroot as <- <-.
  unfold fat_get_pointer_to_cluster_data, fat_get_sector_for_cluster,
    fat_get_first_data_sector in Hp2.
  rewrite Hrds in Hp2. cbn [bind] in Hp2.
  replace (negb (BPB_FATSz16 hdr =? 0)) with true in Hp2
    by (symmetry; apply negb_true_iff, Z.eqb_neq; exact Hsz).
  fold fat rsvd bps in Hp2.
  rewrite (u32_small fat) in Hp2 by lia.
  rewrite (u32_small (rsvd + fat + rds)) in Hp2 by lia.
  change (u32 (2 - 2)) with 0 in Hp2. rewrite Z.mul_0_l in Hp2.
  change (u32 0) with 0 in Hp2. rewrite Z.add_0_l in Hp2.
  rewrite (u32_small (rsvd + fat + rds)) in Hp2 by lia.
  rewrite (u32_small ((rsvd + fat + rds) * bps)) in Hp2 by lia.
  injection Hp2 as <-.
  split; [reflexivity|]. split; lia.
Qed.

Lemma fat16_root_precedes_data_witness :
  fat_get_rootdir sample_hdr fat16_type = Ok (16896, 0)
  /\ fat_get_RootDirSectors sample_hdr = Ok 1
  /\ fat_get_pointer_to_cluster_data sample_hdr 2 = Ok 17408
  /\ 17408 = 16896 + 1 * BPB_BytsPerSec sample_hdr.
Proof.
  split; [reflexivity|]. split; [reflexivity|]. split; [reflexivity|].
  refine (proj2 (proj2 (fat16_root_precedes_data sample_hdr 16896 0 1 17408
                          _ _ _ _ eq_refl eq_refl eq_refl _))); vm_compute;
    (reflexivity || discriminate).
Defined.

(** X5. Clusters lie back to back in the data region: when the offsets
    fit 32 bits, the data of cluster [N >= 2] starts [N - 2] cluster
    sizes after the first data sector, and the data of cluster [N + 1]
    starts exactly one cluster size (the unit [fat_read_whole_file]
    copies) after the data of cluster [N]. *)
Theorem cluster_data_contiguous :
  forall hdr N fds,
    0 < BPB_SecPerClus hdr -> 0 <= BPB_BytsPerSec hdr -> 2 <= N ->
    fat_get_first_data_sector hdr = Ok fds ->
    ((N - 1) * BPB_SecPerClus hdr + fds) * BPB_BytsPerSec hdr < 4294967296 ->
    cluster_size hdr = BPB_SecPerClus hdr * BPB_BytsPerSec hdr
    /\ fat_get_pointer_to_cluster_data hdr N
       = Ok (fds * BPB_BytsPerSec hdr + (N - 2) * cluster_size hdr)
    /\ fat_get_pointer_to_cluster_data hdr (N + 1)
       = Ok (fds * BPB_BytsPerSec hdr + (N - 2) * cluster_size hdr
             + cluster_size hdr).
Proof.
  intros hdr N fds Hspc Hbps HN Hfds Hfit.
  assert (Hb0 : 0 < BPB_BytsPerSec hdr).
  { assert (BPB_BytsPerSec hdr <> 0); [|lia].
    intro E. unfold fat_get_first_data_sector, fat_get_RootDirSectors, udiv
      in Hfds. rewrite E in Hfds. discriminate Hfds. }
  assert (Hfds0 : 0 <= fds).
  { unfold fat_get_first_data_sector in Hfds.
    destruct (fat_get_RootDirSectors hdr); cbn [bind] in Hfds;
      [|discriminate Hfds].
    injection Hfds as <-. apply u32_range. }
  set (spc := BPB_SecPerClus hdr) in *.
  set (bps := BPB_BytsPerSec hdr) in *.
  assert (H3 : N - 1 <= (N - 1) * spc) by nia.
  assert (H4 : spc <= (N - 1) * spc) by nia.
  assert (H8 : 0 <= (N - 2) * spc) by nia.
  assert (H7 : (N - 2) * spc + fds <= (N - 1) * spc + fds) by nia.
  assert (H1 : (N - 1) * spc + fds <= ((N - 1) * spc + fds) * bps)
    by (apply Z.le_mul_diag_r; lia).
  assert (H6 : ((N - 2) * spc + fds) * bps <= ((N - 1) * spc + fds) * bps)
    by (apply Z.mul_le_mono_nonneg_r; lia).
  assert (H2 : spc * bps <= ((N - 1) * spc + fds) * bps)
    by (apply Z.mul_le_mono_nonneg_r; lia).
  assert (H5 : bps <= spc * bps) by nia.
  assert (Hcs : cluster_size hdr = spc * bps).
  { unfold cluster_size. fold spc bps.
    rewrite (u32_small spc), (u32_small bps), (u32_small (spc * bps)) by lia.
    reflexivity. }
  split; [exact Hcs|]. rewrite Hcs.
  unfold fat_get_pointer_to_cluster_data, fat_get_sector_for_cluster.
  rewrite Hfds. cbn [bind]. fold spc bps.
  split.
  - rewrite (u32_small (N - 2)) by lia.
    rewrite (u32_small ((N - 2) * spc)) by lia.
    rewrite (u32_small ((N - 2) * spc + fds)) by lia.
    rewrite (u32_small (((N - 2) * spc + fds) * bps)) by lia.
    f_equal. lia.
  - replace (N + 1 - 2) with (N - 1) by lia.
    rewrite (u32_small (N - 1)) by lia.
    rewrite (u32_small ((N - 1) * spc)) by lia.
    rewrite (u32_small ((N - 1) * spc + fds)) by lia.
    rewrite (u32_small (((N - 1) * spc + fds) * bps)) by lia.
    f_equal. lia.
Qed.

Lemma cluster_data_contiguous_witness :
  cluster_size sample_hdr = 1 * 512
  /\ fat_get_pointer_to_cluster_data sample_hdr 5
     = Ok (34 * 512 + (5 - 2) * cluster_size sample_hdr)
  /\ fat_get_pointer_to_cluster_data sample_hdr (5 + 1)
     = Ok (34 * 512 + (5 - 2) * cluster_size sample_hdr
           + cluster_size sample_hdr).
Proof.
  refine (cluster_data_contiguous sample_hdr 5 34 _ _ _ eq_refl _);
    vm_compute; (reflexivity || discriminate).
Defined.

(** ** Small files *)

(** X6. A file that fits one cluster is copied from its first cluster
    without any look at the FAT: [fat_read_whole_file] returns the
    [DIR_FileSize] bytes at the cluster's data pointer followed by the
    untouched rest of the buffer, in its first round; for an empty file
    the buffer comes back unchanged. *)
Theorem fat_read_whole_file_single_cluster :
  forall fuel hdr entry dest_buf dest_buf_size ft data,
    DIR_FileSize hdr entry <= dest_buf_size ->
    dest_buf_size = Z.of_nat (length dest_buf) ->
    DIR_FileSize hdr entry <= cluster_size hdr ->
    fat_get_type hdr = Ok ft ->
    fat_get_pointer_to_cluster_data hdr (fat_get_first_cluster hdr entry)
    = Ok data ->
    fat_read_whole_file (S fuel) hdr entry dest_buf dest_buf_size
    = Ok (load_bytes hdr data (Z.to_nat (DIR_FileSize hdr entry))
          ++ skipn (Z.to_nat (DIR_FileSize hdr entry)) dest_buf)
    /\ (DIR_FileSize hdr entry = 0 ->
        fat_read_whole_file (S fuel) hdr entry dest_buf dest_buf_size
        = Ok dest_buf).
Proof.
  intros fuel hdr entry dest_buf dest_buf_size ft data Hfit Hsize Hone Ht Hp.
  pose proof (load32_range hdr (entry + 28)) as Hfs.
  fold (DIR_FileSize hdr entry) in Hfs.
  assert (Hcs : 0 <= cluster_size hdr) by (unfold cluster_size; apply u32_range).
  assert (E : fat_read_whole_file (S fuel) hdr entry dest_buf dest_buf_size
              = Ok (load_bytes hdr data (Z.to_nat (DIR_FileSize hdr entry))
                    ++ skipn (Z.to_nat (DIR_FileSize hdr entry)) dest_buf)).
  { unfold fat_read_whole_file.
    replace (DIR_FileSize hdr entry <=? dest_buf_size) with true
      by (symmetry; apply Z.leb_le; exact Hfit).
    cbn [ASSERT bind]. rewrite Ht. cbn [bind].
    fold (cluster_size hdr).
    rewrite read_clusters_refines by lia.
    rewrite Z.sub_0_r. cbn [file_bytes_from]. rewrite Hp. cbn [bind].
    replace (DIR_FileSize hdr entry <=? cluster_size hdr) with true
      by (symmetry; apply Z.leb_le; exact Hone).
    cbn [bind]. unfold memmove. simpl firstn. cbn [app].
    rewrite load_bytes_length. reflexivity. }
  split; [exact E|].
  intro H0. rewrite E, H0. reflexivity.
Qed.

(** The five bytes of the long-named file of the sample volume. *)
Lemma fat_read_whole_file_single_cluster_witness :
  fat_read_whole_file 1 sample_hdr 16992 (repeat 0 8) 8
  = Ok ([72; 101; 108; 108; 111] ++ [0; 0; 0]).
Proof.
  exact (proj1 (fat_read_whole_file_single_cluster 0 sample_hdr 16992
                  (repeat 0 8) 8 fat16_type 18432
                  ltac:(vm_compute; discriminate) eq_refl
                  ltac:(vm_compute; discriminate) eq_refl eq_refl)).
Defined.

(** ** fat_get_used_bytes *)

Lemma used_bytes_loop_spec :
  forall n hdr c N,
    0 <= c -> c + Z.of_nat n < 4294967296 ->
    used_bytes_loop n hdr c = Ok N ->
    c <= N <= c + Z.of_nat n
    /\ (forall k, c <= k < N ->
          exists v, fat_read_fat_entry hdr fat_unknown k 0 = Ok v /\ v <> 0)
    /\ (N < c + Z.of_nat n -> fat_read_fat_entry hdr fat_unknown N 0 = Ok 0).
Proof.
  induction n as [|n IH]; intros hdr c N Hc Hfit H.
  - simpl in H. injection H as <-. split; [simpl; lia|].
    split; [intros k Hk; lia | simpl; lia].
  - cbn [used_bytes_loop] in H.
    destruct (fat_read_fat_entry hdr fat_unknown c 0) as [v|f] eqn:Ev;
      cbn [bind] in H; [|discriminate H].
    destruct (Z.eqb_spec v 0) as [->|Hv].
    + injection H as <-. split; [lia|].
      split; [intros k Hk; lia | intros _; exact Ev].
    + rewrite u32_small in H by lia.
      apply IH in H; [|lia|lia].
      destruct H as [Hr [Hall Hzero]].
      split; [lia|]. split.
      * intros k Hk. destruct (Z.eq_dec k c) as [->|Hne].
        -- exists v. split; [exact Ev | exact Hv].
        -- apply Hall. lia.
      * intro HN. apply Hzero. lia.
Qed.

(** X7. [fat_get_used_bytes] returns the data pointer of the first
    cluster number, counted from 0, whose FAT entry is 0, or of the
    cluster count [TotSec / SecPerClus] when no entry below it is 0: every
    entry before that number was read and is not 0. *)
Theorem fat_get_used_bytes_first_free :
  forall hdr b,
    0 < BPB_SecPerClus hdr ->
    0 <= fat_get_TotSec hdr < 4294967296 ->
    fat_get_used_bytes hdr = Ok b ->
    exists N,
      0 <= N <= fat_get_TotSec hdr / BPB_SecPerClus hdr
      /\ fat_get_pointer_to_cluster_data hdr N = Ok b
      /\ (forall k, 0 <= k < N ->
            exists v, fat_read_fat_entry hdr fat_unknown k 0 = Ok v /\ v <> 0)
      /\ (N < fat_get_TotSec hdr / BPB_SecPerClus hdr ->
          fat_read_fat_entry hdr fat_unknown N 0 = Ok 0).
Proof.
  intros hdr b Hspc Htot H. unfold fat_get_used_bytes, udiv in H.
  replace (BPB_SecPerClus hdr =? 0) with false in H
    by (symmetry; apply Z.eqb_neq; lia).
  cbn [bind] in H.
  set (cc := fat_get_TotSec hdr / BPB_SecPerClus hdr) in *.
  assert (Hcc : 0 <= cc < 4294967296).
  { unfold cc. split; [apply Z.div_pos; lia|].
    apply Z.div_lt_upper_bound; [lia|]. nia. }
  destruct (used_bytes_loop (Z.to_nat cc) hdr 0) as [N|f] eqn:El;
    cbn [bind] in H; [|discriminate H].
  apply used_bytes_loop_spec in El; [|lia|lia].
  rewrite Z2Nat.id in El by lia.
  destruct El as [Hr [Hall Hzero]].
  exists N. split; [lia|]. split.
  - unfold fat_get_pointer_to_cluster_data.
    destruct (fat_get_sector_for_cluster hdr N); cbn [bind] in *;
      [exact H | discriminate H].
  - split; [exact Hall|]. intro HN. apply Hzero. lia.
Qed.

(** On the sample volume the FAT entries 0..10 are in use and entry 11
    is 0. *)
Lemma fat_get_used_bytes_first_free_witness :
  fat_get_used_bytes sample_hdr = Ok 22016
  /\ exists N,
      0 <= N <= fat_get_TotSec sample_hdr / BPB_SecPerClus sample_hdr
      /\ fat_get_pointer_to_cluster_data sample_hdr N = Ok 22016
      /\ (forall k, 0 <= k < N ->
            exists v, fat_read_fat_entry sample_hdr fat_unknown k 0 = Ok v
                      /\ v <> 0)
      /\ (N < fat_get_TotSec sample_hdr / BPB_SecPerClus sample_hdr ->
          fat_read_fat_entry sample_hdr fat_unknown N 0 = Ok 0).
Proof.
  assert (E : fat_get_used_bytes sample_hdr = Ok 22016)
    by (vm_compute; reflexivity).
  split; [exact E|].
  apply (fat_get_used_bytes_first_free sample_hdr 22016);
    [reflexivity | vm_compute; split; [discriminate | reflexivity] | exact E].
Defined.

(** ** A walk is an iteration over the listing *)

Lemma iter_cb_app :
  forall (A : Type) (cb : fat_dentry_cb A) hdr ft l1 l2 a,
    iter_cb cb hdr ft (l1 ++ l2) a
    = match iter_cb cb hdr ft l1 a with
      | Ok (a', false) => iter_cb cb hdr ft l2 a'
      | other => other
      end.
Proof.
  intros A cb hdr ft l1 l2. induction l1 as [|[e ln] l1 IH]; intro a.
  - reflexivity.
  - cbn [app iter_cb].
    destruct (cb hdr ft e ln a) as [[a' ret]|f]; cbn [bind]; [|reflexivity].
    destruct (negb (ret =? 0)); [reflexivity | apply IH].
Qed.

Section Listing.

Variable A : Type.
Variable cb : fat_dentry_cb A.
Variable hdr : fat_header.
Variable ft : fat_type.

Lemma walk_slots_listing :
  forall n entry i ctx log0 ctx' log' ex,
    walk_slots record_cb n hdr ft entry i ctx log0 = Ok (ctx', log', ex) ->
    exists l,
      log' = log0 ++ l
      /\ forall a,
           follows_listing cb hdr ft (walk_slots cb n hdr ft entry i ctx a) l a
             (fun a' => Ok (ctx', a', ex))
             (fun ctx'' a' => (ctx'', a', Returned 0)).
Proof.
  induction n as [|n IH]; intros entry i ctx log0 ctx' log' ex H.
  - simpl in H. injection H as <- <- <-. exists []. split.
    + rewrite app_nil_r. reflexivity.
    + intro a. reflexivity.
  - rewrite walk_slots_S in H. cbv zeta in H.
    destruct (is_long_name_entry hdr (entry + sizeof_fat_entry * i)) eqn:Hl.
    { destruct (fat_handle_long_dir_entry hdr ctx
                  (entry + sizeof_fat_entry * i)) as [ctxl|f] eqn:E;
        cbn [bind] in H; [|discriminate H].
      apply IH in H. destruct H as [l [Hlog Hw]].
      exists l. split; [exact Hlog|]. intro a.
      rewrite walk_slots_S. cbv zeta. rewrite Hl, E. cbn [bind]. apply Hw. }
    destruct (volume_id hdr (entry + sizeof_fat_entry * i)) eqn:Hv.
    { apply IH in H. destruct H as [l [Hlog Hw]].
      exists l. split; [exact Hlog|]. intro a.
      rewrite walk_slots_S. cbv zeta. rewrite Hl, Hv. apply Hw. }
    destruct (DIR_Name0 hdr (entry + sizeof_fat_entry * i)
              =? FAT_ENTRY_DIRNAME_NO_MORE_ENTRIES) eqn:H0.
    { injection H as <- <- <-. exists []. split.
      - rewrite app_nil_r. reflexivity.
      - intro a. unfold follows_listing. cbn [iter_cb].
        rewrite walk_slots_S. cbv zeta. rewrite Hl, Hv, H0. reflexivity. }
    destruct (DIR_Name0 hdr (entry + sizeof_fat_entry * i)
              =? FAT_ENTRY_DIRNAME_EMPTY_DIR) eqn:HE.
    { injection H as <- <- <-. exists []. split.
      - rewrite app_nil_r. reflexivity.
      - intro a. unfold follows_listing. cbn [iter_cb].
        rewrite walk_slots_S. cbv zeta. rewrite Hl, Hv, H0, HE. reflexivity. }
    destruct (long_name_for hdr ctx (entry + sizeof_fat_entry * i))
      as [[ctx1 ln]|f] eqn:E; cbn [bind] in H; [|discriminate H].
    unfold record_cb at 1 in H. cbn [bind] in H.
    cbn [Z.eqb negb] in H.
    apply IH in H. destruct H as [l [Hlog Hw]].
    exists ((entry + sizeof_fat_entry * i, ln) :: l). split.
    + rewrite Hlog, <- app_assoc. reflexivity.
    + intro a. unfold follows_listing. cbn [iter_cb].
      rewrite walk_slots_S. cbv zeta. rewrite Hl, Hv, H0, HE, E. cbn [bind].
      destruct (cb hdr ft (entry + sizeof_fat_entry * i) ln a)
        as [[a1 ret]|f]; cbn [bind]; [|reflexivity].
      destruct (negb (ret =? 0)).
      * exists (reset_lname ctx1). reflexivity.
      * apply Hw.
Qed.

Lemma walk_clusters_listing :
  forall fuel epc entry cluster ctx log0 ctx' log' r,
    walk_clusters record_cb fuel epc hdr ft entry cluster ctx log0
    = Ok (ctx', log', r) ->
    exists l,
      log' = log0 ++ l
      /\ forall a,
           follows_listing cb hdr ft
             (walk_clusters cb fuel epc hdr ft entry cluster ctx a) l a
             (fun a' => Ok (ctx', a', 0))
             (fun ctx'' a' => (ctx'', a', 0)).
Proof.
  induction fuel as [|fuel IH];
    intros epc entry cluster ctx log0 ctx' log' r H.
  - discriminate H.
  - cbn [walk_clusters] in H.
    destruct (if negb (cluster =? 0)
              then p <- fat_get_pointer_to_cluster_data hdr cluster ;; Ok (Some p)
              else Ok entry) as [[e|]|f] eqn:Ee; cbn [bind] in H;
      try discriminate H.
    destruct (walk_slots record_cb (Z.to_nat epc) hdr ft e 0 ctx log0)
      as [[[c1 log1] ex]|f] eqn:Es; cbn [bind] in H; [|discriminate H].
    destruct (walk_slots_listing _ _ _ _ _ _ _ _ Es) as [l1 [Hlog1 Hw1]].
    assert (Hstep : forall a,
      walk_clusters cb (S fuel) epc hdr ft entry cluster ctx a
      = ('(c, a', x) <- walk_slots cb (Z.to_nat epc) hdr ft e 0 ctx a ;;
         match x with
         | Returned r' => Ok (c, a', r')
         | Exhausted =>
             if cluster =? 0 then Ok (c, a', 0)
             else
               val <- fat_read_fat_entry hdr ft cluster 0 ;;
               if fat_is_end_of_clusterchain ft val then Ok (c, a', 0)
               else
                 _ <- ASSERT (negb (fat_is_bad_cluster ft val)) ;;
                 walk_clusters cb fuel epc hdr ft (Some e) val c a'
         end)).
    { intro a. cbn [walk_clusters]. rewrite Ee. reflexivity. }
    destruct ex as [r1|].
    + (* the listing returned inside this chunk *)
      injection H as <- <- <-.
      assert (r1 = 0) by (eapply walk_slots_returns_zero; exact Es). subst r1.
      exists l1. split; [exact Hlog1|]. intro a.
      specialize (Hw1 a). unfold follows_listing in *. rewrite Hstep.
      destruct (iter_cb cb hdr ft l1 a) as [[a' [|]]|f].
      * destruct Hw1 as [c'' ->]. exists c''. reflexivity.
      * rewrite Hw1. reflexivity.
      * rewrite Hw1. reflexivity.
    + destruct (cluster =? 0) eqn:Ec.
      { injection H as <- <- <-.
        exists l1. split; [exact Hlog1|]. intro a.
        specialize (Hw1 a). unfold follows_listing in *. rewrite Hstep.
        destruct (iter_cb cb hdr ft l1 a) as [[a' [|]]|f].
        - destruct Hw1 as [c'' ->]. exists c''. reflexivity.
        - rewrite Hw1. cbn [bind]. reflexivity.
        - rewrite Hw1. reflexivity. }
      destruct (fat_read_fat_entry hdr ft cluster 0) as [val|f] eqn:Ev;
        cbn [bind] in H; [|discriminate H].
      destruct (fat_is_end_of_clusterchain ft val) eqn:Eeoc.
      { injection H as <- <- <-.
        exists l1. split; [exact Hlog1|]. intro a.
        specialize (Hw1 a). unfold follows_listing in *. rewrite Hstep.
        destruct (iter_cb cb hdr ft l1 a) as [[a' [|]]|f].
        - destruct Hw1 as [c'' ->]. exists c''. reflexivity.
        - rewrite Hw1. cbn [bind]. rewrite Eeoc. reflexivity.
        - rewrite Hw1. reflexivity. }
      destruct (ASSERT (negb (fat_is_bad_cluster ft val))) as [u|f] eqn:Ebad;
        cbn [bind] in H; [|discriminate H].
      apply IH in H. destruct H as [l2 [Hlog2 Hw2]].
      exists (l1 ++ l2). split.
      { rewrite Hlog2, Hlog1, app_assoc. reflexivity. }
      intro a. specialize (Hw1 a). unfold follows_listing in *.
      rewrite Hstep, iter_cb_app.
      destruct (iter_cb cb hdr ft l1 a) as [[a' [|]]|f].
      * destruct Hw1 as [c'' ->]. exists c''. reflexivity.
      * rewrite Hw1. cbn [bind]. rewrite Eeoc, Ebad. cbn [bind].
        apply Hw2.
      * rewrite Hw1. reflexivity.
Qed.

Lemma fat_walk_directory_listing :
  forall fuel ctx entry cluster ctx' log r,
    fat_walk_directory record_cb fuel ctx hdr ft entry cluster []
    = Ok (ctx', log, r) ->
    forall a,
      follows_listing cb hdr ft
        (fat_walk_directory cb fuel ctx hdr ft entry cluster a) log a
        (fun a' => Ok (ctx', a', 0))
        (fun ctx'' a' => (ctx'', a', 0)).
Proof.
  intros fuel ctx entry cluster ctx' log r H a.
  unfold fat_walk_directory in *.
  destruct (ASSERT (fat_type_eqb ft fat16_type || fat_type_eqb ft fat32_type));
    cbn [bind] in *; [|discriminate H].
  destruct (if fat_type_eqb ft fat16_type
            then ASSERT ((cluster =? 0) ||
                         match entry with None => true | Some _ => false end)
            else Ok tt); cbn [bind] in *; [|discriminate H].
  apply walk_clusters_listing in H. destruct H as [l [Hlog Hw]].
  simpl in Hlog. subst l. apply Hw.
Qed.

(** X8. The walker calls its callback on the entries of the directory
    listing, in order, up to the first call that returns nonzero: when a
    walk with the recording callback lists [log], a walk from the same
    place with any callback [cb] ends as the iteration of [cb] over [log]
    does, with the same callback state (and the same fault, when [cb]
    fails), and returns 0. *)
Theorem fat_walk_directory_follows_listing :
  forall fuel ctx entry cluster ctx' log r a,
    fat_walk_directory record_cb fuel ctx hdr ft entry cluster []
    = Ok (ctx', log, r) ->
    match iter_cb cb hdr ft log a with
    | Ok (a', _) =>
        exists ctx'',
          fat_walk_directory cb fuel ctx hdr ft entry cluster a
          = Ok (ctx'', a', 0)
    | Fault f => fat_walk_directory cb fuel ctx hdr ft entry cluster a = Fault f
    end.
Proof.
  intros fuel ctx entry cluster ctx' log r a H.
  pose proof (fat_walk_directory_listing _ _ _ _ _ _ _ H a) as Hw.
  unfold follows_listing in Hw.
  destruct (iter_cb cb hdr ft log a) as [[a' stopped]|f].
  - destruct stopped.
    + destruct Hw as [ctx'' Hw]. exists ctx''. exact Hw.
    + exists ctx'. exact Hw.
  - exact Hw.
Qed.

End Listing.

(** /A of the sample volume holds one entry; a callback that stops at
    once ends with that entry in its state. *)
Lemma fat_walk_directory_follows_listing_witness :
  exists ctx'',
    fat_walk_directory stop_cb 1 empty_walk_ctx sample_hdr fat16_type None 2 []
    = Ok (ctx'', [(17408, None)], 0).
Proof.
  refine (fat_walk_directory_follows_listing _ stop_cb sample_hdr fat16_type
            1 empty_walk_ctx None 2 _ [(17408, None)] 0 [] _).
  vm_compute. reflexivity.
Defined.

(** ** Looking up one name in the root directory *)

Lemma component_whole :
  forall comp,
    ~ In 0 comp -> ~ In 47 comp ->
    component comp = comp /\ after_component comp = [].
Proof.
  induction comp as [|c rest IH]; intros H0 H47; [split; reflexivity|].
  simpl.
  destruct (Z.eqb_spec c 0) as [->|_]; [exfalso; apply H0; left; reflexivity|].
  destruct (Z.eqb_spec c 47) as [->|_]; [exfalso; apply H47; left; reflexivity|].
  simpl. destruct IH as [IH1 IH2].
  - intro H. apply H0. right. exact H.
  - intro H. apply H47. right. exact H.
  - rewrite IH1, IH2. split; reflexivity.
Qed.

Lemma fat_search_entry_cb_searching :
  forall hdr ft comp e ln c,
    searching comp c ->
    if name_matches hdr comp (e, ln)
    then exists c', fat_search_entry_cb hdr ft e ln c = Ok (c', -1)
                    /\ result c' = Some e /\ not_dir c' = false
                    /\ subdir_cluster c' = 0
    else exists c', fat_search_entry_cb hdr ft e ln c = Ok (c', 0)
                    /\ searching comp c'.
Proof.
  intros hdr ft comp e ln c [Hpcl [Hpc [Hpath [Hsc [Hres [Hsub Hnd]]]]]].
  unfold fat_search_entry_cb.
  replace (pcl c =? 0) with false by (symmetry; apply Z.eqb_neq; exact Hpcl).
  destruct c as [p sc pc0 pcl0 sn res sub nd].
  cbn [path single_comp pc pcl shortname result subdir_cluster not_dir] in *.
  subst p sc res sub nd.
  rewrite fat_search_entry_cb_compare_unfold. cbv zeta.
  assert (Hd : compare_differs hdr e ln pc0
               = negb (name_matches hdr comp (e, ln))).
  { unfold compare_differs, name_matches. cbn [fst snd]. rewrite Hpc.
    destruct ln; reflexivity. }
  rewrite Hd.
  destruct (name_matches hdr comp (e, ln)); cbn [negb orb deref hd Z.eqb].
  - eexists. split; [reflexivity|]. cbn. auto.
  - eexists. split; [reflexivity|]. unfold searching. cbn.
    repeat split; assumption.
Qed.

Lemma iter_cb_searching :
  forall hdr ft comp l c,
    searching comp c ->
    exists c' b,
      iter_cb fat_search_entry_cb hdr ft l c = Ok (c', b)
      /\ result c' = option_map fst (find (name_matches hdr comp) l)
      /\ not_dir c' = false /\ subdir_cluster c' = 0.
Proof.
  intros hdr ft comp l. induction l as [|[e ln] l IH]; intros c Hs.
  - exists c, false. destruct Hs as [_ [_ [_ [_ [Hres [Hsub Hnd]]]]]].
    simpl. auto.
  - pose proof (fat_search_entry_cb_searching hdr ft comp e ln c Hs) as Hcb.
    cbn [iter_cb find].
    destruct (name_matches hdr comp (e, ln)).
    + destruct Hcb as [c' [Hrun [Hres [Hnd Hsub]]]].
      exists c', true. rewrite Hrun. cbn. auto.
    + destruct Hcb as [c' [Hrun Hs']].
      rewrite Hrun. cbn [bind Z.eqb negb]. apply IH. exact Hs'.
Qed.

Lemma iter_cb_first_fetch :
  forall hdr ft comp l,
    comp <> [] -> ~ In 0 comp -> ~ In 47 comp ->
    Z.of_nat (length comp) < sizeof_pc ->
    exists c' b,
      iter_cb fat_search_entry_cb hdr ft l (fst (fat_init_search_ctx comp false))
      = Ok (c', b)
      /\ result c' = option_map fst (find (name_matches hdr comp) l)
      /\ not_dir c' = false /\ subdir_cluster c' = 0.
Proof.
  intros hdr ft comp l Hne H0 H47 Hlen.
  destruct l as [|[e ln] l].
  - eexists. eexists. cbn. auto.
  - destruct (component_whole comp H0 H47) as [Hcomp Hafter].
    remember (fst (fat_init_search_ctx comp false)) as c0 eqn:Ec0.
    destruct (fat_fetch_next_component_spec c0)
      as [c1 [Hf [Hpcl [Hpc [Hpath [Hsc [Hres [Hsub Hnd]]]]]]]].
    { subst c0. reflexivity. }
    { subst c0. cbn [fat_init_search_ctx fst path]. rewrite Hcomp.
      exact Hlen. }
    assert (Hs : searching comp c1).
    { subst c0.
      cbn [fat_init_search_ctx fst path single_comp result subdir_cluster
           not_dir] in *.
      rewrite Hcomp in *. rewrite Hafter in *.
      unfold searching. repeat split; try assumption. lia. }
    assert (Hsame : fat_search_entry_cb hdr ft e ln c0
                    = fat_search_entry_cb hdr ft e ln c1).
    { rewrite !fat_search_entry_cb_eq. unfold at_comparison.
      replace (pcl c0 =? 0) with true by (subst c0; reflexivity).
      rewrite Hf. cbn [bind].
      replace (pcl c1 =? 0) with false
        by (symmetry; apply Z.eqb_neq; apply Hs).
      reflexivity. }
    destruct (iter_cb_searching hdr ft comp ((e, ln) :: l) c1 Hs)
      as [c' [b [Hrun Hrest]]].
    exists c', b. split; [|exact Hrest].
    cbn [iter_cb] in *. rewrite Hsame. exact Hrun.
Qed.

Lemma search_subdirs_done :
  forall n fuel hdr ft wctx c,
    subdir_cluster c = 0 -> search_subdirs n fuel hdr ft wctx c = Ok (wctx, c).
Proof.
  intros n fuel hdr ft wctx c H. destruct n; simpl; rewrite H; reflexivity.
Qed.

(** X9. The lookup of a path with a single component returns the first
    entry of the root directory's listing whose name is the component
    (its long name when the entry is listed with one, its short name in
    any case when not) with errno 0, and NULL with -ENOENT when the
    listing has no such entry. *)
Theorem fat_search_entry_single_component :
  forall fuel hdr ft t root rdc comp v ctx' log r,
    (if fat_type_eqb ft fat_unknown then fat_get_type hdr else Ok ft) = Ok t ->
    fat_get_rootdir hdr t = Ok (root, rdc) ->
    comp <> [] -> ~ In 0 comp -> ~ In 47 comp ->
    Z.of_nat (length comp) < sizeof_pc ->
    fat_walk_directory record_cb fuel (snd (fat_init_search_ctx comp false))
      hdr t (Some root) rdc [] = Ok (ctx', log, r) ->
    fat_search_entry fuel hdr ft (47 :: comp) (Some v)
    = Ok (match find (name_matches hdr comp) log with
          | Some x => (Some (fst x), Some 0)
          | None => (None, Some (-2))
          end).
Proof.
  intros fuel hdr ft t root rdc comp v ctx' log r Ht Hroot Hne H0 H47 Hlen Hlist.
  assert (Hd : deref comp <> 0).
  { destruct comp as [|c rest]; [contradiction|]. simpl.
    intro E. apply H0. left. exact E. }
  destruct (iter_cb_first_fetch hdr t comp log Hne H0 H47 Hlen)
    as [c' [b [Hiter [Hres [Hnd Hsub]]]]].
  pose proof (fat_walk_directory_listing _ fat_search_entry_cb hdr t fuel
                _ (Some root) rdc ctx' log r Hlist
                (fst (fat_init_search_ctx comp false))) as Hw.
  unfold follows_listing in Hw. rewrite Hiter in Hw.
  assert (Hw' : exists w,
             fat_walk_directory fat_search_entry_cb fuel
               (snd (fat_init_search_ctx comp false)) hdr t (Some root) rdc
               (fst (fat_init_search_ctx comp false)) = Ok (w, c', 0)).
  { destruct b; [exact Hw | exists ctx'; exact Hw]. }
  clear Hw. destruct Hw' as [w Hw].
  assert (Hrun : fat_search_run fuel hdr t root rdc comp = Ok c').
  { unfold fat_search_run.
    change (fat_init_search_ctx comp false)
      with (fst (fat_init_search_ctx comp false),
            snd (fat_init_search_ctx comp false)).
    cbv iota beta. rewrite Hw. cbn [bind].
    rewrite search_subdirs_done by exact Hsub. reflexivity. }
  rewrite (fat_search_entry_errno fuel hdr ft t root rdc comp v c'
             Ht Hroot Hd Hrun).
  rewrite Hnd, Hres.
  destruct (find (name_matches hdr comp) log) as [[e ln]|]; reflexivity.
Qed.

(** "/hello.txt" on the sample volume. *)
Lemma fat_search_entry_single_component_witness :
  fat_search_entry 1 sample_hdr fat_unknown path_hello (Some 7)
  = Ok (Some 17056, Some 0).
Proof.
  eassert (Hl : fat_walk_directory record_cb 1
                  (snd (fat_init_search_ctx (tl path_hello) false))
                  sample_hdr fat16_type (Some 16896) 0 [] = Ok (_, _, _))
    by (vm_compute; reflexivity).
  assert (H0 : ~ In 0 (tl path_hello)).
  { intro H. vm_compute in H.
    repeat (destruct H as [H|H]; [discriminate H|]). exact H. }
  assert (H47 : ~ In 47 (tl path_hello)).
  { intro H. vm_compute in H.
    repeat (destruct H as [H|H]; [discriminate H|]). exact H. }
  assert (Hne : tl path_hello <> []) by discriminate.
  assert (Hlen : Z.of_nat (length (tl path_hello)) < sizeof_pc)
    by (vm_compute; reflexivity).
  exact (fat_search_entry_single_component 1 sample_hdr fat_unknown fat16_type
           16896 0 (tl path_hello) 7 _ _ _ eq_refl eq_refl Hne H0 H47 Hlen Hl).
Defined.

(** ** The entry returned and the error code *)

Lemma at_comparison_keeps :
  forall c c1,
    at_comparison c = Ok c1 ->
    result c1 = result c /\ not_dir c1 = not_dir c
    /\ subdir_cluster c1 = subdir_cluster c.
Proof.
  intros c c1 H. unfold at_comparison in H.
  destruct (pcl c =? 0); [|injection H as <-; auto].
  unfold fat_fetch_next_component in H.
  destruct (ASSERT (pcl c =? 0)) as [u|f]; cbn [bind] in H; [|discriminate H].
  destruct (fetch_loop (path c) (pc c) (pcl c)) as [[[p pc1] pcl1]|f];
    cbn [bind] in H; [|discriminate H].
  destruct (arr_set sizeof_pc pc1 pcl1 0) as [pc2|f]; cbn [bind] in H;
    [|discriminate H].
  injection H as <-. cbn. auto.
Qed.

Lemma fat_search_entry_cb_pending :
  forall hdr ft e ln c c' r,
    search_pending c ->
    fat_search_entry_cb hdr ft e ln c = Ok (c', r) ->
    (r = 0 -> search_pending c') /\ (r <> 0 -> search_settled c').
Proof.
  intros hdr ft e ln c c' r Hp H.
  rewrite fat_search_entry_cb_eq in H.
  destruct (at_comparison c) as [c1|f] eqn:E; cbn [bind] in H;
    [|discriminate H].
  apply at_comparison_keeps in E. destruct E as [Hres [Hnd Hsub]].
  destruct Hp as [Hr0 [Hn0 Hs0]].
  rewrite Hr0 in Hres. rewrite Hn0 in Hnd. rewrite Hs0 in Hsub.
  destruct c1 as [p sc pc0 pcl0 sn res sub nd].
  cbn [result not_dir subdir_cluster] in Hres, Hnd, Hsub. subst res nd sub.
  rewrite fat_search_entry_cb_compare_unfold in H. cbv zeta in H.
  unfold search_pending, search_settled.
  destruct (compare_differs hdr e ln pc0).
  { injection H as <- <-. cbn. split; [auto|]. intro C. contradiction C.
    reflexivity. }
  destruct (sc || (deref p =? 0)).
  { injection H as <- <-. cbn. split; [discriminate|]. intros _.
    split; [intro C; contradiction C; reflexivity | discriminate]. }
  destruct (ASSERT (deref p =? 47)) as [u|f]; cbn [bind] in H;
    [|discriminate H].
  destruct (deref (next p) =? 0).
  { destruct (directory hdr e); injection H as <- <-; cbn;
      (split; [discriminate|]); intros _;
      (split; [intro C; contradiction C; reflexivity | auto]).
    discriminate. }
  destruct (negb (directory hdr e)); injection H as <- <-; cbn;
    (split; [discriminate|]); intros _; split; auto; discriminate.
Qed.

Lemma fat_walk_directory_settled :
  forall hdr ft fuel wctx entry cluster c w c' r,
    search_pending c ->
    fat_walk_directory fat_search_entry_cb fuel wctx hdr ft entry cluster c
    = Ok (w, c', r) ->
    search_settled c'.
Proof.
  intros hdr ft fuel wctx entry cluster c w c' r Hp H.
  pose proof (fat_walk_directory_lockstep _ fat_search_entry_cb hdr ft
                (fun a1 a2 => a1 = a2 /\ search_pending a1)
                (fun a1 a2 => a1 = a2 /\ search_settled a1)) as L.
  assert (Hstep : forall e ln a1 a2,
             a1 = a2 /\ search_pending a1 ->
             outcome_rel
               (fun x1 x2 =>
                  snd x1 = snd x2 /\
                  (snd x1 = 0 -> fst x1 = fst x2 /\ search_pending (fst x1)) /\
                  (snd x1 <> 0 -> fst x1 = fst x2 /\ search_settled (fst x1)))
               (fat_search_entry_cb hdr ft e ln a1)
               (fat_search_entry_cb hdr ft e ln a2)).
  { intros e ln a1 a2 [<- Ha].
    destruct (fat_search_entry_cb hdr ft e ln a1) as [[a' r']|f] eqn:E;
      [|reflexivity].
    destruct (fat_search_entry_cb_pending hdr ft e ln a1 a' r' Ha E)
      as [H0 H1].
    simpl. split; [reflexivity|]. split; intro Hr; split; auto. }
  specialize (L Hstep fuel wctx entry cluster c c (conj eq_refl Hp)).
  rewrite H in L. unfold outcome_rel, walk_post in L. cbn [fst snd] in L.
  destruct L as [_ [_ [[_ L]|[_ L]]]]; [|exact L].
  destruct L as [Hr [Hn Hs]]. split.
  - intros _. auto.
  - intro C. rewrite Hn in C. discriminate C.
Qed.

Lemma search_subdirs_settled :
  forall n fuel hdr ft w c w' c',
    search_settled c ->
    search_subdirs n fuel hdr ft w c = Ok (w', c') ->
    search_settled c'.
Proof.
  induction n as [|n IH]; intros fuel hdr ft w c w' c' Hc H;
    cbn [search_subdirs] in H;
    destruct (Z.eqb_spec (subdir_cluster c) 0) as [E|E];
    try (injection H as <- <-; exact Hc); [discriminate H|].
  destruct (fat_walk_directory fat_search_entry_cb fuel w hdr ft None
              (subdir_cluster c) _) as [[[w1 c1] r1]|f] eqn:Ew;
    cbn [bind] in H; [|discriminate H].
  apply (IH fuel hdr ft w1 c1 w' c'); [|exact H].
  apply fat_walk_directory_settled in Ew; [exact Ew|].
  destruct Hc as [Hc _]. destruct (Hc E) as [Hr Hn].
  unfold search_pending. cbn. auto.
Qed.

(** X10. What [fat_search_entry] stores through [err] agrees with what
    it returns: for every path other than "/", an entry is returned
    together with 0, and NULL together with -ENOENT or -ENOTDIR; an
    entry is never returned with an error code. *)
Theorem fat_search_entry_errno_consistent :
  forall fuel hdr ft abspath v res e,
    deref (next abspath) <> 0 ->
    fat_search_entry fuel hdr ft abspath (Some v) = Ok (res, e) ->
    match res with
    | Some _ => e = Some 0
    | None => e = Some (-2) \/ e = Some (-20)
    end.
Proof.
  intros fuel hdr ft abspath v res e Hp H. unfold fat_search_entry in H.
  destruct (if fat_type_eqb ft fat_unknown then fat_get_type hdr else Ok ft)
    as [t|f]; cbn [bind] in H; [|discriminate H].
  destruct (ASSERT (deref abspath =? 47)) as [u|f]; cbn [bind] in H;
    [|discriminate H].
  destruct (fat_get_rootdir hdr t) as [[root rdc]|f]; cbn [bind] in H;
    [|discriminate H].
  destruct (Z.eqb_spec (deref (next abspath)) 0) as [E|_]; [contradiction|].
  destruct (fat_search_run fuel hdr t root rdc (next abspath)) as [c|f] eqn:Er;
    cbn [bind] in H; [|discriminate H].
  assert (Hc : search_settled c).
  { unfold fat_search_run in Er. cbn [fat_init_search_ctx] in Er.
    destruct (fat_walk_directory fat_search_entry_cb fuel _ hdr t (Some root)
                rdc _) as [[[w1 c1] r1]|f] eqn:Ew; cbn [bind] in Er;
      [|discriminate Er].
    destruct (search_subdirs fuel fuel hdr t w1 c1) as [[w2 c2]|f] eqn:Es;
      cbn [bind] in Er; [|discriminate Er].
    injection Er as <-.
    apply search_subdirs_settled in Es; [exact Es|].
    apply fat_walk_directory_settled in Ew; [exact Ew|].
    unfold search_pending. cbn. auto. }
  injection H as <- <-. destruct Hc as [_ Hc].
  destruct (not_dir c).
  - rewrite (Hc eq_refl). right. reflexivity.
  - destruct (result c); [reflexivity | left; reflexivity].
Qed.

(** "/LONGFI~1.TXT" is not found on the sample volume: NULL with
    -ENOENT. *)
Lemma fat_search_entry_errno_consistent_witness :
  fat_search_entry 1 sample_hdr fat_unknown path_alias (Some 7)
  = Ok (None, Some (-2))
  /\ (Some (-2) = Some (-2) \/ Some (-2) = Some (-20)).
Proof.
  assert (H : fat_search_entry 1 sample_hdr fat_unknown path_alias (Some 7)
              = Ok (None, Some (-2))) by (vm_compute; reflexivity).
  split; [exact H|].
  refine (fat_search_entry_errno_consistent 1 sample_hdr fat_unknown
            path_alias 7 None (Some (-2)) _ H).
  vm_compute. discriminate.
Defined.

(** ** Which slots reach the callback *)

Lemma walk_slots_log :
  forall hdr ft n entry i ctx log0 ctx' log' ex,
    walk_slots record_cb n hdr ft entry i ctx log0 = Ok (ctx', log', ex) ->
    exists js,
      log' = log0 ++ skipn (length log0) log'
      /\ map fst (skipn (length log0) log')
         = map (fun j => entry + sizeof_fat_entry * j) js
      /\ Forall (fun j => i <= j < i + Z.of_nat n
                          /\ live_entry hdr (entry + sizeof_fat_entry * j)
                             = true) js
      /\ StronglySorted Z.lt js.
Proof.
  intros hdr ft.
  assert (Hnil : forall (l : list (Z * option (list Z))),
             l = l ++ skipn (length l) l /\ skipn (length l) l = []).
  { intro l. rewrite skipn_all. rewrite app_nil_r. split; reflexivity. }
  induction n as [|n IH]; intros entry i ctx log0 ctx' log' ex H.
  - simpl in H. injection H as <- <- <-. exists [].
    destruct (Hnil log0) as [H1 H2]. rewrite H2.
    split; [rewrite app_nil_r; reflexivity|].
    split; [reflexivity|]. split; constructor.
  - assert (Hweak : forall js,
               Forall (fun j => i + 1 <= j < i + 1 + Z.of_nat n
                                /\ live_entry hdr (entry + sizeof_fat_entry * j)
                                   = true) js ->
               Forall (fun j => i <= j < i + Z.of_nat (S n)
                                /\ live_entry hdr (entry + sizeof_fat_entry * j)
                                   = true) js).
    { intros js Hjs. eapply Forall_impl; [|exact Hjs].
      intros j [Hj Hlive]. split; [lia | exact Hlive]. }
    rewrite walk_slots_S in H. cbv zeta in H.
    destruct (is_long_name_entry hdr (entry + sizeof_fat_entry * i)) eqn:Hl.
    { destruct (fat_handle_long_dir_entry hdr ctx
                  (entry + sizeof_fat_entry * i)) as [ctxl|f];
        cbn [bind] in H; [|discriminate H].
      apply IH in H. destruct H as [js [H1 [H2 [H3 H4]]]].
      exists js. auto. }
    destruct (volume_id hdr (entry + sizeof_fat_entry * i)) eqn:Hv.
    { apply IH in H. destruct H as [js [H1 [H2 [H3 H4]]]].
      exists js. auto. }
    destruct (DIR_Name0 hdr (entry + sizeof_fat_entry * i)
              =? FAT_ENTRY_DIRNAME_NO_MORE_ENTRIES) eqn:H0.
    { injection H as <- <- <-. exists [].
      destruct (Hnil log0) as [H1 H2]. rewrite H2.
      split; [rewrite app_nil_r; reflexivity|].
      split; [reflexivity|]. split; constructor. }
    destruct (DIR_Name0 hdr (entry + sizeof_fat_entry * i)
              =? FAT_ENTRY_DIRNAME_EMPTY_DIR) eqn:HE.
    { injection H as <- <- <-. exists [].
      destruct (Hnil log0) as [H1 H2]. rewrite H2.
      split; [rewrite app_nil_r; reflexivity|].
      split; [reflexivity|]. split; constructor. }
    destruct (long_name_for hdr ctx (entry + sizeof_fat_entry * i))
      as [[ctx1 ln]|f]; cbn [bind] in H; [|discriminate H].
    unfold record_cb at 1 in H. cbn [bind Z.eqb negb] in H.
    apply IH in H. destruct H as [js [H1 [H2 [H3 H4]]]].
    rewrite length_app in H1, H2. cbn [length] in H1, H2.
    assert (Hsk : skipn (length log0) log'
                  = (entry + sizeof_fat_entry * i, ln)
                    :: skipn (length log0 + 1) log').
    { rewrite H1 at 1. rewrite <- app_assoc.
      rewrite skipn_app, skipn_all, Nat.sub_diag. reflexivity. }
    exists (i :: js). rewrite Hsk. split.
    { rewrite H1 at 1. rewrite <- app_assoc. reflexivity. }
    split; [cbn [map fst]; rewrite H2; reflexivity|].
    split.
    + constructor; [|apply Hweak; exact H3].
      split; [lia|]. unfold live_entry. rewrite Hl, Hv, H0, HE. reflexivity.
    + constructor; [exact H4|].
      eapply Forall_impl; [|exact H3]. intros j [Hj _]. lia.
Qed.

Lemma walk_slots_live :
  forall hdr ft n entry i ctx log0 ctx' log' ex,
    walk_slots record_cb n hdr ft entry i ctx log0 = Ok (ctx', log', ex) ->
    exists l,
      log' = log0 ++ l
      /\ Forall (fun x => live_entry hdr (fst x) = true) l.
Proof.
  intros hdr ft n entry i ctx log0 ctx' log' ex H.
  destruct (walk_slots_log _ _ _ _ _ _ _ _ _ _ H) as [js [H1 [H2 [H3 _]]]].
  exists (skipn (length log0) log'). split; [exact H1|].
  apply Forall_map with (f := fst) (P := fun e => live_entry hdr e = true).
  rewrite H2. apply Forall_map. eapply Forall_impl; [|exact H3].
  intros j [_ Hj]. exact Hj.
Qed.

Lemma walk_clusters_live :
  forall hdr ft fuel epc entry cluster ctx log0 ctx' log' r,
    walk_clusters record_cb fuel epc hdr ft entry cluster ctx log0
    = Ok (ctx', log', r) ->
    exists l,
      log' = log0 ++ l
      /\ Forall (fun x => live_entry hdr (fst x) = true) l.
Proof.
  intros hdr ft. induction fuel as [|fuel IH];
    intros epc entry cluster ctx log0 ctx' log' r H.
  - discriminate H.
  - cbn [walk_clusters] in H.
    destruct (if negb (cluster =? 0)
              then p <- fat_get_pointer_to_cluster_data hdr cluster ;; Ok (Some p)
              else Ok entry) as [[e|]|f]; cbn [bind] in H;
      try discriminate H.
    destruct (walk_slots record_cb (Z.to_nat epc) hdr ft e 0 ctx log0)
      as [[[c1 log1] ex]|f] eqn:Es; cbn [bind] in H; [|discriminate H].
    apply walk_slots_live in Es. destruct Es as [l1 [Hlog1 Hl1]].
    destruct ex as [r1|]; [injection H as <- <- <-; exists l1; auto|].
    destruct (cluster =? 0); [injection H as <- <- <-; exists l1; auto|].
    destruct (fat_read_fat_entry hdr ft cluster 0) as [val|f];
      cbn [bind] in H; [|discriminate H].
    destruct (fat_is_end_of_clusterchain ft val);
      [injection H as <- <- <-; exists l1; auto|].
    destruct (ASSERT (negb (fat_is_bad_cluster ft val))) as [u|f];
      cbn [bind] in H; [|discriminate H].
    apply IH in H. destruct H as [l2 [Hlog2 Hl2]].
    exists (l1 ++ l2). split.
    + rewrite Hlog2, Hlog1, app_assoc. reflexivity.
    + apply Forall_app. split; assumption.
Qed.

(** X11. The callback only ever sees entries in use: every entry of a
    directory's listing is a short entry that is neither a long-name
    slot nor the volume label, and whose first name byte is neither 0x00
    (free, end of the directory) nor 0xE5. *)
Theorem fat_walk_directory_delivers_live_entries :
  forall fuel ctx hdr ft entry cluster ctx' log r,
    fat_walk_directory record_cb fuel ctx hdr ft entry cluster []
    = Ok (ctx', log, r) ->
    Forall (fun x => live_entry hdr (fst x) = true) log.
Proof.
  intros fuel ctx hdr ft entry cluster ctx' log r H.
  unfold fat_walk_directory in H.
  destruct (ASSERT (fat_type_eqb ft fat16_type || fat_type_eqb ft fat32_type));
    cbn [bind] in H; [|discriminate H].
  destruct (if fat_type_eqb ft fat16_type
            then ASSERT ((cluster =? 0) ||
                         match entry with None => true | Some _ => false end)
            else Ok tt); cbn [bind] in H; [|discriminate H].
  apply walk_clusters_live in H. destruct H as [l [-> Hl]]. exact Hl.
Qed.

(** The root directory of the sample volume: the label and the two
    long-name slots are not in the listing. *)
Lemma fat_walk_directory_delivers_live_entries_witness :
  Forall (fun x => live_entry sample_hdr (fst x) = true) sample_root_listing.
Proof.
  eassert (Hl : fat_walk_directory record_cb 1 empty_walk_ctx sample_hdr
                  fat16_type (Some 16896) 0 [] = Ok (_, sample_root_listing, _))
    by (vm_compute; reflexivity).
  exact (fat_walk_directory_delivers_live_entries _ _ _ _ _ _ _ _ _ Hl).
Defined.

(** X12. The FAT16 root directory, which has no cluster chain, is walked
    for one cluster's worth of slots only: the listing consists of
    entries in use among the first [entries_per_cluster] slots after the
    root pointer, in slot order and each at most once, whatever
    [BPB_RootEntCnt] says. *)
Theorem fat_walk_directory_flat_root_bounded :
  forall fuel ctx hdr ft root ctx' log r,
    fat_walk_directory record_cb fuel ctx hdr ft (Some root) 0 []
    = Ok (ctx', log, r) ->
    exists js,
      map fst log = map (fun j => root + sizeof_fat_entry * j) js
      /\ Forall (fun j => 0 <= j < entries_per_cluster hdr
                          /\ live_entry hdr (root + sizeof_fat_entry * j)
                             = true) js
      /\ StronglySorted Z.lt js.
Proof.
  intros fuel ctx hdr ft root ctx' log r H.
  unfold fat_walk_directory in H.
  destruct (ASSERT (fat_type_eqb ft fat16_type || fat_type_eqb ft fat32_type));
    cbn [bind] in H; [|discriminate H].
  destruct (if fat_type_eqb ft fat16_type
            then ASSERT ((0 =? 0) || false)
            else Ok tt); cbn [bind] in H; [|discriminate H].
  fold (entries_per_cluster hdr) in H.
  destruct fuel as [|fuel]; [discriminate H|].
  cbn [walk_clusters Z.eqb negb bind] in H.
  destruct (walk_slots record_cb (Z.to_nat (entries_per_cluster hdr)) hdr ft
              root 0 _ []) as [[[c1 log1] ex]|f] eqn:Es; cbn [bind] in H;
    [|discriminate H].
  assert (Hlog : log = log1) by (destruct ex; injection H as _ <- _; reflexivity).
  subst log1.
  destruct (walk_slots_log _ _ _ _ _ _ _ _ _ _ Es) as [js [_ [H2 [H3 H4]]]].
  cbn [length skipn] in H2.
  exists js. split; [exact H2|]. split; [|exact H4].
  eapply Forall_impl; [|exact H3]. intros j [Hj Hlive]. split; [|exact Hlive].
  assert (0 <= entries_per_cluster hdr).
  { unfold entries_per_cluster, sizeof_fat_entry, u32.
    apply Z.div_pos; [|lia]. apply Z.mod_pos_bound. lia. }
  lia.
Qed.

(** The sample volume has 16 slots per cluster; its root listing is the
    slots 3 to 9 of the root directory. *)
Lemma fat_walk_directory_flat_root_bounded_witness :
  exists js,
    map fst sample_root_listing
    = map (fun j => 16896 + sizeof_fat_entry * j) js
    /\ Forall (fun j => 0 <= j < entries_per_cluster sample_hdr
                        /\ live_entry sample_hdr (16896 + sizeof_fat_entry * j)
                           = true) js
    /\ StronglySorted Z.lt js.
Proof.
  eassert (Hl : fat_walk_directory record_cb 1 empty_walk_ctx sample_hdr
                  fat16_type (Some 16896) 0 [] = Ok (_, sample_root_listing, _))
    by (vm_compute; reflexivity).
  exact (fat_walk_directory_flat_root_bounded _ _ _ _ _ _ _ _ Hl).
Defined.

(** * The kernel command line *)

Lemma boot_bind_assoc :
  forall (A B C : Type) (m : boot A) (k : A -> boot B) (h : B -> boot C),
    boot_bind (boot_bind m k) h = boot_bind m (fun a => boot_bind (k a) h).
Proof. intros A B C [a| |] k h; reflexivity. Qed.

Lemma boot_bind_Run :
  forall (A : Type) (m : boot A), boot_bind m (fun a => Run a) = m.
Proof. intros A [a| |]; reflexivity. Qed.

Lemma store_in_range :
  forall buf i v,
    0 <= i < sizeof_buf ->
    store sizeof_buf buf i v = Run (upd buf (Z.to_nat i) v).
Proof.
  intros buf i v Hi. unfold store, arr_set.
  replace ((0 <=? i) && (i <? sizeof_buf)) with true; [reflexivity|].
  symmetry. apply andb_true_iff. split; [apply Z.leb_le | apply Z.ltb_lt]; lia.
Qed.

(** The buffer after [*dptr = 0] holds the word written so far. *)
Lemma c_str_terminated :
  forall buf cur,
    arr_prefix buf (length cur) = cur -> ~ In 0 cur ->
    c_str (upd buf (length cur) 0) = cur.
Proof.
  intros buf cur Hpre Hnz.
  rewrite (c_str_prefix (length cur)).
  - rewrite arr_prefix_upd by lia. exact Hpre.
  - rewrite arr_prefix_upd by lia. rewrite Hpre. exact Hnz.
  - apply nth_upd_same.
Qed.

Lemma arr_prefix_stored :
  forall buf cur c,
    arr_prefix buf (length cur) = cur ->
    arr_prefix (upd buf (length cur) c) (length (cur ++ [c])) = cur ++ [c].
Proof.
  intros buf cur c Hpre. rewrite length_app. cbn [length].
  rewrite Nat.add_1_r, arr_prefix_S, arr_prefix_upd by lia.
  rewrite Hpre, nth_upd_same. reflexivity.
Qed.

Lemma split_words_head :
  forall ptr cur,
    cur <> [] -> exists w l, split_words cur ptr = (cur ++ w) :: l.
Proof.
  induction ptr as [|c rest IH]; intros cur Hcur.
  - exists [], []. rewrite app_nil_r. destruct cur; [contradiction|reflexivity].
  - cbn [split_words]. destruct (c =? 32).
    + exists [], (split_words [] rest). rewrite app_nil_r. reflexivity.
    + destruct (IH (cur ++ [c])) as [w [l E]].
      { destruct cur; discriminate. }
      exists (c :: w), l. rewrite E, <- app_assoc. reflexivity.
Qed.

Section ParseWords.

Variable State : Type.
Variable use_arg : Z -> list Z -> State -> boot State.

Lemma parse_loop_words :
  forall ptr buf cur n st,
    ~ In 0 ptr -> ~ In 0 cur ->
    arr_prefix buf (length cur) = cur ->
    Forall (fun w => (length w <= 255)%nat) (split_words cur ptr) ->
    (x <~ parse_loop use_arg ptr buf (Z.of_nat (length cur)) n st ;;
     parse_finish use_arg x)
    = use_args use_arg n (split_words cur ptr) st.
Proof.
  induction ptr as [|c rest IH]; intros buf cur n st Hp Hc Hpre Hfit.
  - cbn [parse_loop boot_bind parse_finish split_words] in *.
    destruct cur as [|c0 cur']; [reflexivity|].
    remember (c0 :: cur') as cur eqn:Ecur.
    assert (Hlen : (length cur <= 255)%nat)
      by (inversion Hfit; assumption).
    replace (Z.of_nat (length cur) =? 0) with false
      by (symmetry; apply Z.eqb_neq; subst cur; cbn [length]; lia).
    cbn [negb]. rewrite store_in_range by (unfold sizeof_buf; lia).
    cbn [boot_bind]. rewrite Nat2Z.id, c_str_terminated by assumption.
    cbn [use_args]. symmetry. apply boot_bind_Run.
  - assert (Hc0 : c <> 0) by (intro E; apply Hp; left; exact E).
    assert (Hrest : ~ In 0 rest) by (intro E; apply Hp; right; exact E).
    cbn [parse_loop split_words] in *.
    replace (c =? 0) with false by (symmetry; apply Z.eqb_neq; exact Hc0).
    destruct (Z.eqb_spec c 32) as [E32|E32].
    + cbn [orb].
      assert (Hlen : (length cur <= 255)%nat)
        by (inversion Hfit; assumption).
      rewrite store_in_range by (unfold sizeof_buf; lia).
      cbn [boot_bind]. rewrite Nat2Z.id, c_str_terminated by assumption.
      rewrite boot_bind_assoc. cbn [use_args].
      destruct (use_arg n cur st) as [st'| |]; cbn [boot_bind];
        try reflexivity.
      apply (IH _ [] (n + 1) st'); [exact Hrest | simpl; tauto | reflexivity |].
      inversion Hfit; assumption.
    + destruct (split_words_head rest (cur ++ [c])) as [w [l E]].
      { destruct cur; discriminate. }
      assert (Hlen : (length cur < 255)%nat).
      { rewrite E in Hfit. inversion Hfit as [|? ? Hw _]; subst.
        rewrite !length_app in Hw. cbn [length] in Hw. lia. }
      cbn [orb]. unfold sizeof_buf at 1.
      replace (256 - 1 <=? Z.of_nat (length cur)) with false
        by (symmetry; apply Z.leb_gt; lia).
      rewrite store_in_range by (unfold sizeof_buf; lia).
      cbn [boot_bind]. rewrite Nat2Z.id.
      replace (Z.of_nat (length cur) + 1)
        with (Z.of_nat (length (cur ++ [c])))
        by (rewrite length_app; cbn [length]; lia).
      apply IH; [exact Hrest | | apply arr_prefix_stored; exact Hpre
                 | exact Hfit].
      intro Hin. apply in_app_or in Hin. destruct Hin as [Hin|[Hin|[]]];
        [apply Hc; exact Hin | apply Hc0; exact Hin].
Qed.

(** X13. A command line without NUL whose words (the pieces between
    spaces, a last empty piece left out) have at most 255 characters is
    handed to [use_kernel_arg] word by word, empty words included, in
    order and numbered from 0, whatever the buffer held before. *)
Theorem parse_kernel_cmdline_words :
  forall cmdline buf st,
    ~ In 0 cmdline ->
    Forall (fun w => (length w <= 255)%nat) (cmdline_words cmdline) ->
    parse_kernel_cmdline use_arg cmdline buf st
    = use_args use_arg 0 (cmdline_words cmdline) st.
Proof.
  intros cmdline buf st Hnz Hfit. unfold parse_kernel_cmdline, cmdline_words.
  apply (parse_loop_words cmdline buf [] 0 st Hnz);
    [simpl; tauto | reflexivity | exact Hfit].
Qed.

(** The 256th character of an over-long word is treated like a space. *)
Lemma parse_loop_overlong :
  forall w buf dptr n st c rest,
    ~ In 0 w -> ~ In 32 w -> c <> 0 ->
    0 <= dptr -> dptr + Z.of_nat (length w) = 255 ->
    parse_loop use_arg (w ++ c :: rest) buf dptr n st
    = parse_loop use_arg (w ++ 32 :: rest) buf dptr n st.
Proof.
  induction w as [|x w IH]; intros buf dptr n st c rest H0 H32 Hc Hd Hlen.
  - cbn [app parse_loop length] in *.
    replace (c =? 0) with false by (symmetry; apply Z.eqb_neq; exact Hc).
    replace (sizeof_buf - 1 <=? dptr) with true
      by (symmetry; apply Z.leb_le; unfold sizeof_buf; lia).
    rewrite orb_true_r. reflexivity.
  - cbn [app parse_loop length] in *.
    destruct (x =? 0); [reflexivity|].
    assert (Hx : x <> 32) by (intro E; apply H32; left; exact E).
    replace (x =? 32) with false by (symmetry; apply Z.eqb_neq; exact Hx).
    replace (sizeof_buf - 1 <=? dptr) with false
      by (symmetry; apply Z.leb_gt; unfold sizeof_buf; lia).
    cbn [orb].
    destruct (store sizeof_buf buf dptr x) as [buf'| |]; cbn [boot_bind];
      try reflexivity.
    apply IH; try assumption; try lia.
    + intro E. apply H0. right. exact E.
    + intro E. apply H32. right. exact E.
Qed.

End ParseWords.

(** "ab  c " is handed over as "ab", "" and "c". *)
Lemma parse_kernel_cmdline_words_witness :
  parse_kernel_cmdline record_arg [97; 98; 32; 32; 99; 32] [7; 7; 7] []
  = Run [(0, [97; 98]); (1, []); (2, [99])].
Proof.
  refine (eq_trans (parse_kernel_cmdline_words _ record_arg
                      [97; 98; 32; 32; 99; 32] [7; 7; 7] [] _ _) _).
  - intro H. simpl in H. repeat (destruct H as [H|H]; [discriminate H|]).
    exact H.
  - repeat constructor; simpl; lia.
  - reflexivity.
Defined.

Lemma parse_loop_after_space :
  forall (State : Type) (use_arg : Z -> list Z -> State -> boot State)
         t1 t2 pre buf dptr n st,
    (forall buf' n' st',
        parse_loop use_arg t1 buf' 0 n' st'
        = parse_loop use_arg t2 buf' 0 n' st') ->
    parse_loop use_arg (pre ++ 32 :: t1) buf dptr n st
    = parse_loop use_arg (pre ++ 32 :: t2) buf dptr n st.
Proof.
  intros State use_arg t1 t2 pre.
  induction pre as [|x pre IH]; intros buf dptr n st Ht.
  - cbn [app parse_loop Z.eqb orb].
    destruct (store sizeof_buf buf dptr 0) as [buf'| |]; cbn [boot_bind];
      try reflexivity.
    destruct (use_arg n (c_str buf') st) as [st'| |]; cbn [boot_bind];
      try reflexivity.
    apply Ht.
  - cbn [app parse_loop].
    destruct (x =? 0); [reflexivity|].
    destruct ((x =? 32) || (sizeof_buf - 1 <=? dptr)).
    + destruct (store sizeof_buf buf dptr 0) as [buf'| |]; cbn [boot_bind];
        try reflexivity.
      destruct (use_arg n (c_str buf') st) as [st'| |]; cbn [boot_bind];
        try reflexivity.
      apply IH. exact Ht.
    + destruct (store sizeof_buf buf dptr x) as [buf'| |]; cbn [boot_bind];
        try reflexivity.
      apply IH. exact Ht.
Qed.

(** X14. A word is cut after 255 characters and the character that
    follows the cut is lost: when 255 characters other than space follow
    the start of the command line or a space, any character after them
    has the effect a space would have there. *)
Theorem parse_kernel_cmdline_drops_256th :
  forall (State : Type) (use_arg : Z -> list Z -> State -> boot State)
         pre w c rest buf st,
    pre = [] \/ (exists p, pre = p ++ [32]) ->
    length w = 255%nat -> ~ In 0 w -> ~ In 32 w -> c <> 0 ->
    parse_kernel_cmdline use_arg (pre ++ w ++ c :: rest) buf st
    = parse_kernel_cmdline use_arg (pre ++ w ++ 32 :: rest) buf st.
Proof.
  intros State use_arg pre w c rest buf st Hpre Hlen H0 H32 Hc.
  unfold parse_kernel_cmdline. f_equal.
  assert (Hw : forall buf' n' st',
             parse_loop use_arg (w ++ c :: rest) buf' 0 n' st'
             = parse_loop use_arg (w ++ 32 :: rest) buf' 0 n' st').
  { intros buf' n' st'. apply parse_loop_overlong; try assumption; lia. }
  destruct Hpre as [->|[p ->]]; [apply Hw|].
  rewrite <- !app_assoc. cbn [app].
  apply parse_loop_after_space. exact Hw.
Qed.

(** 255 times 'a', then "bc": the calls are those of 255 times 'a',
    a space and "c". *)
Lemma parse_kernel_cmdline_drops_256th_witness :
  parse_kernel_cmdline record_arg (repeat 97 255 ++ [98; 99]) [] []
  = parse_kernel_cmdline record_arg (repeat 97 255 ++ [32; 99]) [] [].
Proof.
  refine (parse_kernel_cmdline_drops_256th _ record_arg [] (repeat 97 255)
            98 [99] [] [] (or_introl eq_refl) _ _ _ _).
  - apply repeat_length.
  - intro H. apply repeat_spec in H. discriminate H.
  - intro H. apply repeat_spec in H. discriminate H.
  - discriminate.
Defined.

(** ** The buffer of the parser *)

Lemma numbers_from_S :
  forall n k, numbers_from n (S k) = n :: numbers_from (n + 1) k.
Proof.
  intros n k. unfold numbers_from. cbn [seq map]. f_equal; [lia|].
  rewrite <- seq_shift, map_map. apply map_ext. intro i. lia.
Qed.

Lemma parse_finish_record :
  forall buf cur n calls,
    ~ In 0 cur -> (length cur <= 255)%nat ->
    arr_prefix buf (length cur) = cur ->
    exists tr,
      parse_finish record_arg (buf, Z.of_nat (length cur), n, calls)
      = Run (calls ++ tr)
      /\ (tr = [] \/ tr = [(n, cur)]).
Proof.
  intros buf cur n calls H0 Hlen Hpre. unfold parse_finish.
  destruct cur as [|c0 cur'].
  - exists []. rewrite app_nil_r. split; [reflexivity | left; reflexivity].
  - remember (c0 :: cur') as cur eqn:Ecur.
    replace (Z.of_nat (length cur) =? 0) with false
      by (symmetry; apply Z.eqb_neq; subst cur; cbn [length]; lia).
    cbn [negb]. rewrite store_in_range by (unfold sizeof_buf; lia).
    cbn [boot_bind]. rewrite Nat2Z.id, c_str_terminated by assumption.
    exists [(n, cur)]. split; [reflexivity | right; reflexivity].
Qed.

Lemma parse_loop_record :
  forall ptr buf cur n calls,
    ~ In 0 cur -> ~ In 32 cur -> (length cur <= 255)%nat ->
    arr_prefix buf (length cur) = cur ->
    exists tr,
      (x <~ parse_loop record_arg ptr buf (Z.of_nat (length cur)) n calls ;;
       parse_finish record_arg x)
      = Run (calls ++ tr)
      /\ Forall (fun a => (length a <= 255)%nat /\ ~ In 0 a /\ ~ In 32 a)
                (map snd tr)
      /\ map fst tr = numbers_from n (length tr).
Proof.
  assert (Hfin : forall buf cur n calls,
             ~ In 0 cur -> ~ In 32 cur -> (length cur <= 255)%nat ->
             arr_prefix buf (length cur) = cur ->
             exists tr,
               parse_finish record_arg (buf, Z.of_nat (length cur), n, calls)
               = Run (calls ++ tr)
               /\ Forall (fun a => (length a <= 255)%nat /\ ~ In 0 a
                                   /\ ~ In 32 a) (map snd tr)
               /\ map fst tr = numbers_from n (length tr)).
  { intros buf cur n calls H0 H32 Hlen Hpre.
    destruct (parse_finish_record buf cur n calls H0 Hlen Hpre)
      as [tr [Hrun [->| ->]]].
    - exists []. split; [exact Hrun|]. split; [constructor | reflexivity].
    - exists [(n, cur)]. split; [exact Hrun|]. split.
      + cbn [map snd]. constructor; [tauto | constructor].
      + cbn. f_equal. lia. }
  induction ptr as [|c rest IH]; intros buf cur n calls H0 H32 Hlen Hpre.
  - cbn [parse_loop boot_bind]. apply Hfin; assumption.
  - cbn [parse_loop].
    destruct (Z.eqb_spec c 0) as [Ec0|Ec0];
      [cbn [boot_bind]; apply Hfin; assumption|].
    destruct ((c =? 32) || (sizeof_buf - 1 <=? Z.of_nat (length cur)))
      eqn:Eflush.
    + rewrite store_in_range by (unfold sizeof_buf; lia).
      cbn [boot_bind]. rewrite Nat2Z.id, c_str_terminated by assumption.
      unfold record_arg at 1. cbn [boot_bind].
      destruct (IH (upd buf (length cur) 0) [] (n + 1)
                  (calls ++ [(n, cur)])) as [tr [Hrun [Hall Hnum]]];
        [simpl; tauto | simpl; tauto | simpl; lia | reflexivity |].
      exists ((n, cur) :: tr). split.
      { cbn [length Z.of_nat] in Hrun. rewrite Hrun, <- app_assoc.
        reflexivity. }
      split.
      * cbn [map snd]. constructor; [tauto | exact Hall].
      * cbn [map fst length]. rewrite numbers_from_S, Hnum. reflexivity.
    + apply orb_false_iff in Eflush. destruct Eflush as [E32 Efull].
      apply Z.eqb_neq in E32. apply Z.leb_gt in Efull.
      unfold sizeof_buf in Efull.
      rewrite store_in_range by (unfold sizeof_buf; lia).
      cbn [boot_bind]. rewrite Nat2Z.id.
      replace (Z.of_nat (length cur) + 1)
        with (Z.of_nat (length (cur ++ [c])))
        by (rewrite length_app; cbn [length]; lia).
      apply IH.
      * intro Hin. apply in_app_or in Hin.
        destruct Hin as [Hin|[Hin|[]]]; [apply H0; exact Hin|].
        apply Ec0. exact Hin.
      * intro Hin. apply in_app_or in Hin.
        destruct Hin as [Hin|[Hin|[]]]; [apply H32; exact Hin|].
        apply E32. exact Hin.
      * rewrite length_app. cbn [length]. lia.
      * apply arr_prefix_stored. exact Hpre.
Qed.

(** X15. The parser never stores past the end of its 256-byte buffer:
    for every command line and every initial content of the buffer the
    run completes, every argument handed to [use_kernel_arg] has at most
    255 characters and contains neither a NUL nor a space, and the
    arguments are numbered 0, 1, 2, ... *)
Theorem parse_kernel_cmdline_buffer_safe :
  forall cmdline buf,
    exists calls,
      parse_kernel_cmdline record_arg cmdline buf [] = Run calls
      /\ Forall (fun a => (length a <= 255)%nat /\ ~ In 0 a /\ ~ In 32 a)
                (map snd calls)
      /\ map fst calls = numbers_from 0 (length calls).
Proof.
  intros cmdline buf. unfold parse_kernel_cmdline.
  destruct (parse_loop_record cmdline buf [] 0 [])
    as [tr [Hrun Hrest]]; [simpl; tauto | simpl; tauto | simpl; lia
                           | reflexivity |].
  exists tr. split; [exact Hrun | exact Hrest].
Qed.

(** ** use_kernel_arg *)

Lemma use_kernel_arg_cases :
  forall find n w st,
    ~ In 0 w ->
    use_kernel_arg find n w st
    = if strcmp w str_noinit =? 0 then
        Run (mk_kernel_args true (self_test_to_run st))
      else
        match selftest_name w with
        | Some name =>
            if (246 <? Z.of_nat (length name)) then Overrun
            else if find (str_selftest ++ name) =? 0 then Panic
                 else Run (mk_kernel_args (no_init st)
                                          (find (str_selftest ++ name)))
        | None => Run st
        end.
Proof.
  intros find n w st Hnz. unfold use_kernel_arg. cbv zeta.
  destruct (strcmp w str_noinit =? 0); [reflexivity|].
  destruct w as [|a [|b [|c name]]]; try reflexivity.
  cbn [length nth selftest_name].
  replace (3 <=? Z.of_nat (S (S (S (length name))))) with true
    by (symmetry; apply Z.leb_le; lia).
  cbn [andb]. destruct ((a =? 45) && (b =? 115) && (c =? 61));
    [|reflexivity].
  cbn [skipn]. unfold memcpy.
  replace (Z.of_nat (length (c_str str_selftest))) with 9 by reflexivity.
  rewrite length_app. cbn [length].
  destruct (Z.ltb_spec 246 (Z.of_nat (length name))) as [Hlong|Hfit].
  - replace (9 + Z.of_nat (length name + 1) <=? sizeof_buf) with false
      by (symmetry; apply Z.leb_gt; unfold sizeof_buf; lia).
    reflexivity.
  - replace (9 + Z.of_nat (length name + 1) <=? sizeof_buf) with true
      by (symmetry; apply Z.leb_le; unfold sizeof_buf; lia).
    cbn [boot_bind].
    assert (Hbuf : c_str (memmove str_selftest 9 (name ++ [0]))
                   = str_selftest ++ name).
    { unfold memmove.
      replace (firstn (Z.to_nat 9) str_selftest) with str_selftest
        by reflexivity.
      rewrite skipn_all2
        by (rewrite length_app; cbn [length str_selftest]; lia).
      rewrite app_nil_r, app_assoc, c_str_app.
      - cbn [c_str Z.eqb]. rewrite app_nil_r. reflexivity.
      - intro Hin. apply in_app_or in Hin. destruct Hin as [Hin|Hin].
        + vm_compute in Hin.
          repeat (destruct Hin as [Hin|Hin]; [discriminate Hin|]).
          exact Hin.
        + apply Hnz. right. right. right. exact Hin. }
    rewrite Hbuf. reflexivity.
Qed.

Lemma split_words_single :
  forall ptr cur,
    ~ In 32 ptr -> cur ++ ptr <> [] -> split_words cur ptr = [cur ++ ptr].
Proof.
  induction ptr as [|c rest IH]; intros cur H32 Hne.
  - rewrite app_nil_r in *. destruct cur; [contradiction | reflexivity].
  - cbn [split_words].
    replace (c =? 32) with false
      by (symmetry; apply Z.eqb_neq; intro E; apply H32; left; exact E).
    rewrite IH.
    + rewrite <- app_assoc. reflexivity.
    + intro H. apply H32. right. exact H.
    + destruct cur; discriminate.
Qed.

Lemma split_words_no_nul :
  forall ptr cur,
    ~ In 0 ptr -> ~ In 0 cur ->
    Forall (fun w => ~ In 0 w) (split_words cur ptr).
Proof.
  induction ptr as [|c rest IH]; intros cur Hp Hc.
  - cbn [split_words]. destruct cur; constructor; [exact Hc | constructor].
  - cbn [split_words]. destruct (c =? 32).
    + constructor; [exact Hc|]. apply IH; [|simpl; tauto].
      intro H. apply Hp. right. exact H.
    + apply IH.
      * intro H. apply Hp. right. exact H.
      * intro H. apply in_app_or in H. destruct H as [H|[H|[]]];
          [apply Hc; exact H | apply Hp; left; exact H].
Qed.

(** X16. "-s=" followed by a test name of 247 to 252 characters makes
    [use_kernel_arg] copy the name past the end of its 256-byte buffer,
    which already holds "selftest_": the parser hands the word over
    whole, since it has at most 255 characters. *)
Theorem parse_kernel_cmdline_selftest_overrun :
  forall find name buf st,
    ~ In 0 name -> ~ In 32 name ->
    (247 <= length name <= 252)%nat ->
    parse_kernel_cmdline (use_kernel_arg find) ([45; 115; 61] ++ name) buf st
    = Overrun.
Proof.
  intros find name buf st H0 H32 Hlen.
  assert (Hnz : ~ In 0 ([45; 115; 61] ++ name)).
  { cbn [app]. intros [H|[H|[H|H]]]; try discriminate H. exact (H0 H). }
  assert (Hwords : cmdline_words ([45; 115; 61] ++ name)
                   = [[45; 115; 61] ++ name]).
  { unfold cmdline_words.
    apply (split_words_single ([45; 115; 61] ++ name) []); [|discriminate].
    cbn [app]. intros [H|[H|[H|H]]]; try discriminate H. exact (H32 H). }
  assert (Hfit : Forall (fun w => (length w <= 255)%nat)
                   (cmdline_words ([45; 115; 61] ++ name))).
  { rewrite Hwords. constructor; [|constructor]. cbn [app length]. lia. }
  assert (Hrun : parse_kernel_cmdline (use_kernel_arg find)
                   ([45; 115; 61] ++ name) buf st
                 = use_args (use_kernel_arg find) 0
                     (cmdline_words ([45; 115; 61] ++ name)) st).
  { apply (parse_loop_words _ (use_kernel_arg find) _ buf [] 0 st Hnz);
      [simpl; tauto | reflexivity | exact Hfit]. }
  rewrite Hrun, Hwords.
  cbn [use_args]. rewrite use_kernel_arg_cases by exact Hnz.
  cbn [app strcmp str_noinit Z.eqb Pos.eqb Z.sub Z.pos_sub Z.opp
       selftest_name andb].
  replace (246 <? Z.of_nat (length name)) with true
    by (symmetry; apply Z.ltb_lt; lia).
  reflexivity.
Qed.

(** "-s=" and 247 times 'x'. *)
Lemma parse_kernel_cmdline_selftest_overrun_witness :
  parse_kernel_cmdline (use_kernel_arg (fun _ => 1))
    ([45; 115; 61] ++ repeat 120 247) [] (mk_kernel_args false 0)
  = Overrun.
Proof.
  refine (parse_kernel_cmdline_selftest_overrun (fun _ => 1) (repeat 120 247)
            [] (mk_kernel_args false 0) _ _ _).
  - intro H. apply repeat_spec in H. discriminate H.
  - intro H. apply repeat_spec in H. discriminate H.
  - rewrite repeat_length. lia.
Defined.

Lemma use_kernel_arg_settings :
  forall find n w st st',
    ~ In 0 w ->
    use_kernel_arg find n w st = Run st' ->
    (no_init st' = true <-> no_init st = true \/ w = str_noinit)
    /\ self_test_to_run st'
       = selftest_pick find (self_test_to_run st) w.
Proof.
  intros find n w st st' Hnz H.
  rewrite use_kernel_arg_cases in H by exact Hnz.
  assert (Hno : ~ In 0 str_noinit).
  { intro Hin. vm_compute in Hin.
    repeat (destruct Hin as [Hin|Hin]; [discriminate Hin|]). exact Hin. }
  destruct (Z.eqb_spec (strcmp w str_noinit) 0) as [E|E].
  - apply strcmp_eq in E; [|exact Hnz | exact Hno]. subst w.
    injection H as <-. cbn [no_init self_test_to_run]. split.
    + split; [intros _; right; reflexivity | reflexivity].
    + reflexivity.
  - assert (Hw : w <> str_noinit).
    { intro Ew. apply E. apply strcmp_eq; assumption. }
    unfold selftest_pick. destruct (selftest_name w) as [name|].
    + destruct (246 <? Z.of_nat (length name)); [discriminate H|].
      destruct (find (str_selftest ++ name) =? 0); [discriminate H|].
      injection H as <-. cbn [no_init self_test_to_run]. split.
      * split; [intro Hn; left; exact Hn|].
        intros [Hn|Hn]; [exact Hn | contradiction].
      * reflexivity.
    + injection H as <-. split.
      * split; [intro Hn; left; exact Hn|].
        intros [Hn|Hn]; [exact Hn | contradiction].
      * reflexivity.
Qed.

Lemma use_args_settings :
  forall find ws n st st',
    Forall (fun w => ~ In 0 w) ws ->
    use_args (use_kernel_arg find) n ws st = Run st' ->
    (no_init st' = true <-> no_init st = true \/ In str_noinit ws)
    /\ self_test_to_run st'
       = fold_left (selftest_pick find) ws (self_test_to_run st).
Proof.
  intros find ws. induction ws as [|w ws IH]; intros n st st' Hnz H.
  - injection H as <-. cbn [In fold_left]. tauto.
  - cbn [use_args] in H.
    destruct (use_kernel_arg find n w st) as [st1| |] eqn:E1;
      cbn [boot_bind] in H; try discriminate H.
    inversion Hnz as [|? ? Hw Hws]; subst.
    apply use_kernel_arg_settings in E1; [|exact Hw].
    destruct E1 as [Hn1 Hs1].
    destruct (IH _ _ _ Hws H) as [Hn Hs].
    cbn [In fold_left]. rewrite Hs, Hs1. split; [|reflexivity].
    rewrite Hn, Hn1. split.
    + intros [[H1|H1]|H1]; auto.
    + intros [H1|[H1|H1]]; auto.
Qed.

(** X17. What a command line sets, when its words have at most 255
    characters and the run completes: [no_init] is set exactly when it
    was set before or "-noinit" is one of the words, and
    [self_test_to_run] is the function "selftest_<name>" of the last
    word "-s=<name>", unchanged when there is none. *)
Theorem parse_kernel_cmdline_settings :
  forall find cmdline buf st st',
    ~ In 0 cmdline ->
    Forall (fun w => (length w <= 255)%nat) (cmdline_words cmdline) ->
    parse_kernel_cmdline (use_kernel_arg find) cmdline buf st = Run st' ->
    (no_init st' = true
     <-> no_init st = true \/ In str_noinit (cmdline_words cmdline))
    /\ self_test_to_run st'
       = fold_left (selftest_pick find) (cmdline_words cmdline)
                   (self_test_to_run st).
Proof.
  intros find cmdline buf st st' Hnz Hfit H.
  assert (Hrun : parse_kernel_cmdline (use_kernel_arg find) cmdline buf st
                 = use_args (use_kernel_arg find) 0 (cmdline_words cmdline)
                     st).
  { apply (parse_loop_words _ (use_kernel_arg find) _ buf [] 0 st Hnz);
      [simpl; tauto | reflexivity | exact Hfit]. }
  rewrite Hrun in H.
  apply use_args_settings in H; [exact H|].
  apply split_words_no_nul; [exact Hnz | simpl; tauto].
Qed.

(** "-s=a -noinit -s=b" with a symbol table that knows every name. *)
Lemma parse_kernel_cmdline_settings_witness :
  (no_init (mk_kernel_args true 107) = true
   <-> false = true
       \/ In str_noinit
            (cmdline_words ([45; 115; 61; 97; 32] ++ str_noinit
                            ++ [32; 45; 115; 61; 98])))
  /\ self_test_to_run (mk_kernel_args true 107)
     = fold_left (selftest_pick (fun name => Z.of_nat (length name) + 97))
         (cmdline_words ([45; 115; 61; 97; 32] ++ str_noinit
                         ++ [32; 45; 115; 61; 98])) 0.
Proof.
  refine (parse_kernel_cmdline_settings
            (fun name => Z.of_nat (length name) + 97)
            ([45; 115; 61; 97; 32] ++ str_noinit ++ [32; 45; 115; 61; 98])
            [] (mk_kernel_args false 0) (mk_kernel_args true 107) _ _ _).
  - intro H. vm_compute in H.
    repeat (destruct H as [H|H]; [discriminate H|]). exact H.
  - vm_compute. repeat constructor.
  - vm_compute. reflexivity.
Defined.

(** * File handles *)

Lemma free_handle_loop_spec :
  forall handles k,
    0 <= k -> k + Z.of_nat (length handles) <= 2147483648 ->
    (free_handle_loop handles k = -1 /\ Forall (fun h => h <> 0) handles)
    \/ (exists j,
          free_handle_loop handles k = k + Z.of_nat j
          /\ (j < length handles)%nat
          /\ nth j handles 1 = 0
          /\ Forall (fun h => h <> 0) (firstn j handles)).
Proof.
  induction handles as [|h rest IH]; intros k Hk Hfit.
  - left. split; [reflexivity | constructor].
  - cbn [free_handle_loop length] in *.
    destruct (Z.eqb_spec h 0) as [->|Hh].
    + right. exists 0%nat. split.
      { unfold s32. rewrite Z.mod_small by lia. lia. }
      split; [lia|]. split; [reflexivity | constructor].
    + unfold u32. rewrite Z.mod_small by lia.
      destruct (IH (k + 1)) as [[Hr Hall]|[j [Hr [Hj [Hnth Hall]]]]];
        try lia.
      * left. split; [exact Hr | constructor; assumption].
      * right. exists (S j). split; [rewrite Hr; lia|].
        split; [lia|]. split; [exact Hnth|].
        cbn [firstn]. constructor; assumption.
Qed.

(** X18. [get_free_handle_num] returns the least index whose handle is
    NULL, and -1 exactly when every handle of the table is in use (for a
    table whose size fits an [int]). *)
Theorem get_free_handle_num_least_free :
  forall handles,
    Z.of_nat (length handles) <= 2147483648 ->
    (get_free_handle_num handles = -1
     /\ Forall (fun h => h <> 0) handles)
    \/ (exists j,
          get_free_handle_num handles = Z.of_nat j
          /\ (j < length handles)%nat
          /\ nth j handles 1 = 0
          /\ Forall (fun h => h <> 0) (firstn j handles)).
Proof.
  intros handles Hfit. unfold get_free_handle_num.
  destruct (free_handle_loop_spec handles 0) as [H|[j H]]; try lia.
  - left. exact H.
  - right. exists j. exact H.
Qed.

(** A table whose slots 0 and 1 are in use and whose slot 2 is free. *)
Lemma get_free_handle_num_least_free_witness :
  (get_free_handle_num [5; 9; 0; 7; 0] = -1
   /\ Forall (fun h => h <> 0) [5; 9; 0; 7; 0])
  \/ (exists j,
        get_free_handle_num [5; 9; 0; 7; 0] = Z.of_nat j
        /\ (j < length [5; 9; 0; 7; 0])%nat
        /\ nth j [5; 9; 0; 7; 0] 1 = 0
        /\ Forall (fun h => h <> 0) (firstn j [5; 9; 0; 7; 0])).
Proof.
  apply (get_free_handle_num_least_free [5; 9; 0; 7; 0]).
  simpl. lia.
Defined.

(** * The walker and the free slots of a cluster chain *)

Section WalkChain.

Variable A : Type.
Variable cb : fat_dentry_cb A.
Variable hdr : fat_header.
Variable ft : fat_type.

(** A free slot [k] slots ahead: the loop is the loop over the [k] slots
    before it. *)
Lemma walk_slots_until_free_slot :
  forall k m entry i ctx arg,
    free_slot hdr (entry + sizeof_fat_entry * (i + Z.of_nat k)) ->
    walk_slots cb (k + S m) hdr ft entry i ctx arg
    = ('(ctx', arg', _) <- walk_slots cb k hdr ft entry i ctx arg ;;
       Ok (ctx', arg', Returned 0)).
Proof.
  induction k as [|k IH]; intros m entry i ctx arg Hfree.
  - change (0 + S m)%nat with (S m).
    replace (i + Z.of_nat 0) with i in Hfree by lia.
    destruct Hfree as [Hl [Hv Hname]].
    rewrite walk_slots_S. cbv zeta. rewrite Hl, Hv.
    destruct Hname as [-> | ->]; reflexivity.
  - assert (Hfree' : free_slot hdr
                       (entry + sizeof_fat_entry * (i + 1 + Z.of_nat k)))
      by (replace (i + 1 + Z.of_nat k) with (i + Z.of_nat (S k)) by lia;
          exact Hfree).
    cbn [Nat.add]. rewrite !walk_slots_S. cbv zeta.
    destruct (is_long_name_entry hdr (entry + sizeof_fat_entry * i)).
    { destruct (fat_handle_long_dir_entry hdr ctx
                  (entry + sizeof_fat_entry * i)) as [ctxl|f];
        cbn [bind]; [|reflexivity].
      apply IH. exact Hfree'. }
    destruct (volume_id hdr (entry + sizeof_fat_entry * i));
      [apply IH; exact Hfree'|].
    destruct (DIR_Name0 hdr (entry + sizeof_fat_entry * i)
              =? FAT_ENTRY_DIRNAME_NO_MORE_ENTRIES); [reflexivity|].
    destruct (DIR_Name0 hdr (entry + sizeof_fat_entry * i)
              =? FAT_ENTRY_DIRNAME_EMPTY_DIR); [reflexivity|].
    destruct (long_name_for hdr ctx (entry + sizeof_fat_entry * i))
      as [[ctx1 ln]|f]; cbn [bind]; [|reflexivity].
    destruct (cb hdr ft (entry + sizeof_fat_entry * i) ln arg)
      as [[arg1 ret]|f]; cbn [bind]; [|reflexivity].
    destruct (negb (ret =? 0)); [reflexivity|].
    apply IH. exact Hfree'.
Qed.

Lemma walk_clusters_until_free_slot :
  forall chunks fuel epc entry cluster ctx arg last lastc i,
    chain_chunks hdr ft entry cluster chunks last lastc ->
    (length chunks < fuel)%nat ->
    0 <= i < epc ->
    free_slot hdr (last + sizeof_fat_entry * i) ->
    walk_clusters cb fuel epc hdr ft entry cluster ctx arg
    = walk_chunks_until cb epc hdr ft chunks last (Z.to_nat i) ctx arg.
Proof.
  induction chunks as [|q rest IH];
    intros fuel epc entry cluster ctx arg last lastc i Hchain Hfuel Hi Hfree;
    (destruct fuel as [|fuel]; [cbn [length] in Hfuel; lia|]).
  - destruct Hchain as [Hptr _]. unfold chunk_pointer in Hptr.
    cbn [walk_clusters walk_chunks_until]. rewrite Hptr. cbn [bind].
    replace (Z.to_nat epc)
      with (Z.to_nat i + S (Z.to_nat epc - Z.to_nat i - 1))%nat by lia.
    rewrite walk_slots_until_free_slot
      by (replace (0 + Z.of_nat (Z.to_nat i)) with i by lia; exact Hfree).
    destruct (walk_slots cb (Z.to_nat i) hdr ft last 0 ctx arg)
      as [[[c1 a1] ex]|f]; reflexivity.
  - destruct Hchain as [Hptr [Hc [val [Hval [Heoc [Hbad Hrest]]]]]].
    unfold chunk_pointer in Hptr.
    cbn [walk_clusters walk_chunks_until]. rewrite Hptr. cbn [bind].
    destruct (walk_slots cb (Z.to_nat epc) hdr ft q 0 ctx arg)
      as [[[c1 a1] ex]|f] eqn:Es; cbn [bind]; [|reflexivity].
    destruct ex as [r|].
    + apply walk_slots_returns_zero in Es. subst r. reflexivity.
    + replace (cluster =? 0) with false
        by (symmetry; apply Z.eqb_neq; exact Hc).
      rewrite Hval. cbn [bind]. rewrite Heoc, Hbad. cbn [negb ASSERT bind].
      apply (IH fuel epc (Some q) val c1 a1 last lastc i Hrest);
        [cbn [length] in Hfuel; lia | exact Hi | exact Hfree].
Qed.

End WalkChain.

(** The entries a recording walk over chunks logs lie in the chunks, or
    in the last chunk before the slot the walk is cut at. *)
Lemma walk_chunks_until_log :
  forall hdr ft epc chunks last n ctx log0 ctx' log' r,
    0 <= epc ->
    walk_chunks_until record_cb epc hdr ft chunks last n ctx log0
    = Ok (ctx', log', r) ->
    r = 0
    /\ exists l,
         log' = log0 ++ l
         /\ Forall (fun x =>
                      (exists q j, In q chunks /\ 0 <= j < epc
                                   /\ fst x = q + sizeof_fat_entry * j)
                      \/ (exists j, 0 <= j < Z.of_nat n
                                    /\ fst x = last + sizeof_fat_entry * j))
                   l.
Proof.
  intros hdr ft epc chunks. induction chunks as [|q rest IH];
    intros last n ctx log0 ctx' log' r Hepc H; cbn [walk_chunks_until] in H.
  - destruct (walk_slots record_cb n hdr ft last 0 ctx log0)
      as [[[c1 log1] ex]|f] eqn:Es; cbn [bind] in H; [|discriminate H].
    injection H as <- <- <-. split; [reflexivity|].
    destruct (walk_slots_log _ _ _ _ _ _ _ _ _ _ Es) as [js [H1 [H2 [H3 _]]]].
    exists (skipn (length log0) log1). split; [exact H1|].
    apply Forall_map with (f := fst)
      (P := fun e => (exists q j, In q [] /\ 0 <= j < epc
                                  /\ e = q + sizeof_fat_entry * j)
                     \/ (exists j, 0 <= j < Z.of_nat n
                                   /\ e = last + sizeof_fat_entry * j)).
    rewrite H2. apply Forall_map. eapply Forall_impl; [|exact H3].
    intros j [Hj _]. right. exists j. split; [lia | reflexivity].
  - destruct (walk_slots record_cb (Z.to_nat epc) hdr ft q 0 ctx log0)
      as [[[c1 log1] ex]|f] eqn:Es; cbn [bind] in H; [|discriminate H].
    destruct (walk_slots_log _ _ _ _ _ _ _ _ _ _ Es) as [js [H1 [H2 [H3 _]]]].
    assert (Hl1 : Forall (fun x =>
                      (exists q0 j, In q0 (q :: rest) /\ 0 <= j < epc
                                    /\ fst x = q0 + sizeof_fat_entry * j)
                      \/ (exists j, 0 <= j < Z.of_nat n
                                    /\ fst x = last + sizeof_fat_entry * j))
                   (skipn (length log0) log1)).
    { apply Forall_map with (f := fst)
        (P := fun e => (exists q0 j, In q0 (q :: rest) /\ 0 <= j < epc
                                     /\ e = q0 + sizeof_fat_entry * j)
                       \/ (exists j, 0 <= j < Z.of_nat n
                                     /\ e = last + sizeof_fat_entry * j)).
      rewrite H2. apply Forall_map. eapply Forall_impl; [|exact H3].
      intros j [Hj _]. left. exists q, j.
      split; [left; reflexivity|]. split; [lia | reflexivity]. }
    destruct ex as [r1|].
    + injection H as <- <- <-. split; [reflexivity|].
      exists (skipn (length log0) log1). split; [exact H1 | exact Hl1].
    + apply IH in H; [|exact Hepc]. destruct H as [Hr [l2 [Hlog2 Hl2]]].
      split; [exact Hr|].
      exists (skipn (length log0) log1 ++ l2). split.
      * rewrite Hlog2. rewrite H1 at 1. rewrite app_assoc. reflexivity.
      * apply Forall_app. split; [exact Hl1|].
        eapply Forall_impl; [|exact Hl2].
        intros x [[q0 [j [Hin Hj]]]|Hx]; [left | right; exact Hx].
        exists q0, j. split; [right; exact Hin | exact Hj].
Qed.

(** Amended C1. A slot that is neither a long-name slot nor a volume
    label and whose first name byte is 0xE5 ends the walk exactly as a
    first name byte of 0x00 does. When slot [i] of a chunk of the
    directory's cluster chain is such a slot, [fat_walk_directory] is the
    walk of the chunks before it and of the slots before slot [i] of that
    chunk, and returns 0: the callback is called neither for that slot
    nor for any slot after it, in that cluster or in a later one, and the
    FAT is not read for the cluster of the slot. *)
Theorem fat_walk_directory_stops_at_free_slot :
  forall (A : Type) (cb : fat_dentry_cb A) fuel ctx hdr ft entry cluster arg
         chunks last lastc i,
    ft = fat16_type \/ ft = fat32_type ->
    (ft = fat16_type -> cluster = 0 \/ entry = None) ->
    chain_chunks hdr ft entry cluster chunks last lastc ->
    (length chunks < fuel)%nat ->
    0 <= i < entries_per_cluster hdr ->
    free_slot hdr (last + sizeof_fat_entry * i) ->
    fat_walk_directory cb fuel ctx hdr ft entry cluster arg
    = walk_chunks_until cb (entries_per_cluster hdr) hdr ft chunks last
        (Z.to_nat i) (walk_start ctx) arg
    /\ forall ctx' log r,
         fat_walk_directory record_cb fuel ctx hdr ft entry cluster []
         = Ok (ctx', log, r) ->
         r = 0
         /\ Forall (fun x =>
                      (exists q j, In q chunks
                                   /\ 0 <= j < entries_per_cluster hdr
                                   /\ fst x = q + sizeof_fat_entry * j)
                      \/ (exists j, 0 <= j < i
                                    /\ fst x = last + sizeof_fat_entry * j))
                   log.
Proof.
  intros A cb fuel ctx hdr ft entry cluster arg chunks last lastc i
         Hft H16 Hchain Hfuel Hi Hfree.
  assert (Hwalk : forall (B : Type) (cb' : fat_dentry_cb B) b,
             fat_walk_directory cb' fuel ctx hdr ft entry cluster b
             = walk_chunks_until cb' (entries_per_cluster hdr) hdr ft chunks
                 last (Z.to_nat i) (walk_start ctx) b).
  { intros B cb' b. unfold fat_walk_directory.
    replace (fat_type_eqb ft fat16_type || fat_type_eqb ft fat32_type)
      with true by (destruct Hft as [-> | ->]; reflexivity).
    cbn [ASSERT bind].
    assert (H16' : (if fat_type_eqb ft fat16_type
                    then ASSERT ((cluster =? 0) ||
                                 match entry with
                                 | None => true
                                 | Some _ => false
                                 end)
                    else Ok tt) = Ok tt).
    { destruct (fat_type_eqb ft fat16_type) eqn:E16; [|reflexivity].
      assert (ft = fat16_type) by (destruct ft; try discriminate E16;
                                   reflexivity).
      destruct (H16 H) as [-> | ->]; [reflexivity|].
      rewrite orb_true_r. reflexivity. }
    rewrite H16'. cbn [bind].
    apply (walk_clusters_until_free_slot B cb' hdr ft chunks fuel
             (entries_per_cluster hdr) entry cluster (walk_start ctx) b
             last lastc i Hchain Hfuel Hi Hfree). }
  split; [apply Hwalk|].
  intros ctx' log r H. rewrite Hwalk in H.
  apply walk_chunks_until_log in H; [|lia].
  destruct H as [Hr [l [Hlog Hl]]]. cbn [app] in Hlog. subst l.
  split; [exact Hr|].
  eapply Forall_impl; [|exact Hl].
  intros x [Hx|[j [Hj Hx]]]; [left; exact Hx|].
  right. exists j. split; [lia | exact Hx].
Qed.

(** The directory of the volume [chain_hdr] that starts in cluster 2 and
    goes on in cluster 3, where slot 1 is deleted: the walk is the walk of
    the 16 slots of cluster 2 and of slot 0 of cluster 3, and Y.TXT in
    slot 2 of cluster 3 gets no callback. *)
Lemma fat_walk_directory_stops_at_free_slot_witness :
  fat_walk_directory record_cb 2 empty_walk_ctx chain_hdr fat16_type None 2 []
  = walk_chunks_until record_cb 16 chain_hdr fat16_type [17408] 17920 1
      (walk_start empty_walk_ctx) []
  /\ callbacks_of (fat_walk_directory record_cb 2 empty_walk_ctx chain_hdr
                     fat16_type None 2 [])
     = Some (map (fun j => (17408 + 32 * Z.of_nat j, None)) (seq 0 16)
             ++ [(17920, None)], 0)
  /\ live_entry chain_hdr 17984 = true.
Proof.
  split; [|split; vm_compute; reflexivity].
  refine (proj1 (fat_walk_directory_stops_at_free_slot _ record_cb 2
                   empty_walk_ctx chain_hdr fat16_type None 2 [] [17408]
                   17920 3 1 _ _ _ _ _ _)).
  - left. reflexivity.
  - intros _. right. reflexivity.
  - cbn [chain_chunks]. split; [reflexivity|]. split; [discriminate|].
    exists 3. repeat split; reflexivity.
  - simpl. lia.
  - vm_compute. split; [discriminate | reflexivity].
  - unfold free_slot. split; [reflexivity|]. split; [reflexivity|].
    right. reflexivity.
Defined.

(** * The search and the resolution of a path *)

Section WalkerSimulation.

Variables A B : Type.
Variable cb1 : fat_dentry_cb A.
Variable cb2 : fat_dentry_cb B.
Variable hdr : fat_header.
Variable ft : fat_type.

(** [R] relates the two states while both walks go on, [S] once both
    callbacks have asked to stop. *)
Variable R S : A -> B -> Prop.

Hypothesis cb_sim :
  forall e ln a b,
    R a b ->
    outcome_sim (fun x1 x2 =>
                   snd x1 = snd x2 /\
                   (snd x1 = 0 -> R (fst x1) (fst x2)) /\
                   (snd x1 <> 0 -> S (fst x1) (fst x2)))
                (cb1 hdr ft e ln a) (cb2 hdr ft e ln b).

Lemma walk_slots_sim :
  forall n entry i ctx a b,
    R a b ->
    outcome_sim (slots_sim R S)
      (walk_slots cb1 n hdr ft entry i ctx a)
      (walk_slots cb2 n hdr ft entry i ctx b).
Proof.
  induction n as [|n IH]; intros entry i ctx a b HR.
  - simpl. unfold slots_sim. simpl. auto.
  - rewrite !walk_slots_S. cbv zeta.
    destruct (is_long_name_entry hdr _).
    { destruct (fat_handle_long_dir_entry hdr ctx _) as [ctx'|f];
        cbn [bind]; [apply IH; exact HR | reflexivity]. }
    destruct (volume_id hdr _); [apply IH; exact HR|].
    destruct (DIR_Name0 hdr _ =? FAT_ENTRY_DIRNAME_NO_MORE_ENTRIES).
    { simpl. unfold slots_sim. simpl. auto. }
    destruct (DIR_Name0 hdr _ =? FAT_ENTRY_DIRNAME_EMPTY_DIR).
    { simpl. unfold slots_sim. simpl. auto. }
    destruct (long_name_for hdr ctx _) as [[ctx1 ln]|f]; cbn [bind];
      [|reflexivity].
    pose proof (cb_sim (entry + sizeof_fat_entry * i) ln a b HR) as Hcb.
    destruct (cb1 hdr ft _ ln a) as [[a' r1]|f1];
      destruct (cb2 hdr ft _ ln b) as [[b' r2]|f2];
      simpl in Hcb; try contradiction; cbn [bind]; [|exact Hcb].
    destruct Hcb as [<- [HR0 HS]].
    destruct (Z.eqb_spec r1 0) as [E|E]; cbn [negb].
    + apply IH. apply HR0. exact E.
    + simpl. unfold slots_sim. simpl. auto.
Qed.

Lemma walk_clusters_sim :
  forall fuel epc entry cluster ctx a b,
    R a b ->
    outcome_sim (walk_sim R S)
      (walk_clusters cb1 fuel epc hdr ft entry cluster ctx a)
      (walk_clusters cb2 fuel epc hdr ft entry cluster ctx b).
Proof.
  induction fuel as [|fuel IH]; intros epc entry cluster ctx a b HR.
  - reflexivity.
  - cbn [walk_clusters].
    destruct (if negb (cluster =? 0)
              then p <- fat_get_pointer_to_cluster_data hdr cluster ;; Ok (Some p)
              else Ok entry) as [[e|]|f]; cbn [bind]; try reflexivity.
    pose proof (walk_slots_sim (Z.to_nat epc) e 0 ctx a b HR) as Hs.
    destruct (walk_slots cb1 (Z.to_nat epc) hdr ft e 0 ctx a)
      as [[[c1 a1] x1]|f1];
      destruct (walk_slots cb2 (Z.to_nat epc) hdr ft e 0 ctx b)
        as [[[c2 b2] x2]|f2];
      simpl in Hs; try contradiction; cbn [bind]; [|exact Hs].
    destruct Hs as [Hc [Hx Hrel]]. simpl in Hc, Hx, Hrel. subst c2 x2.
    destruct x1 as [r|].
    + simpl. unfold walk_sim. simpl. auto.
    + destruct (cluster =? 0).
      { simpl. unfold walk_sim. simpl. auto. }
      destruct (fat_read_fat_entry hdr ft cluster 0) as [val|f];
        cbn [bind]; [|reflexivity].
      destruct (fat_is_end_of_clusterchain ft val).
      { simpl. unfold walk_sim. simpl. auto. }
      destruct (ASSERT (negb (fat_is_bad_cluster ft val))); cbn [bind];
        [|reflexivity].
      apply IH. exact Hrel.
Qed.

Lemma fat_walk_directory_sim :
  forall fuel ctx entry cluster a b,
    R a b ->
    outcome_sim (walk_sim R S)
      (fat_walk_directory cb1 fuel ctx hdr ft entry cluster a)
      (fat_walk_directory cb2 fuel ctx hdr ft entry cluster b).
Proof.
  intros fuel ctx entry cluster a b HR. unfold fat_walk_directory.
  destruct (ASSERT (fat_type_eqb ft fat16_type || fat_type_eqb ft fat32_type));
    cbn [bind]; [|reflexivity].
  destruct (if fat_type_eqb ft fat16_type
            then ASSERT ((cluster =? 0) ||
                         match entry with None => true | Some _ => false end)
            else Ok tt); cbn [bind]; [|reflexivity].
  apply walk_clusters_sim. exact HR.
Qed.

End WalkerSimulation.

Lemma component_app :
  forall comp t,
    ~ In 0 comp -> ~ In 47 comp ->
    t = [] \/ hd 0 t = 47 ->
    component (comp ++ t) = comp /\ after_component (comp ++ t) = t.
Proof.
  induction comp as [|c comp IH]; intros t H0 H47 Ht.
  - cbn [app]. destruct Ht as [-> | Ht]; [split; reflexivity|].
    destruct t as [|x t]; [split; reflexivity|].
    cbn [hd] in Ht. subst x. split; reflexivity.
  - cbn [app component after_component].
    destruct (Z.eqb_spec c 0) as [->|_]; [exfalso; apply H0; left; reflexivity|].
    destruct (Z.eqb_spec c 47) as [->|_];
      [exfalso; apply H47; left; reflexivity|].
    cbn [negb andb]. destruct (IH t) as [IH1 IH2]; try assumption.
    + intro H. apply H0. right. exact H.
    + intro H. apply H47. right. exact H.
    + rewrite IH1, IH2. split; reflexivity.
Qed.

Lemma join_path_cons :
  forall comp rest, join_path (comp :: rest) = comp ++ rest_path rest.
Proof.
  intros comp [|r rest]; cbn [join_path rest_path];
    [rewrite app_nil_r|]; reflexivity.
Qed.

Lemma rest_path_head :
  forall rest, rest_path rest = [] \/ hd 0 (rest_path rest) = 47.
Proof. intros [|r rest]; [left | right]; reflexivity. Qed.

(** A joined path whose last component is not empty starts with a
    character. *)
Lemma join_path_deref :
  forall comps,
    Forall good_component comps -> comps <> [] -> last comps [] <> [] ->
    deref (join_path comps) <> 0.
Proof.
  intros [|comp rest] Hall Hne Hlast; [contradiction|].
  inversion Hall as [|? ? [H0 _] _]; subst.
  rewrite join_path_cons.
  destruct comp as [|c comp].
  - destruct rest as [|r rest]; [contradiction Hlast; reflexivity|].
    cbn. discriminate.
  - cbn. intro E. apply H0. left. exact E.
Qed.

Lemma last_app_nonempty :
  forall (l1 l2 : list Z) d, l2 <> [] -> last (l1 ++ l2) d = last l2 d.
Proof.
  induction l1 as [|x l1 IH]; intros l2 d Hne; [reflexivity|].
  cbn [app last]. destruct (l1 ++ l2) eqn:E.
  - apply app_eq_nil in E. destruct E as [_ E]. contradiction.
  - rewrite <- E. apply IH. exact Hne.
Qed.

Lemma join_path_good :
  forall comps,
    Forall good_component comps -> last comps [] <> [] ->
    good_path (join_path comps).
Proof.
  induction comps as [|comp rest IH]; intros Hall Hlast;
    [contradiction Hlast; reflexivity|].
  inversion Hall as [|? ? [H0 [H47 _]] Hrest]; subst.
  destruct rest as [|r rest].
  - cbn [join_path]. split; [exact H0|].
    cbn [last] in Hlast. intro E. apply H47. rewrite <- E.
    destruct comp as [|c comp]; [contradiction|].
    apply (@exists_last _ (c :: comp)) in Hlast.
    destruct Hlast as [l' [a Hl]]. rewrite Hl. rewrite last_last.
    apply in_or_app. right. left. reflexivity.
  - assert (IH' : good_path (join_path (r :: rest))) by (apply IH; assumption).
    destruct IH' as [I0 Il].
    change (join_path (comp :: r :: rest))
      with (comp ++ 47 :: join_path (r :: rest)).
    split.
    + intro Hin. apply in_app_or in Hin.
      destruct Hin as [Hin|[Hin|Hin]];
        [exact (H0 Hin) | discriminate Hin | exact (I0 Hin)].
    + assert (Hj : join_path (r :: rest) <> []).
      { intro E. apply (join_path_deref (r :: rest)); try assumption;
          [discriminate|]. rewrite E. reflexivity. }
      replace (last (comp ++ 47 :: join_path (r :: rest)) 0)
        with (last (join_path (r :: rest)) 0); [exact Il|].
      rewrite (last_app_nonempty comp (47 :: join_path (r :: rest)))
        by discriminate.
      cbn [last]. destruct (join_path (r :: rest)); [contradiction|].
      reflexivity.
Qed.

Lemma bind_assoc :
  forall (X Y W : Type) (m : outcome X) (k : X -> outcome Y)
         (h : Y -> outcome W),
    bind (bind m k) h = bind m (fun x => bind (k x) h).
Proof. intros X Y W [x|f] k h; reflexivity. Qed.

(** One call of the search callback and of [match_cb] on the same
    entry. *)
Lemma fat_search_entry_cb_sim :
  forall hdr ft comp rest e ln c m,
    good_component comp ->
    rest = [] \/ deref (join_path rest) <> 0 ->
    looking_for comp rest c m ->
    outcome_sim (fun x1 x2 =>
                   snd x1 = snd x2 /\
                   (snd x1 = 0 -> looking_for comp rest (fst x1) (fst x2)) /\
                   (snd x1 <> 0 -> stopped_at hdr rest (fst x1) (fst x2)))
                (fat_search_entry_cb hdr ft e ln c)
                (match_cb comp hdr ft e ln m).
Proof.
  intros hdr ft comp rest e ln c m [H0 [H47 Hlen]] Hrest
         [Hm [Hsc [Hres [Hsub [Hnd Hstate]]]]].
  subst m.
  assert (Hat : exists c1,
             at_comparison c = Ok c1
             /\ pcl c1 <> 0 /\ c_str (pc c1) = comp
             /\ path c1 = rest_path rest
             /\ single_comp c1 = false /\ result c1 = None
             /\ subdir_cluster c1 = 0 /\ not_dir c1 = false).
  { destruct Hstate as [[Hpcl Hpath]|[Hpcl [Hpc Hpath]]].
    - destruct (component_app comp (rest_path rest) H0 H47
                  (rest_path_head rest)) as [Hcomp Hafter].
      destruct (fat_fetch_next_component_spec c Hpcl)
        as [c1 [Hf [Hpcl1 [Hpc1 [Hpath1 [Hsc1 [Hres1 [Hsub1 Hnd1]]]]]]]].
      { rewrite Hpath, Hcomp. exact Hlen. }
      exists c1. unfold at_comparison. rewrite Hpcl. cbn [Z.eqb].
      rewrite Hf. cbn [bind]. rewrite Hpath, Hcomp in *.
      rewrite Hafter in Hpath1.
      repeat split; try congruence. lia.
    - exists c. unfold at_comparison.
      replace (pcl c =? 0) with false
        by (symmetry; apply Z.eqb_neq; exact Hpcl).
      repeat split; assumption. }
  destruct Hat as [c1 [Hat [Hpcl1 [Hpc1 [Hpath1 [Hsc1 [Hres1 [Hsub1 Hnd1]]]]]]]].
  rewrite fat_search_entry_cb_eq, Hat. cbn [bind].
  destruct c1 as [p sc pc0 pcl0 sn res sub nd].
  cbn [path single_comp pc pcl result subdir_cluster not_dir] in *.
  subst p sc res sub nd.
  rewrite fat_search_entry_cb_compare_unfold. cbv zeta.
  assert (Hd : compare_differs hdr e ln pc0
               = negb (name_matches hdr comp (e, ln))).
  { unfold compare_differs, name_matches. cbn [fst snd]. rewrite Hpc1.
    destruct ln; reflexivity. }
  rewrite Hd. unfold match_cb.
  destruct (name_matches hdr comp (e, ln)); cbn [negb orb].
  2:{ cbn [outcome_sim fst snd]. split; [reflexivity|]. split.
      - intros _. unfold looking_for.
        cbn [path single_comp pc pcl result subdir_cluster not_dir].
        repeat split; try reflexivity. right. repeat split; assumption.
      - intro C. contradiction C. reflexivity. }
  destruct rest as [|r rest'].
  - cbn [rest_path deref hd Z.eqb outcome_sim fst snd].
    split; [reflexivity|]. split; [discriminate|]. intros _.
    exists e. cbn. auto.
  - cbn [rest_path deref hd next tl].
    replace (47 =? 0) with false by reflexivity.
    replace (47 =? 47) with true by reflexivity.
    cbn [ASSERT bind].
    destruct Hrest as [Hrest|Hrest]; [discriminate Hrest|].
    fold (deref (join_path (r :: rest'))).
    replace (deref (join_path (r :: rest')) =? 0) with false
      by (symmetry; apply Z.eqb_neq; exact Hrest).
    destruct (directory hdr e) eqn:Hdir; cbn [negb outcome_sim fst snd].
    + split; [reflexivity|]. split; [discriminate|]. intros _.
      exists e. cbn [single_comp result not_dir pcl path subdir_cluster].
      rewrite Hdir. repeat split; reflexivity.
    + split; [reflexivity|]. split; [discriminate|]. intros _.
      exists e. cbn [single_comp result not_dir pcl path subdir_cluster].
      rewrite Hdir. repeat split; reflexivity.
Qed.

(** The search of a directory and of what lies below it, next to the
    resolution of the components. *)
Lemma search_resolves :
  forall hdr ft fuel rest comp n wctx entry cluster c,
    Forall good_component (comp :: rest) ->
    last (comp :: rest) [] <> [] ->
    looking_for comp rest c None ->
    (length rest <= n)%nat ->
    outcome_sim (fun x r => result (snd x) = r /\ not_dir (snd x) = false)
      ('(w, c', _) <-
         fat_walk_directory fat_search_entry_cb fuel wctx hdr ft entry
                            cluster c ;;
       search_subdirs n fuel hdr ft w c')
      (fat_resolve fuel hdr ft wctx entry cluster (comp :: rest)).
Proof.
  intros hdr ft fuel rest.
  induction rest as [|r rest' IH];
    intros comp n wctx entry cluster c Hall Hlast Hlook Hn.
  - inversion Hall as [|? ? Hcomp _]; subst.
    pose proof (fat_walk_directory_sim _ _ fat_search_entry_cb (match_cb comp)
                  hdr ft (looking_for comp []) (stopped_at hdr [])
                  (fun e ln a b H =>
                     fat_search_entry_cb_sim hdr ft comp [] e ln a b Hcomp
                       (or_introl eq_refl) H)
                  fuel wctx entry cluster c None Hlook) as Hw.
    cbn [fat_resolve].
    destruct (fat_walk_directory fat_search_entry_cb fuel wctx hdr ft entry
                cluster c) as [[[w1 c1] r1]|f1];
      destruct (fat_walk_directory (match_cb comp) fuel wctx hdr ft entry
                  cluster None) as [[[w2 m2] r2]|f2];
      cbn [outcome_sim] in Hw; try contradiction; cbn [bind];
      [|exact Hw].
    destruct Hw as [_ [_ Hrel]]. cbn [fst snd] in Hrel.
    destruct Hrel as [[Hm [_ [Hres [Hsub [Hnd _]]]]]|[e [Hm [_ Hfin]]]].
    + subst m2. rewrite search_subdirs_done by exact Hsub.
      cbn [outcome_sim snd]. auto.
    + subst m2. destruct Hfin as [Hres [Hnd Hsub]].
      rewrite search_subdirs_done by exact Hsub.
      cbn [outcome_sim snd]. auto.
  - inversion Hall as [|? ? Hcomp Hrest]; subst.
    assert (Hderef : deref (join_path (r :: rest')) <> 0).
    { apply join_path_deref; [exact Hrest | discriminate | exact Hlast]. }
    pose proof (fat_walk_directory_sim _ _ fat_search_entry_cb (match_cb comp)
                  hdr ft (looking_for comp (r :: rest'))
                  (stopped_at hdr (r :: rest'))
                  (fun e ln a b H =>
                     fat_search_entry_cb_sim hdr ft comp (r :: rest') e ln a b
                       Hcomp (or_intror Hderef) H)
                  fuel wctx entry cluster c None Hlook) as Hw.
    cbn [fat_resolve].
    destruct (fat_walk_directory fat_search_entry_cb fuel wctx hdr ft entry
                cluster c) as [[[w1 c1] r1]|f1];
      destruct (fat_walk_directory (match_cb comp) fuel wctx hdr ft entry
                  cluster None) as [[[w2 m2] r2]|f2];
      cbn [outcome_sim] in Hw; try contradiction; cbn [bind];
      [|exact Hw].
    destruct Hw as [Hwctx [_ Hrel]]. cbn [fst snd] in Hwctx, Hrel. subst w2.
    destruct Hrel as [[Hm [_ [Hres [Hsub [Hnd _]]]]]|[e [Hm [Hsc Hfin]]]].
    + subst m2. rewrite search_subdirs_done by exact Hsub.
      cbn [outcome_sim snd]. auto.
    + subst m2. destruct Hfin as [Hres [Hnd Hdir]].
      destruct (directory hdr e).
      2:{ rewrite search_subdirs_done by exact Hdir.
          cbn [outcome_sim snd]. auto. }
      destruct Hdir as [Hpcl [Hpath Hsub]].
      destruct (Z.eqb_spec (fat_get_first_cluster hdr e) 0) as [E|E].
      { rewrite search_subdirs_done by (rewrite Hsub; exact E).
        cbn [outcome_sim snd]. auto. }
      destruct n as [|n]; [cbn [length] in Hn; lia|].
      cbn [search_subdirs]. rewrite Hsub.
      replace (fat_get_first_cluster hdr e =? 0) with false
        by (symmetry; apply Z.eqb_neq; exact E).
      apply IH.
      * exact Hrest.
      * exact Hlast.
      * unfold looking_for.
        cbn [path single_comp pc pcl result subdir_cluster not_dir].
        repeat split; try assumption.
        left. split; [exact Hpcl|]. rewrite Hpath. apply join_path_cons.
      * cbn [length] in Hn. lia.
Qed.

Lemma fat_search_run_resolves :
  forall fuel hdr ft root rdc comps,
    Forall good_component comps -> comps <> [] -> last comps [] <> [] ->
    (length comps <= S fuel)%nat ->
    outcome_sim (fun c r => result c = r /\ not_dir c = false)
      (fat_search_run fuel hdr ft root rdc (join_path comps))
      (fat_resolve fuel hdr ft (snd (fat_init_search_ctx [] false))
                   (Some root) rdc comps).
Proof.
  intros fuel hdr ft root rdc [|comp rest] Hall Hne Hlast Hlen;
    [contradiction|].
  pose proof (search_resolves hdr ft fuel rest comp fuel
                (snd (fat_init_search_ctx [] false)) (Some root) rdc
                (fst (fat_init_search_ctx (join_path (comp :: rest)) false))
                Hall Hlast) as Hs.
  unfold fat_search_run. cbn [fat_init_search_ctx fst snd] in *.
  assert (Hlook : looking_for comp rest
                    (mk_search_ctx (join_path (comp :: rest)) false [] 0 []
                                   None 0 false) None).
  { unfold looking_for.
    cbn [path single_comp pc pcl result subdir_cluster not_dir].
    repeat split; try reflexivity. left. split; [reflexivity|].
    apply join_path_cons. }
  specialize (Hs Hlook ltac:(cbn [length] in Hlen; lia)).
  destruct (fat_walk_directory fat_search_entry_cb fuel
              (mk_walk_ctx [] 0 0 false) hdr ft (Some root) rdc
              (mk_search_ctx (join_path (comp :: rest)) false [] 0 [] None 0
                             false)) as [[[w1 c1] r1]|f1];
    cbn [bind] in *; [|exact Hs].
  destruct (search_subdirs fuel fuel hdr ft w1 c1) as [[w2 c2]|f2];
    cbn [bind]; exact Hs.
Qed.

(** C2. [fat_search_entry] on "/" returns the root directory pointer.
    A path "/c1/.../cn" is searched as its components resolve: when the
    resolution ends at an entry, the search returns that entry with errno
    0, and when that entry is not a directory the search of the same path
    followed by '/' returns NULL with -ENOTDIR (-20); when the resolution
    finds no entry the search returns NULL with -ENOENT (-2). After a
    search that leaves [result] NULL and [not_dir] false the errno is
    -ENOENT. *)
Theorem fat_search_entry_results :
  (forall fuel hdr ft t root cluster err,
      (if fat_type_eqb ft fat_unknown then fat_get_type hdr else Ok ft) = Ok t ->
      fat_get_rootdir hdr t = Ok (root, cluster) ->
      fat_search_entry fuel hdr ft [47] err = Ok (Some root, err))
  /\ (forall fuel hdr ft t root cluster comps r v,
         (if fat_type_eqb ft fat_unknown then fat_get_type hdr else Ok ft) = Ok t ->
         fat_get_rootdir hdr t = Ok (root, cluster) ->
         Forall good_component comps ->
         last comps [] <> [] ->
         (length comps <= S fuel)%nat ->
         fat_resolve fuel hdr t (snd (fat_init_search_ctx [] false))
                     (Some root) cluster comps = Ok r ->
         fat_search_entry fuel hdr ft (47 :: join_path comps) (Some v)
         = Ok (r, Some (match r with Some _ => 0 | None => -2 end))
         /\ (forall e,
               r = Some e -> directory hdr e = false ->
               fat_search_entry fuel hdr ft (47 :: join_path comps ++ [47])
                                (Some v)
               = Ok (None, Some (-20))))
  /\ (forall fuel hdr ft t root cluster p v ctx,
         (if fat_type_eqb ft fat_unknown then fat_get_type hdr else Ok ft) = Ok t ->
         fat_get_rootdir hdr t = Ok (root, cluster) ->
         deref p <> 0 ->
         fat_search_run fuel hdr t root cluster p = Ok ctx ->
         result ctx = None -> not_dir ctx = false ->
         fat_search_entry fuel hdr ft (47 :: p) (Some v) = Ok (None, Some (-2))).
Proof.
  split; [|split].
  - exact fat_search_entry_root.
  - intros fuel hdr ft t root cluster comps r v Ht Hroot Hall Hlast Hlen Hres.
    assert (Hne : comps <> [])
      by (intro E; subst comps; apply Hlast; reflexivity).
    pose proof (fat_search_run_resolves fuel hdr t root cluster comps
                  Hall Hne Hlast Hlen) as Hsim.
    rewrite Hres in Hsim.
    destruct (fat_search_run fuel hdr t root cluster (join_path comps))
      as [c|f] eqn:Hrun; cbn [outcome_sim] in Hsim; [|contradiction].
    destruct Hsim as [Hr Hnd].
    assert (Hfound :
              fat_search_entry fuel hdr ft (47 :: join_path comps) (Some v)
              = Ok (r, Some (match r with Some _ => 0 | None => -2 end))).
    { rewrite (fat_search_entry_errno fuel hdr ft t root cluster
                 (join_path comps) v c Ht Hroot
                 (join_path_deref comps Hall Hne Hlast) Hrun).
      rewrite Hnd, Hr. destruct r; reflexivity. }
    split; [exact Hfound|].
    intros e -> Hdir.
    apply (fat_search_entry_slash_sync fuel hdr ft (join_path comps) e v v
             (Some 0)
             (join_path_good comps Hall Hlast)).
    + intro E. apply (join_path_deref comps Hall Hne Hlast).
      rewrite E. reflexivity.
    + exact Hfound.
    + exact Hdir.
  - intros fuel hdr ft t root cluster p v ctx Ht Hroot Hp Hrun Hres Hnd.
    rewrite (fat_search_entry_errno fuel hdr ft t root cluster p v ctx
               Ht Hroot Hp Hrun).
    rewrite Hres, Hnd. reflexivity.
Qed.

(** On the sample volume: "/" gives the root directory at 16896;
    "/A/B/C.BIN" resolves through two sub-directories to the file at
    17920, which the search returns with errno 0, and "/A/B/C.BIN/" gives
    NULL with -ENOTDIR; "/longfi~1.txt" gives NULL with -ENOENT. *)
Lemma fat_search_entry_results_witness :
  fat_search_entry 5 sample_hdr fat_unknown [47] (Some 7)
  = Ok (Some 16896, Some 7)
  /\ (fat_search_entry 5 sample_hdr fat_unknown path_a_b_c (Some 7)
      = Ok (Some 17920, Some 0)
      /\ fat_search_entry 5 sample_hdr fat_unknown (path_a_b_c ++ [47])
           (Some 7) = Ok (None, Some (-20)))
  /\ fat_search_entry 5 sample_hdr fat_unknown
       (47 :: map tolower (tl path_alias)) (Some 7) = Ok (None, Some (-2)).
Proof.
  destruct fat_search_entry_results as [H1 [H2 H3]].
  split; [|split].
  - apply (H1 5%nat sample_hdr fat_unknown fat16_type 16896 0 (Some 7));
      reflexivity.
  - assert (Hall : Forall good_component [[65]; [66]; [67; 46; 66; 73; 78]]).
    { repeat constructor; try (vm_compute; reflexivity);
        intro H; simpl in H;
        repeat (destruct H as [H|H]; [discriminate H|]); exact H. }
    destruct (H2 5%nat sample_hdr fat_unknown fat16_type 16896 0
                [[65]; [66]; [67; 46; 66; 73; 78]] (Some 17920) 7
                eq_refl eq_refl Hall) as [Hfound Hslash].
    + discriminate.
    + simpl. lia.
    + vm_compute. reflexivity.
    + split; [exact Hfound|].
      apply (Hslash 17920); reflexivity.
  - refine (H3 5%nat sample_hdr fat_unknown fat16_type 16896 0
              (map tolower (tl path_alias)) 7
              (match fat_search_run 5 sample_hdr fat16_type 16896 0
                       (map tolower (tl path_alias)) with
               | Ok c => c
               | Fault _ => fst (fat_init_search_ctx [] false)
               end) _ _ _ _ _ _);
      vm_compute; (reflexivity || discriminate).
Defined.

(** * The long names of a directory *)

Lemma slots_from_S :
  forall p i n,
    slots_from p i (S n)
    = (p + sizeof_fat_entry * i) :: slots_from p (i + 1) n.
Proof.
  intros p i n. unfold slots_from. cbn [seq map]. f_equal.
  - f_equal. lia.
  - rewrite <- seq_shift, map_map. apply map_ext. intro j. f_equal. lia.
Qed.

Lemma forallb_rev :
  forall (f : Z -> bool) l, forallb f (rev l) = forallb f l.
Proof.
  intros f l. induction l as [|x l IH]; [reflexivity|].
  cbn [rev forallb]. rewrite forallb_app, IH. cbn [forallb].
  rewrite andb_true_r. apply andb_comm.
Qed.

(** [append_chars] does not leave the buffer while the characters fit,
    and keeps the context valid exactly when all characters are in the
    whitelist. *)
Lemma append_chars_fits :
  forall cs ctx,
    0 <= lname_sz ctx ->
    lname_sz ctx + Z.of_nat (length cs) <= 256 ->
    exists ctx',
      append_chars cs ctx = Ok ctx'
      /\ is_valid ctx'
         = is_valid ctx && forallb fat32_is_valid_filename_character cs.
Proof.
  induction cs as [|c cs IH]; intros ctx H0 Hfit.
  - exists ctx. cbn. rewrite andb_true_r. auto.
  - cbn [append_chars forallb length] in *.
    destruct (fat32_is_valid_filename_character c); cbn [negb andb].
    + unfold arr_set, sizeof_lname_buf.
      replace ((0 <=? lname_sz ctx) && (lname_sz ctx <? 256)) with true
        by (symmetry; apply andb_true_iff;
            split; [apply Z.leb_le | apply Z.ltb_lt]; lia).
      cbn [bind].
      destruct (IH (mk_walk_ctx (upd (lname_buf ctx)
                                     (Z.to_nat (lname_sz ctx)) c)
                                (s16 (lname_sz ctx + 1)) (lname_chksum ctx)
                                (is_valid ctx))) as [ctx' [Hrun Hv]].
      * cbn [lname_sz]. rewrite s16_small by lia. lia.
      * cbn [lname_sz]. rewrite s16_small by lia. lia.
      * exists ctx'. split; [exact Hrun | exact Hv].
    + exists (set_invalid ctx). split; [reflexivity|].
      cbn. rewrite andb_false_r. reflexivity.
Qed.

Lemma holds_run_length :
  forall hdr ctx run,
    holds_run hdr ctx run ->
    lname_sz ctx = Z.of_nat (length (run_name hdr run)).
Proof.
  intros hdr ctx run [_ [H0 Hpre]].
  apply (f_equal (@length Z)) in Hpre.
  rewrite arr_prefix_length, length_rev in Hpre. lia.
Qed.

Lemma forallb_valid_Forall :
  forall cs,
    forallb fat32_is_valid_filename_character cs = true ->
    Forall (fun c => fat32_is_valid_filename_character c = true) cs.
Proof.
  intros cs H. apply Forall_forall. intros c Hc.
  rewrite forallb_forall in H. apply H. exact Hc.
Qed.

(** The handler of a long-name slot, next to [run_add]. *)
Lemma fat_handle_long_dir_entry_holds :
  forall hdr ctx st le,
    holds_lname hdr ctx st ->
    is_long_name_entry hdr le = true ->
    slot_fits hdr st le = true ->
    exists ctx',
      fat_handle_long_dir_entry hdr ctx le = Ok ctx'
      /\ holds_lname hdr ctx' (run_add hdr st le).
Proof.
  intros hdr ctx st le [Hchk [Hval Hrun]] Hlong Hfit.
  unfold fat_handle_long_dir_entry, run_add, slot_fits in *.
  set (ctx0 := if negb (lname_chksum ctx =? LDIR_Chksum hdr le)
               then mk_walk_ctx (bzero (lname_buf ctx) sizeof_lname_chksum) 0
                      (LDIR_Chksum hdr le) true
               else ctx).
  set (st0 := run_restart hdr st le) in *.
  assert (H0 : holds_lname hdr ctx0 st0
               /\ lname_chksum ctx0 = LDIR_Chksum hdr le).
  { unfold ctx0, st0, run_restart. rewrite Hchk.
    destruct (Z.eqb_spec (run_chksum st) (LDIR_Chksum hdr le)) as [E|E];
      cbn [negb].
    - split; [|congruence]. split; [exact Hchk|]. split; assumption.
    - split; [|reflexivity]. split; [reflexivity|]. split; [reflexivity|].
      intros _. cbn. split; [|lia].
      unfold holds_run. cbn. split; [constructor|]. split; [lia|reflexivity]. }
  clearbody ctx0 st0. destruct H0 as [[Hchk0 [Hval0 Hrun0]] Hle].
  rewrite Hval0. destruct (run_valid st0) eqn:Hv0; cbn [negb].
  2:{ exists ctx0. split; [reflexivity|].
      split; [exact Hchk0|]. split; [congruence|]. intro C.
      rewrite Hv0 in C. discriminate C. }
  destruct (Hrun0 eq_refl) as [Hhold Hlen].
  pose proof (holds_run_length _ _ _ Hhold) as Hsz.
  unfold slot_good, slot_chars in *.
  assert (Hcase : forall cs,
             slot_chars hdr le = Some cs ->
             (length (run_name hdr (run_slots st0)) + length cs <= 255)%nat ->
             exists ctx',
               append_chars (rev cs) ctx0 = Ok ctx'
               /\ holds_lname hdr ctx'
                    (if forallb fat32_is_valid_filename_character cs
                     then mk_lname_run (run_slots st0 ++ [le])
                            (run_chksum st0) true
                     else mk_lname_run (run_slots st0) (run_chksum st0)
                            false)).
  { intros cs Hcs Hroom.
    destruct (append_chars_fits (rev cs) ctx0) as [ctx' [Happ Hv']].
    - lia.
    - rewrite length_rev. lia.
    - exists ctx'. split; [exact Happ|].
      destruct (append_chars_spec _ _ _ Happ) as [Hchk' _].
      rewrite forallb_rev, Hval0 in Hv'. cbn [andb] in Hv'.
      destruct (forallb fat32_is_valid_filename_character cs) eqn:Hall.
      + split; [cbn; congruence|]. split; [exact Hv'|]. intros _.
        cbn [run_slots]. split.
        * eapply holds_run_extend; try eassumption. congruence.
        * rewrite (run_name_snoc hdr _ le cs Hcs), length_app. lia.
      + split; [cbn; congruence|]. split; [exact Hv'|].
        intro C. discriminate C. }
  destruct (scan_slot hdr le) as [|cs|cs] eqn:Hscan.
  - exists (set_invalid ctx0). split; [reflexivity|].
    split; [exact Hchk0|]. split; [reflexivity|]. intro C. discriminate C.
  - apply Hcase; [unfold slot_chars; rewrite Hscan; reflexivity|].
    apply Nat.leb_le. exact Hfit.
  - apply Hcase; [unfold slot_chars; rewrite Hscan; reflexivity|].
    apply Nat.leb_le. exact Hfit.
Qed.

Lemma holds_lname_reset :
  forall hdr ctx st,
    is_valid ctx = run_valid st ->
    holds_lname hdr (reset_lname ctx) (run_reset st).
Proof.
  intros hdr ctx st Hv. unfold holds_lname, reset_lname, run_reset.
  cbn [lname_chksum is_valid run_chksum run_valid run_slots lname_sz
       lname_buf].
  split; [reflexivity|]. split; [exact Hv|]. intros _. split.
  - unfold holds_run. cbn. split; [constructor|]. split; [lia|reflexivity].
  - cbn. lia.
Qed.

(** The long name handed over with an entry, next to [run_long_name]. *)
Lemma long_name_for_holds :
  forall hdr ctx st e,
    holds_lname hdr ctx st ->
    exists ctx1,
      long_name_for hdr ctx e = Ok (ctx1, run_long_name hdr st e)
      /\ holds_lname hdr (reset_lname ctx1) (run_reset st).
Proof.
  intros hdr ctx st e [Hchk [Hval Hrun]].
  unfold long_name_for, run_long_name. rewrite Hval.
  destruct (run_valid st) eqn:Hv.
  2:{ rewrite andb_false_r. exists ctx. split; [reflexivity|].
      apply holds_lname_reset. congruence. }
  destruct (Hrun eq_refl) as [Hhold Hlen].
  pose proof (holds_run_length _ _ _ Hhold) as Hsz.
  destruct Hhold as [Hall [_ Hpre]].
  rewrite andb_true_r. cbn [andb].
  rewrite s16_small
    by (pose proof (shortname_checksum_range (DIR_Name hdr e)); lia).
  rewrite Hchk.
  destruct (length (run_name hdr (run_slots st))) as [|k] eqn:Hk.
  - rewrite Hsz. cbn. exists ctx. split; [reflexivity|].
    apply holds_lname_reset. congruence.
  - replace (0 <? lname_sz ctx) with true by (symmetry; apply Z.ltb_lt; lia).
    cbn [Nat.eqb negb andb].
    destruct (run_chksum st =? shortname_checksum (DIR_Name hdr e)).
    2:{ exists ctx. split; [reflexivity|].
        apply holds_lname_reset. congruence. }
    unfold arr_set, sizeof_lname_buf.
    replace ((0 <=? lname_sz ctx) && (lname_sz ctx <? 256)) with true
      by (symmetry; apply andb_true_iff;
          split; [apply Z.leb_le | apply Z.ltb_lt]; lia).
    cbn [bind].
    pose proof (run_name_valid _ _ _ Hall) as Hvalid.
    assert (Hname : c_str (str_reverse (upd (lname_buf ctx)
                                           (Z.to_nat (lname_sz ctx)) 0)
                             (lname_sz ctx))
                    = run_name hdr (run_slots st)).
    { unfold str_reverse. rewrite arr_prefix_upd by lia.
      rewrite Hpre, rev_involutive.
      rewrite c_str_app by (apply valid_chars_no_nul; exact Hvalid).
      rewrite c_str_at_nul by (rewrite hd_skipn; apply nth_upd_same).
      apply app_nil_r. }
    rewrite Hname. eexists. split; [reflexivity|].
    apply holds_lname_reset. cbn. congruence.
Qed.

Lemma slots_listing_app :
  forall hdr s1 s2 st,
    slots_listing hdr (s1 ++ s2) st
    = if existsb (free_slotb hdr) s1 then slots_listing hdr s1 st
      else slots_listing hdr s1 st
           ++ slots_listing hdr s2 (fold_left (run_step hdr) s1 st).
Proof.
  intros hdr s1. induction s1 as [|s s1 IH]; intros s2 st; [reflexivity|].
  cbn [app slots_listing existsb fold_left].
  destruct (free_slotb hdr s); cbn [orb]; [reflexivity|].
  rewrite IH.
  destruct (is_long_name_entry hdr s || volume_id hdr s);
    destruct (existsb (free_slotb hdr) s1); reflexivity.
Qed.

Lemma names_fit_app :
  forall hdr s1 s2 st,
    names_fit hdr (s1 ++ s2) st
    = names_fit hdr s1 st
      && (existsb (free_slotb hdr) s1
          || names_fit hdr s2 (fold_left (run_step hdr) s1 st)).
Proof.
  intros hdr s1. induction s1 as [|s s1 IH]; intros s2 st; [reflexivity|].
  cbn [app names_fit existsb fold_left].
  destruct (free_slotb hdr s); cbn [orb andb]; [reflexivity|].
  rewrite IH. rewrite andb_assoc. reflexivity.
Qed.

Lemma free_slotb_eq :
  forall hdr s,
    free_slotb hdr s
    = negb (is_long_name_entry hdr s) && negb (volume_id hdr s) &&
      ((DIR_Name0 hdr s =? 0) || (DIR_Name0 hdr s =? 229)).
Proof. reflexivity. Qed.

Lemma run_step_eq :
  forall hdr st s,
    run_step hdr st s
    = if is_long_name_entry hdr s then run_add hdr st s
      else if volume_id hdr s then st else run_reset st.
Proof. reflexivity. Qed.

(** The loop over the slots of a chunk with the recording callback, next
    to the listing of the slots. *)
Lemma walk_slots_slots_listing :
  forall hdr ft n p i ctx st log0,
    holds_lname hdr ctx st ->
    names_fit hdr (slots_from p i n) st = true ->
    exists ctx',
      walk_slots record_cb n hdr ft p i ctx log0
      = Ok (ctx', log0 ++ slots_listing hdr (slots_from p i n) st,
            if existsb (free_slotb hdr) (slots_from p i n)
            then Returned 0 else Exhausted)
      /\ (existsb (free_slotb hdr) (slots_from p i n) = false ->
          holds_lname hdr ctx'
            (fold_left (run_step hdr) (slots_from p i n) st)).
Proof.
  intros hdr ft. induction n as [|n IH]; intros p i ctx st log0 Hh Hfit.
  - exists ctx. cbn. rewrite app_nil_r. auto.
  - rewrite slots_from_S in *. rewrite walk_slots_S. cbv zeta.
    cbn [names_fit slots_listing existsb fold_left] in *.
    rewrite !free_slotb_eq, !run_step_eq.
    rewrite free_slotb_eq, run_step_eq in Hfit.
    unfold FAT_ENTRY_DIRNAME_NO_MORE_ENTRIES, FAT_ENTRY_DIRNAME_EMPTY_DIR.
    destruct (is_long_name_entry hdr (p + sizeof_fat_entry * i)) eqn:Hl;
      cbn [negb andb orb] in *.
    { apply andb_true_iff in Hfit. destruct Hfit as [Hroom Hfit].
      destruct (fat_handle_long_dir_entry_holds hdr ctx st _ Hh Hl Hroom)
        as [ctx1 [Hrun Hh1]].
      rewrite Hrun. cbn [bind]. apply IH; assumption. }
    destruct (volume_id hdr (p + sizeof_fat_entry * i)) eqn:Hv;
      cbn [negb andb orb] in *.
    { apply IH; assumption. }
    destruct (DIR_Name0 hdr (p + sizeof_fat_entry * i) =? 0) eqn:E0;
      cbn [orb] in *.
    { exists ctx. rewrite app_nil_r. split; [reflexivity | discriminate]. }
    destruct (DIR_Name0 hdr (p + sizeof_fat_entry * i) =? 229) eqn:E5;
      cbn [orb] in *.
    { exists ctx. rewrite app_nil_r. split; [reflexivity | discriminate]. }
    destruct (long_name_for_holds hdr ctx st (p + sizeof_fat_entry * i) Hh)
      as [ctx1 [Hln Hh1]].
    rewrite Hln. cbn [bind]. unfold record_cb at 1. cbn [bind Z.eqb negb].
    destruct (IH p (i + 1) (reset_lname ctx1) (run_reset st)
                (log0 ++ [(p + sizeof_fat_entry * i,
                           run_long_name hdr st (p + sizeof_fat_entry * i))])
                Hh1 Hfit) as [ctx' [Hrun Hh']].
    exists ctx'. rewrite Hrun, <- app_assoc. split; [reflexivity | exact Hh'].
Qed.

Lemma dir_slots_cons :
  forall epc q rest,
    dir_slots epc (q :: rest)
    = slots_from q 0 (Z.to_nat epc) ++ dir_slots epc rest.
Proof. reflexivity. Qed.

(** The loop over the clusters with the recording callback, next to the
    listing of the slots of the chain. *)
Lemma walk_clusters_slots_listing :
  forall hdr ft chunks fuel epc entry cluster ctx st log0 last lastc,
    chain_chunks hdr ft entry cluster chunks last lastc ->
    (length chunks < fuel)%nat ->
    holds_lname hdr ctx st ->
    names_fit hdr (dir_slots epc (chunks ++ [last])) st = true ->
    existsb (free_slotb hdr) (dir_slots epc (chunks ++ [last])) = true
    \/ chain_ends hdr ft lastc ->
    exists ctx',
      walk_clusters record_cb fuel epc hdr ft entry cluster ctx log0
      = Ok (ctx',
            log0 ++ slots_listing hdr (dir_slots epc (chunks ++ [last])) st,
            0).
Proof.
  intros hdr ft. induction chunks as [|q rest IH];
    intros fuel epc entry cluster ctx st log0 last lastc
           Hchain Hfuel Hh Hfit Hend;
    (destruct fuel as [|fuel]; [cbn [length] in Hfuel; lia|]).
  - destruct Hchain as [Hptr ->]. unfold chunk_pointer in Hptr.
    cbn [app] in *. rewrite dir_slots_cons in *.
    change (dir_slots epc []) with (@nil Z) in *. rewrite app_nil_r in *.
    cbn [walk_clusters]. rewrite Hptr. cbn [bind].
    destruct (walk_slots_slots_listing hdr ft (Z.to_nat epc) last 0 ctx st
                log0 Hh Hfit) as [ctx' [Hrun _]].
    rewrite Hrun. cbn [bind]. exists ctx'.
    destruct (existsb (free_slotb hdr) (slots_from last 0 (Z.to_nat epc)));
      [reflexivity|].
    destruct Hend as [C|[->|[val [Hval Heoc]]]]; [discriminate C|reflexivity|].
    destruct (cluster =? 0); [reflexivity|].
    rewrite Hval. cbn [bind]. rewrite Heoc. reflexivity.
  - destruct Hchain as [Hptr [Hc [val [Hval [Heoc [Hbad Hrest]]]]]].
    unfold chunk_pointer in Hptr.
    cbn [app] in *. rewrite dir_slots_cons in *.
    rewrite names_fit_app in Hfit. apply andb_true_iff in Hfit.
    destruct Hfit as [Hfit1 Hfit2].
    rewrite existsb_app in Hend. rewrite slots_listing_app.
    cbn [walk_clusters]. rewrite Hptr. cbn [bind].
    destruct (walk_slots_slots_listing hdr ft (Z.to_nat epc) q 0 ctx st
                log0 Hh Hfit1) as [ctx1 [Hrun Hh1]].
    rewrite Hrun. cbn [bind].
    destruct (existsb (free_slotb hdr) (slots_from q 0 (Z.to_nat epc)));
      [exists ctx1; reflexivity|].
    cbn [orb] in *.
    replace (cluster =? 0) with false by (symmetry; apply Z.eqb_neq; exact Hc).
    rewrite Hval. cbn [bind]. rewrite Heoc, Hbad. cbn [negb ASSERT bind].
    destruct (IH fuel epc (Some q) val ctx1
                (fold_left (run_step hdr) (slots_from q 0 (Z.to_nat epc)) st)
                (log0 ++ slots_listing hdr (slots_from q 0 (Z.to_nat epc)) st)
                last lastc Hrest) as [ctx' Hrun'];
      [cbn [length] in Hfuel; lia | apply Hh1; reflexivity | exact Hfit2
       | exact Hend |].
    exists ctx'. rewrite Hrun', <- app_assoc. reflexivity.
Qed.

Lemma run_step_inv :
  forall hdr st s, run_inv hdr st -> run_inv hdr (run_step hdr st s).
Proof.
  intros hdr st s Hinv. rewrite run_step_eq.
  destruct (is_long_name_entry hdr s) eqn:Hl.
  - unfold run_add.
    assert (H0 : run_inv hdr (run_restart hdr st s)
                 /\ run_chksum (run_restart hdr st s) = LDIR_Chksum hdr s).
    { unfold run_restart.
      destruct (Z.eqb_spec (run_chksum st) (LDIR_Chksum hdr s)) as [E|E];
        cbn [negb]; [split; assumption|].
      split; [|reflexivity]. intros _. constructor. }
    destruct H0 as [Hinv0 Hchk0].
    destruct (run_valid (run_restart hdr st s)) eqn:Hv; cbn [negb];
      [|exact Hinv0].
    unfold slot_good.
    destruct (slot_chars hdr s) as [cs|] eqn:Hcs;
      [|intro C; discriminate C].
    destruct (forallb fat32_is_valid_filename_character cs) eqn:Hall;
      [|intro C; discriminate C].
    intros _. cbn [run_slots run_chksum].
    apply Forall_app. split; [apply Hinv0; exact Hv|].
    constructor; [|constructor].
    split; [exact Hl|]. split; [symmetry; exact Hchk0|].
    exists cs. split; [exact Hcs|]. apply forallb_valid_Forall. exact Hall.
  - destruct (volume_id hdr s); [exact Hinv|]. intros _. constructor.
Qed.

Lemma fold_run_step_inv :
  forall hdr pre st,
    run_inv hdr st -> run_inv hdr (fold_left (run_step hdr) pre st).
Proof.
  intros hdr pre. induction pre as [|s pre IH]; intros st Hinv; [exact Hinv|].
  cbn [fold_left]. apply IH. apply run_step_inv. exact Hinv.
Qed.

(** A long name that [run_long_name] gives is spelled by the run. *)
Lemma run_long_name_valid :
  forall hdr st e name,
    run_inv hdr st ->
    run_long_name hdr st e = Some name ->
    valid_run hdr (shortname_checksum (DIR_Name hdr e)) (run_slots st) name.
Proof.
  intros hdr st e name Hinv H. unfold run_long_name in H.
  destruct (run_valid st) eqn:Hv; [|discriminate H].
  destruct (length (run_name hdr (run_slots st))) as [|k] eqn:Hk;
    [discriminate H|].
  cbn [Nat.eqb negb andb] in H.
  destruct (Z.eqb_spec (run_chksum st) (shortname_checksum (DIR_Name hdr e)))
    as [Hchk|_]; [|discriminate H].
  injection H as <-.
  pose proof (Hinv Hv) as Hall. rewrite Hchk in Hall.
  assert (Hne : run_name hdr (run_slots st) <> [])
    by (intro E; rewrite E in Hk; discriminate Hk).
  unfold valid_run. split.
  { intro E. apply Hne. rewrite E. reflexivity. }
  split; [exact Hall|]. split; [reflexivity|]. split; [exact Hne|].
  apply (run_name_valid _ _ _ Hall).
Qed.

(** Every long name of the listing is spelled by the run accumulated
    over the slots before its entry. *)
Lemma slots_listing_valid :
  forall hdr slots st,
    run_inv hdr st ->
    forall e name,
      In (e, Some name) (slots_listing hdr slots st) ->
      exists pre post,
        slots = pre ++ e :: post
        /\ valid_run hdr (shortname_checksum (DIR_Name hdr e))
             (run_slots (fold_left (run_step hdr) pre st)) name.
Proof.
  intros hdr slots. induction slots as [|s slots IH];
    intros st Hinv e name Hin; [contradiction|].
  cbn [slots_listing] in Hin.
  destruct (free_slotb hdr s); [contradiction|].
  assert (Htail : In (e, Some name)
                     (slots_listing hdr slots (run_step hdr st s)) ->
                  exists pre post,
                    s :: slots = pre ++ e :: post
                    /\ valid_run hdr (shortname_checksum (DIR_Name hdr e))
                         (run_slots (fold_left (run_step hdr) pre st)) name).
  { intro Hin'.
    destruct (IH (run_step hdr st s) (run_step_inv hdr st s Hinv) e name Hin')
      as [pre [post [Hsl Hvalid]]].
    exists (s :: pre), post. split; [rewrite Hsl; reflexivity | exact Hvalid]. }
  destruct (is_long_name_entry hdr s || volume_id hdr s);
    [apply Htail; exact Hin|].
  destruct Hin as [Hin|Hin]; [|apply Htail; exact Hin].
  injection Hin as <- Hname.
  exists [], slots. split; [reflexivity|].
  apply run_long_name_valid; assumption.
Qed.

(** What a logging callback has logged is the beginning of the list it
    was iterated over. *)
Lemma iter_cb_logging_prefix :
  forall (A : Type) (cb : fat_dentry_cb A) hdr ft l a log0 a' log' b,
    iter_cb (logging_cb cb) hdr ft l (a, log0) = Ok ((a', log'), b) ->
    exists l1 l2, l = l1 ++ l2 /\ log' = log0 ++ l1.
Proof.
  intros A cb hdr ft l. induction l as [|[e ln] l IH];
    intros a log0 a' log' b H.
  - injection H as <- <- <-. exists [], [].
    split; [reflexivity | symmetry; apply app_nil_r].
  - cbn [iter_cb] in H. unfold logging_cb at 1 in H. cbn [fst snd] in H.
    destruct (cb hdr ft e ln a) as [[a1 ret]|f]; cbn [bind] in H;
      [|discriminate H].
    destruct (negb (ret =? 0)).
    + injection H as <- <- <-. exists [(e, ln)], l. auto.
    + apply IH in H. destruct H as [l1 [l2 [Hl Hlog]]].
      exists ((e, ln) :: l1), l2. split; [rewrite Hl; reflexivity|].
      rewrite Hlog, <- app_assoc. reflexivity.
Qed.

(** Amended C8. For a directory none of whose runs of long-name slots
    grows beyond 255 characters, the walk is the listing of its slots:
    it returns 0 after handing over, in slot order up to the first free
    slot, every entry together with the long name [run_long_name] gives
    for the run accumulated over the slots before it. A long name is
    handed over only when that run, the long-name slots met since the
    start of the walk, the last entry or the last slot with another
    checksum, is valid: it is not empty, each of its slots carries the
    checksum of the entry's short name, the units read from each slot
    have a zero high byte, every character is in the whitelist, and the
    name is the characters of the slots, last slot first. Any other
    callback is handed a beginning of that listing. *)
Theorem fat_walk_directory_long_names_valid :
  forall fuel ctx hdr ft entry cluster chunks last lastc,
    ft = fat16_type \/ ft = fat32_type ->
    (ft = fat16_type -> cluster = 0 \/ entry = None) ->
    chain_chunks hdr ft entry cluster chunks last lastc ->
    (length chunks < fuel)%nat ->
    existsb (free_slotb hdr)
      (dir_slots (entries_per_cluster hdr) (chunks ++ [last])) = true
    \/ chain_ends hdr ft lastc ->
    names_fit hdr (dir_slots (entries_per_cluster hdr) (chunks ++ [last]))
      (mk_lname_run [] (-1) (is_valid ctx)) = true ->
    (exists ctx',
        fat_walk_directory record_cb fuel ctx hdr ft entry cluster []
        = Ok (ctx',
              slots_listing hdr
                (dir_slots (entries_per_cluster hdr) (chunks ++ [last]))
                (mk_lname_run [] (-1) (is_valid ctx)),
              0))
    /\ (forall e name,
          In (e, Some name)
             (slots_listing hdr
                (dir_slots (entries_per_cluster hdr) (chunks ++ [last]))
                (mk_lname_run [] (-1) (is_valid ctx))) ->
          exists pre post,
            dir_slots (entries_per_cluster hdr) (chunks ++ [last])
            = pre ++ e :: post
            /\ valid_run hdr (shortname_checksum (DIR_Name hdr e))
                 (run_slots (fold_left (run_step hdr) pre
                               (mk_lname_run [] (-1) (is_valid ctx))))
                 name)
    /\ (forall (A : Type) (cb : fat_dentry_cb A) a ctx' a' log' r,
          fat_walk_directory (logging_cb cb) fuel ctx hdr ft entry cluster
                             (a, [])
          = Ok (ctx', (a', log'), r) ->
          exists rest,
            slots_listing hdr
              (dir_slots (entries_per_cluster hdr) (chunks ++ [last]))
              (mk_lname_run [] (-1) (is_valid ctx))
            = log' ++ rest).
Proof.
  intros fuel ctx hdr ft entry cluster chunks last lastc
         Hft H16 Hchain Hfuel Hend Hfit.
  assert (Hwalk : exists ctx',
             fat_walk_directory record_cb fuel ctx hdr ft entry cluster []
             = Ok (ctx',
                   slots_listing hdr
                     (dir_slots (entries_per_cluster hdr) (chunks ++ [last]))
                     (mk_lname_run [] (-1) (is_valid ctx)),
                   0)).
  { unfold fat_walk_directory.
    replace (fat_type_eqb ft fat16_type || fat_type_eqb ft fat32_type)
      with true by (destruct Hft as [-> | ->]; reflexivity).
    cbn [ASSERT bind].
    assert (H16' : (if fat_type_eqb ft fat16_type
                    then ASSERT ((cluster =? 0) ||
                                 match entry with
                                 | None => true
                                 | Some _ => false
                                 end)
                    else Ok tt) = Ok tt).
    { destruct (fat_type_eqb ft fat16_type) eqn:E16; [|reflexivity].
      assert (ft = fat16_type) by (destruct ft; try discriminate E16;
                                   reflexivity).
      destruct (H16 H) as [-> | ->]; [reflexivity|].
      rewrite orb_true_r. reflexivity. }
    rewrite H16'. cbn [bind].
    apply (walk_clusters_slots_listing hdr ft chunks fuel
             (entries_per_cluster hdr) entry cluster _
             (mk_lname_run [] (-1) (is_valid ctx)) [] last lastc
             Hchain Hfuel); [|exact Hfit | exact Hend].
    unfold holds_lname.
    cbn [lname_chksum is_valid run_chksum run_valid run_slots].
    split; [reflexivity|]. split; [reflexivity|]. intros _. split.
    - unfold holds_run. cbn. split; [constructor|]. split; [lia|reflexivity].
    - cbn. lia. }
  split; [exact Hwalk|]. split.
  - apply slots_listing_valid. intros _. constructor.
  - intros A cb a ctx2 a' log' r H.
    destruct Hwalk as [ctx' Hrec].
    pose proof (fat_walk_directory_listing _ (logging_cb cb) hdr ft fuel ctx
                  entry cluster ctx' _ 0 Hrec (a, [])) as Hw.
    unfold follows_listing in Hw.
    destruct (iter_cb (logging_cb cb) hdr ft _ (a, []))
      as [[[a1 l1] stopped]|f] eqn:Hit.
    + assert (Heq : (a1, l1) = (a', log')).
      { destruct stopped.
        - destruct Hw as [c' Hw]. rewrite H in Hw. injection Hw as _ <- <-.
          reflexivity.
        - rewrite H in Hw. injection Hw as _ <- <-. reflexivity. }
      injection Heq as -> ->.
      apply iter_cb_logging_prefix in Hit.
      destruct Hit as [l1 [l2 [Hl Hlog]]]. cbn [app] in Hlog. subst l1.
      exists l2. exact Hl.
    + rewrite H in Hw. discriminate Hw.
Qed.

(** A file whose long name has 255 characters in 20 slots, in a directory
    of two clusters: the walk hands the entry over with its long name,
    which is spelled by the 20 slots before it. *)
Lemma fat_walk_directory_long_names_valid_witness :
  (exists ctx',
      fat_walk_directory record_cb 2 empty_walk_ctx (lname_hdr (repeat 97 8))
                         fat16_type None 2 []
      = Ok (ctx', [(18048, Some (repeat 97 255))], 0))
  /\ exists pre post,
       dir_slots 16 [17408; 17920] = pre ++ 18048 :: post
       /\ valid_run (lname_hdr (repeat 97 8))
            (shortname_checksum (DIR_Name (lname_hdr (repeat 97 8)) 18048))
            (run_slots (fold_left (run_step (lname_hdr (repeat 97 8))) pre
                          (mk_lname_run [] (-1) false)))
            (repeat 97 255).
Proof.
  assert (Hl : slots_listing (lname_hdr (repeat 97 8))
                 (dir_slots (entries_per_cluster (lname_hdr (repeat 97 8)))
                            ([17408] ++ [17920]))
                 (mk_lname_run [] (-1) (is_valid empty_walk_ctx))
               = [(18048, Some (repeat 97 255))])
    by (vm_compute; reflexivity).
  destruct (fat_walk_directory_long_names_valid 2 empty_walk_ctx
              (lname_hdr (repeat 97 8)) fat16_type None 2 [17408] 17920 3)
    as [Hwalk [Hvalid _]].
  - left. reflexivity.
  - intros _. right. reflexivity.
  - cbn [chain_chunks]. split; [reflexivity|]. split; [discriminate|].
    exists 3. repeat split; reflexivity.
  - simpl. lia.
  - left. vm_compute. reflexivity.
  - vm_compute. reflexivity.
  - rewrite Hl in Hwalk, Hvalid. split; [exact Hwalk|].
    apply (Hvalid 18048 (repeat 97 255)). left. reflexivity.
Defined.

(** Beyond 255 characters the reassembler leaves its buffer: with one
    more character in the first slot the NUL of the name is stored at
    [lname_buf[256]], and with 20 full slots, 260 characters, the 257th
    character is. *)
Example long_name_leaves_buffer :
  fat_walk_directory record_cb 2 empty_walk_ctx (lname_hdr (repeat 97 9))
                     fat16_type None 2 [] = Fault OutOfBounds
  /\ fat_walk_directory record_cb 2 empty_walk_ctx (lname_hdr (repeat 97 13))
                        fat16_type None 2 [] = Fault OutOfBounds.
Proof. split; vm_compute; reflexivity. Qed.
